(** * Conditional fan-out / fan-in workflow (src/workflow/fan_out_conditional.py)
      and the Gamma API executor (src/gamma/presentation_workflow.py).

    The Python handlers are embedded as programs of a small handler monad
    that records the calls made on the WorkflowContext.  The workflow engine
    that runs them is an imported package; it is modelled from the
    specification as a scheduler-driven step function. *)

From Stdlib Require Import ZArith List String Ascii Bool Lia Permutation.
From Stdlib Require Import Decimal DecimalString DecimalZ DecimalPos FinFun.
Import ListNotations.

Open Scope string_scope.
Open Scope Z_scope.

(* ================================================================== *)
(** * Python built-ins used by the handlers *)
(* ================================================================== *)

(** [str(i)] for an [int]. *)
Definition str (i : Z) : string := NilZero.string_of_int (Z.to_int i).

(** [s * n] for a string. *)
Fixpoint str_mul (s : string) (n : nat) : string :=
  match n with
  | O => EmptyString
  | S n' => s ++ str_mul s n'
  end.

(** Left padding with the fill character ['0'] up to [width]. *)
Definition zero_pad (width : nat) (s : string) : string :=
  str_mul "0" (width - String.length s) ++ s.

(** [f"{i:02d}"]: sign-aware zero padding to a minimum width of two. *)
Definition format_02d (i : Z) : string :=
  match Z.to_int i with
  | Pos u => zero_pad 2 (NilZero.string_of_uint u)
  | Neg u => "-" ++ zero_pad 1 (NilZero.string_of_uint u)
  end.

(** [range(n)]: the integers 0 .. n-1, empty when [n <= 0]. *)
Definition range (n : Z) : list Z := map Z.of_nat (seq 0 (Z.to_nat n)).

(** [sep.join(l)]. *)
Definition join (sep : string) (l : list string) : string := String.concat sep l.

Definition newline : string := String (ascii_of_nat 10) EmptyString.

(** [random.randint(a, b)] out of one raw draw of the generator. *)
Definition randint_of (raw a b : Z) : Z := a + raw mod (b - a + 1).

(** Python [float]s are kept abstract: only the operations the handlers
    apply to them are named. *)
Class PyFloat : Type := {
  float : Type;
  float_sub : float -> float -> float;      (* x - y *)
  float_round3 : float -> float;            (* round(x, 3) *)
  float_repr : float -> string;             (* f"{x}" *)
  float_fmt3f : float -> string;            (* f"{x:.3f}" *)
  float_0_1 : float;                        (* 0.1 *)
  float_0_5 : float                         (* 0.5 *)
}.

(* ================================================================== *)
(** * ANSI colour codes *)
(* ================================================================== *)

Definition ESC : string := String (ascii_of_nat 27) EmptyString.

Definition Colors_RESET : string := ESC ++ "[0m".
Definition Colors_BOLD : string := ESC ++ "[1m".
Definition Colors_CYAN : string := ESC ++ "[36m".
Definition Colors_GREEN : string := ESC ++ "[32m".
Definition Colors_BRIGHT_GREEN : string := ESC ++ "[92m".
Definition Colors_BRIGHT_YELLOW : string := ESC ++ "[93m".
Definition Colors_BRIGHT_BLUE : string := ESC ++ "[94m".
Definition Colors_BRIGHT_MAGENTA : string := ESC ++ "[95m".
Definition Colors_BRIGHT_CYAN : string := ESC ++ "[96m".

Definition Colors_colored (text color : string) : string :=
  color ++ text ++ Colors_RESET.

(* ================================================================== *)
(** * Data models, events and the handler monad *)
(* ================================================================== *)

Section Workflow.
Context {PF : PyFloat}.

Record WorkerResult : Type := {
  worker_id : string;
  input_value : Z;
  output_value : Z;
  processing_time : float
}.

Inductive Event : Type :=
| CustomInfoEvent (message : string)
| CustomSuccessEvent (message : string)
| CustomErrorEvent (message : string).

Definition _create_info_event (message : string) : Event := CustomInfoEvent message.
Definition _create_success_event (message : string) : Event := CustomSuccessEvent message.
Definition _create_error_event (message : string) : Event := CustomErrorEvent message.

(** Messages travelling along the edges: an [int], a [WorkerResult], or the
    list a fan-in hands to its target. *)
#[warnings="-register-all"]
Inductive Value : Type :=
| VInt (n : Z)
| VResult (r : WorkerResult)
| VList (l : list Value).

(** What a handler does to its WorkflowContext, in program order. *)
Inductive Action : Type :=
| AddEvent (e : Event)
| SendMessage (v : Value)
| YieldOutput (o : string)
| Sleep (d : float).

(** The outside world as one invocation sees it: the raw draws of the
    random generator, the values of [random.uniform] and the readings of
    [time.time()], each indexed by the order of the calls. *)
Record Oracle : Type := {
  o_rand : nat -> Z;
  o_uniform : nat -> float;
  o_clock : nat -> float
}.

Record HState : Type := {
  h_rand : nat;
  h_uniform : nat;
  h_clock : nat;
  h_trace : list Action
}.

Definition M (A : Type) : Type := Oracle -> HState -> A * HState.

Definition ret {A} (a : A) : M A := fun _ st => (a, st).

Definition bind {A B} (m : M A) (k : A -> M B) : M B :=
  fun o st => let '(a, st') := m o st in k a o st'.

Notation "x <- m ;; k" := (bind m (fun x => k))
  (at level 61, m at next level, right associativity).
Notation "m ;;; k" := (bind m (fun _ => k))
  (at level 61, right associativity).

Definition emit (a : Action) : M unit :=
  fun _ st => (tt, {| h_rand := h_rand st; h_uniform := h_uniform st;
                      h_clock := h_clock st; h_trace := (h_trace st ++ [a])%list |}).

Definition ctx_add_event (e : Event) : M unit := emit (AddEvent e).
Definition ctx_send_message (v : Value) : M unit := emit (SendMessage v).
Definition ctx_yield_output (o : string) : M unit := emit (YieldOutput o).
Definition asyncio_sleep (d : float) : M unit := emit (Sleep d).

Definition time_time : M float :=
  fun o st => (o_clock o (h_clock st),
               {| h_rand := h_rand st; h_uniform := h_uniform st;
                  h_clock := S (h_clock st); h_trace := h_trace st |}).

Definition random_uniform (a b : float) : M float :=
  fun o st => (o_uniform o (h_uniform st),
               {| h_rand := h_rand st; h_uniform := S (h_uniform st);
                  h_clock := h_clock st; h_trace := h_trace st |}).

Definition random_randint (a b : Z) : M Z :=
  fun o st => (randint_of (o_rand o (h_rand st)) a b,
               {| h_rand := S (h_rand st); h_uniform := h_uniform st;
                  h_clock := h_clock st; h_trace := h_trace st |}).

Definition h_init : HState :=
  {| h_rand := 0; h_uniform := 0; h_clock := 0; h_trace := [] |}.

(** The calls one invocation makes on its context. *)
Definition trace_of (m : M unit) (o : Oracle) : list Action :=
  h_trace (snd (m o h_init)).

(* ================================================================== *)
(** * Executors *)
(* ================================================================== *)

Definition CheckpointExecutor_process (number : Z) : M unit :=
  ctx_add_event
    (_create_info_event
       ("📋 Checkpoint received: " ++ Colors_colored (str number) Colors_BRIGHT_BLUE)) ;;;
  ctx_send_message (VInt number).

Definition SplitterExecutor_split (number : Z) : M unit :=
  ctx_add_event
    (_create_info_event
       ("📤 Splitting into " ++ Colors_colored (str number) Colors_BRIGHT_CYAN
          ++ " parallel workers...")) ;;;
  ctx_send_message (VInt number).

Definition worker_started_event (worker_id : string) (number : Z) : Event :=
  _create_info_event
    ("⚙️  Worker " ++ Colors_colored worker_id Colors_BRIGHT_YELLOW
       ++ " started processing input: "
       ++ Colors_colored (str number) Colors_BRIGHT_BLUE).

Definition worker_completed_event (worker_id : string) (number output : Z)
    (processing_time : float) : Event :=
  _create_success_event
    ("✓ Worker " ++ Colors_colored worker_id Colors_BRIGHT_YELLOW ++ " completed: "
       ++ "input=" ++ Colors_colored (str number) Colors_BRIGHT_BLUE ++ ", "
       ++ "output=" ++ Colors_colored (str output) Colors_BRIGHT_GREEN ++ ", "
       ++ "time=" ++ Colors_colored (float_fmt3f processing_time ++ "s")
                       Colors_BRIGHT_MAGENTA).

Definition WorkerExecutor_process (self_id : string) (number : Z) : M unit :=
  let worker_id := self_id in
  start_time <- time_time ;;
  ctx_add_event (worker_started_event worker_id number) ;;;
  processing_delay <- random_uniform float_0_1 float_0_5 ;;
  asyncio_sleep processing_delay ;;;
  factor <- random_randint 1 5 ;;
  noise <- random_randint 0 10 ;;
  let output := number * factor + noise in
  now <- time_time ;;
  let processing_time := float_sub now start_time in
  let result := {| worker_id := worker_id;
                   input_value := number;
                   output_value := output;
                   processing_time := float_round3 processing_time |} in
  ctx_add_event (worker_completed_event worker_id number output processing_time) ;;;
  ctx_send_message (VResult result).

Definition summary_header : list string :=
  [ Colors_colored (str_mul "=" 80) Colors_BOLD;
    Colors_colored "📊 WORKFLOW RESULTS SUMMARY" (Colors_BOLD ++ Colors_BRIGHT_GREEN);
    Colors_colored (str_mul "=" 80) Colors_BOLD ].

Definition result_line (result : WorkerResult) : string :=
  "  " ++ Colors_colored (worker_id result) Colors_BRIGHT_YELLOW ++ ": "
    ++ "input=" ++ Colors_colored (str (input_value result)) Colors_BRIGHT_BLUE ++ " → "
    ++ "output=" ++ Colors_colored (str (output_value result)) Colors_BRIGHT_GREEN ++ " "
    ++ "(" ++ Colors_colored (float_repr (processing_time result) ++ "s")
                Colors_BRIGHT_MAGENTA ++ ")".

Definition total_line (total_output : Z) : string :=
  "  Total combined output: "
    ++ Colors_colored (str total_output) (Colors_BOLD ++ Colors_BRIGHT_GREEN).

Definition summary_footer (total_output : Z) : list string :=
  [ Colors_colored (str_mul "-" 80) Colors_BOLD;
    total_line total_output;
    Colors_colored (str_mul "=" 80) Colors_BOLD ].

(** The [for result in results] loop: one line appended and the running
    total increased per result. *)
Definition aggregate_loop (results : list WorkerResult)
    (acc : list string * Z) : list string * Z :=
  fold_left
    (fun '(output_lines, total_output) result =>
       ((output_lines ++ [result_line result])%list,
        total_output + output_value result))
    results acc.

Definition aggregate_final_output (results : list WorkerResult) : string :=
  let '(output_lines, total_output) := aggregate_loop results (summary_header, 0) in
  let output_lines := (output_lines ++ summary_footer total_output)%list in
  join newline output_lines.

Definition AggregatorExecutor_aggregate (results : list WorkerResult) : M unit :=
  ctx_add_event
    (_create_info_event
       ("🔄 Fan-in: Aggregating "
          ++ Colors_colored (str (Z.of_nat (List.length results))) Colors_BRIGHT_CYAN
          ++ " worker results...")) ;;;
  let final_output := aggregate_final_output results in
  ctx_add_event
    (_create_success_event "✓ Aggregation complete. Yielding final output.") ;;;
  ctx_yield_output final_output.

(* ================================================================== *)
(** * Graph, builder and execution engine *)
(* ================================================================== *)

(** Modelled from the spec: the package [agent_framework] ([Executor],
    [WorkflowBuilder], [WorkflowContext] and the engine behind
    [run_stream]) is imported by the sources and is not part of them.  A
    node (spec 4.2) is an identifier with a handler; a handler applied to an
    incoming value, under the oracle of that invocation, makes a finite
    sequence of context calls.  A value whose type the handler does not
    declare leads to no call. *)
Record Node : Type := {
  n_id : string;
  n_handler : Value -> Oracle -> list Action
}.

Fixpoint results_of (l : list Value) : option (list WorkerResult) :=
  match l with
  | [] => Some []
  | VResult r :: l' => option_map (cons r) (results_of l')
  | _ :: _ => None
  end.

Definition CheckpointExecutor (id : string) : Node :=
  {| n_id := id;
     n_handler := fun v o =>
       match v with
       | VInt number => trace_of (CheckpointExecutor_process number) o
       | _ => []
       end |}.

Definition SplitterExecutor (id : string) : Node :=
  {| n_id := id;
     n_handler := fun v o =>
       match v with
       | VInt number => trace_of (SplitterExecutor_split number) o
       | _ => []
       end |}.

Definition WorkerExecutor (id : string) : Node :=
  {| n_id := id;
     n_handler := fun v o =>
       match v with
       | VInt number => trace_of (WorkerExecutor_process id number) o
       | _ => []
       end |}.

Definition AggregatorExecutor (id : string) : Node :=
  {| n_id := id;
     n_handler := fun v o =>
       match v with
       | VList l =>
           match results_of l with
           | Some results => trace_of (AggregatorExecutor_aggregate results) o
           | None => []
           end
       | _ => []
       end |}.

(** Modelled from the spec: edges as the builder calls declare them (spec 3,
    4.1): a plain edge with an optional predicate, a fan-out (N plain edges
    without predicate from one source) and a fan-in group. *)
Inductive EdgeGroup : Type :=
| SingleEdge (src tgt : string) (condition : option (Value -> bool))
| FanOutEdges (src : string) (tgts : list string)
| FanInEdges (srcs : list string) (tgt : string).

(** Modelled from the spec: a graph (spec 2, 3) is the registered nodes,
    the edge groups in declaration order and the start node. *)
Record Graph : Type := {
  g_nodes : list Node;
  g_groups : list EdgeGroup;
  g_start : string
}.

(** Modelled from the spec: the structural errors of [build()] (spec 4.1,
    7). *)
Inductive GraphError : Type :=
| NoStartNode
| UnregisteredNode
| FanInTargetShared
| AmbiguousFanInTarget.

(** Modelled from the spec: the builder (spec 4.1) collects the start node,
    the nodes handed to its methods and the edge groups; a node whose
    identifier is already registered is not registered again. *)
Record WorkflowBuilder : Type := {
  wb_start : option string;
  wb_nodes : list Node;
  wb_groups : list EdgeGroup
}.

Definition mem (x : string) (l : list string) : bool := existsb (String.eqb x) l.

Definition register (n : Node) (nodes : list Node) : list Node :=
  if mem (n_id n) (map n_id nodes) then nodes else (nodes ++ [n])%list.

Definition WorkflowBuilder_new : WorkflowBuilder :=
  {| wb_start := None; wb_nodes := []; wb_groups := [] |}.

Definition set_start_executor (b : WorkflowBuilder) (n : Node) : WorkflowBuilder :=
  {| wb_start := Some (n_id n);
     wb_nodes := register n (wb_nodes b);
     wb_groups := wb_groups b |}.

Definition add_edge (b : WorkflowBuilder) (src tgt : Node)
    (condition : option (Value -> bool)) : WorkflowBuilder :=
  {| wb_start := wb_start b;
     wb_nodes := register tgt (register src (wb_nodes b));
     wb_groups := (wb_groups b ++ [SingleEdge (n_id src) (n_id tgt) condition])%list |}.

Definition add_fan_out_edges (b : WorkflowBuilder) (src : Node) (tgts : list Node)
    : WorkflowBuilder :=
  {| wb_start := wb_start b;
     wb_nodes := fold_left (fun ns n => register n ns) tgts (register src (wb_nodes b));
     wb_groups := (wb_groups b ++ [FanOutEdges (n_id src) (map n_id tgts)])%list |}.

Definition add_fan_in_edges (b : WorkflowBuilder) (srcs : list Node) (tgt : Node)
    : WorkflowBuilder :=
  {| wb_start := wb_start b;
     wb_nodes := register tgt (fold_left (fun ns n => register n ns) srcs (wb_nodes b));
     wb_groups := (wb_groups b ++ [FanInEdges (map n_id srcs) (n_id tgt)])%list |}.

Definition group_ids (grp : EdgeGroup) : list string :=
  match grp with
  | SingleEdge src tgt _ => [src; tgt]
  | FanOutEdges src tgts => src :: tgts
  | FanInEdges srcs tgt => (srcs ++ [tgt])%list
  end.

Definition fan_in_targets (groups : list EdgeGroup) : list string :=
  flat_map (fun grp => match grp with FanInEdges _ tgt => [tgt] | _ => [] end) groups.

Fixpoint has_dup (l : list string) : bool :=
  match l with
  | [] => false
  | x :: l' => mem x l' || has_dup l'
  end.

(** Does the plain or fan-out group [grp] reach [tgt] from a source outside
    [srcs]? *)
Definition reaches_from_outside (srcs : list string) (tgt : string) (grp : EdgeGroup)
    : bool :=
  match grp with
  | SingleEdge src tgt' _ => String.eqb tgt' tgt && negb (mem src srcs)
  | FanOutEdges src tgts => mem tgt tgts && negb (mem src srcs)
  | FanInEdges _ _ => false
  end.

Definition ambiguous_fan_in (groups : list EdgeGroup) : bool :=
  existsb (fun grp => match grp with
                      | FanInEdges srcs tgt => existsb (reaches_from_outside srcs tgt) groups
                      | _ => false
                      end) groups.

(** Modelled from the spec: [build()] (spec 4.1) fails when no start node is
    set, when an edge names a node that is not registered, when a target is
    in more than one fan-in group and when a fan-in target is also reached
    by a plain edge from outside its group.  The search for cycles of 4.1 is
    not part of this model. *)
Definition build (b : WorkflowBuilder) : GraphError + Graph :=
  match wb_start b with
  | None => inl NoStartNode
  | Some start =>
      if negb (forallb (fun id => mem id (map n_id (wb_nodes b)))
                 (start :: flat_map group_ids (wb_groups b)))
      then inl UnregisteredNode
      else if has_dup (fan_in_targets (wb_groups b)) then inl FanInTargetShared
      else if ambiguous_fan_in (wb_groups b) then inl AmbiguousFanInTarget
      else inr {| g_nodes := wb_nodes b; g_groups := wb_groups b; g_start := start |}
  end.

(** The condition of the guarded edge:
    [lambda msg: isinstance(msg, int) and msg <= 10]. *)
Definition at_most_ten (msg : Value) : bool :=
  match msg with
  | VInt n => n <=? 10
  | _ => false
  end.

Definition worker_name (i : Z) : string := "worker_" ++ format_02d i.

Definition create_conditional_fan_out_workflow (num_workers : Z) : GraphError + Graph :=
  let checkpoint := CheckpointExecutor "checkpoint" in
  let splitter := SplitterExecutor "splitter" in
  let workers := map (fun i => WorkerExecutor (worker_name i)) (range num_workers) in
  let aggregator := AggregatorExecutor "aggregator" in
  let builder := WorkflowBuilder_new in
  let builder := set_start_executor builder checkpoint in
  let builder := add_edge builder checkpoint splitter (Some at_most_ten) in
  let builder := add_fan_out_edges builder splitter workers in
  let builder := add_fan_in_edges builder workers aggregator in
  build builder.

(** Modelled from the spec: one execution (spec 3, 4.6).  A task is a node
    invocation in flight with the calls it has still to make; the fan-in
    accumulators hold, per group target, the members that delivered and
    their values in arrival order; the history lists every call executed,
    with the invocation and node it came from, in the order the engine
    executed them (its [AddEvent] entries are the event stream); the
    invocation log lists the node invocations in the order they started. *)
Record Task : Type := {
  t_inv : nat;
  t_node : string;
  t_todo : list Action
}.

Inductive Status : Type :=
| Running
| Completed (output : string)
| Halted
| Failed (node cause : string).

Record Exec : Type := {
  x_pool : list Task;
  x_fanin : list (string * list (string * Value));
  x_hist : list (nat * string * Action);
  x_invoked : list (string * Value);
  x_status : Status
}.

Definition is_running (s : Exec) : bool :=
  match x_status s with Running => true | _ => false end.

Definition find_node (g : Graph) (id : string) : option Node :=
  find (fun n => String.eqb (n_id n) id) (g_nodes g).

Definition fanin_get (tgt : string) (fanin : list (string * list (string * Value)))
    : list (string * Value) :=
  match find (fun p => String.eqb (fst p) tgt) fanin with
  | Some p => snd p
  | None => []
  end.

Definition fanin_set (tgt : string) (acc : list (string * Value))
    (fanin : list (string * list (string * Value)))
    : list (string * list (string * Value)) :=
  map (fun p => if String.eqb (fst p) tgt then (fst p, acc) else p) fanin.

Section Engine.
Variable g : Graph.
Variable env : nat -> Oracle.

(** Modelled from the spec: invoking a node starts a task for it; the
    invocation takes the next oracle of the environment. *)
Definition spawn (tgt : string) (v : Value) (s : Exec) : Exec :=
  match find_node g tgt with
  | None => s
  | Some n =>
      let k := List.length (x_invoked s) in
      let todo := n_handler n v (env k) in
      {| x_pool := match todo with
                   | [] => x_pool s
                   | _ :: _ => (x_pool s ++ [{| t_inv := k; t_node := tgt; t_todo := todo |}])%list
                   end;
         x_fanin := x_fanin s;
         x_hist := x_hist s;
         x_invoked := (x_invoked s ++ [(tgt, v)])%list;
         x_status := x_status s |}
  end.

(** Modelled from the spec: fan-in (spec 4.5).  A delivery from a member is
    recorded and its value appended; when every declared member has
    delivered the target is invoked once with the accumulated sequence and
    the accumulator is cleared.  A second delivery from a member that has
    already delivered fails the execution (spec 9).  The delivery of a
    member is the only moment the spec names for testing a group, so a
    group declared without members is never tested. *)
Definition fan_in_deliver (srcs : list string) (tgt src : string) (v : Value)
    (s : Exec) : Exec :=
  let acc := fanin_get tgt (x_fanin s) in
  if mem src (map fst acc)
  then {| x_pool := x_pool s; x_fanin := x_fanin s; x_hist := x_hist s;
          x_invoked := x_invoked s;
          x_status := Failed src "second delivery to a fan-in group" |}
  else
    let acc' := (acc ++ [(src, v)])%list in
    if forallb (fun m => mem m (map fst acc')) srcs
    then spawn tgt (VList (map snd acc'))
           {| x_pool := x_pool s; x_fanin := fanin_set tgt [] (x_fanin s);
              x_hist := x_hist s; x_invoked := x_invoked s; x_status := x_status s |}
    else {| x_pool := x_pool s; x_fanin := fanin_set tgt acc' (x_fanin s);
            x_hist := x_hist s; x_invoked := x_invoked s; x_status := x_status s |}.

(** Modelled from the spec: routing of one outgoing value across one
    declared group (spec 4.3, 4.4): an edge fires when its source matches
    and its predicate is absent or true. *)
Definition deliver (src : string) (v : Value) (s : Exec) (grp : EdgeGroup) : Exec :=
  if negb (is_running s) then s
  else
    match grp with
    | SingleEdge src' tgt condition =>
        if String.eqb src' src
        then match condition with
             | Some p => if p v then spawn tgt v s else s
             | None => spawn tgt v s
             end
        else s
    | FanOutEdges src' tgts =>
        if String.eqb src' src
        then fold_left (fun s' tgt => spawn tgt v s') tgts s
        else s
    | FanInEdges srcs tgt =>
        if mem src srcs then fan_in_deliver srcs tgt src v s else s
    end.

(** Groups are visited in declaration order; a value no edge fires for is
    dropped. *)
Definition route (src : string) (v : Value) (s : Exec) : Exec :=
  fold_left (deliver src v) (g_groups g) s.

Definition with_status (st : Status) (s : Exec) : Exec :=
  {| x_pool := x_pool s; x_fanin := x_fanin s; x_hist := x_hist s;
     x_invoked := x_invoked s; x_status := st |}.

(** Modelled from the spec: the effect of one context call of the task
    [t] (spec 4.2, 4.6): an event joins the stream, a sent value is routed,
    a yielded output completes the execution. *)
Definition perform (t : Task) (a : Action) (s : Exec) : Exec :=
  let s := {| x_pool := x_pool s; x_fanin := x_fanin s;
              x_hist := (x_hist s ++ [(t_inv t, t_node t, a)])%list;
              x_invoked := x_invoked s; x_status := x_status s |} in
  match a with
  | AddEvent _ => s
  | Sleep _ => s
  | SendMessage v => route (t_node t) v s
  | YieldOutput o => with_status (Completed o) s
  end.

Definition pool_after (pool : list Task) (i : nat) (t : Task) (rest : list Action)
    : list Task :=
  (firstn i pool
     ++ match rest with
        | [] => []
        | _ :: _ => [{| t_inv := t_inv t; t_node := t_node t; t_todo := rest |}]
        end
     ++ skipn (S i) pool)%list.

(** Modelled from the spec: one scheduling step (spec 4.6, 5).  The
    scheduler's [choice] selects any task in flight, which makes its next
    context call; a task that has made its last call leaves the pool.  With
    nothing in flight and no output the execution is halted.  Terminal
    states are sticky: whatever is still in the pool is abandoned. *)
Definition step (choice : nat) (s : Exec) : Exec :=
  match x_status s with
  | Running =>
      match x_pool s with
      | [] => with_status Halted s
      | _ :: _ =>
          let i := Nat.modulo choice (List.length (x_pool s)) in
          match nth_error (x_pool s) i with
          | None => s
          | Some t =>
              match t_todo t with
              | [] => {| x_pool := pool_after (x_pool s) i t [];
                         x_fanin := x_fanin s; x_hist := x_hist s;
                         x_invoked := x_invoked s; x_status := x_status s |}
              | a :: rest =>
                  perform t a
                    {| x_pool := pool_after (x_pool s) i t rest;
                       x_fanin := x_fanin s; x_hist := x_hist s;
                       x_invoked := x_invoked s; x_status := x_status s |}
              end
          end
      end
  | _ => s
  end.

Fixpoint run_schedule (schedule : list nat) (s : Exec) : Exec :=
  match schedule with
  | [] => s
  | choice :: schedule' => run_schedule schedule' (step choice s)
  end.

(** Modelled from the spec: [run(initialValue)] invokes the start node with
    the initial value (spec 4.6); every fan-in group starts with an empty
    accumulator. *)
Definition start (v : Value) : Exec :=
  spawn (g_start g) v
    {| x_pool := [];
       x_fanin := map (fun tgt => (tgt, [])) (fan_in_targets (g_groups g));
       x_hist := [];
       x_invoked := [];
       x_status := Running |}.

Definition run (v : Value) (schedule : list nat) : Exec :=
  run_schedule schedule (start v).

End Engine.

(** ** Observations on an execution *)

(** The calls of the node [id] in a history, in the order of the history. *)
Definition calls_of (id : string) (h : list (nat * string * Action)) : list Action :=
  map snd (filter (fun e => String.eqb (snd (fst e)) id) h).

Definition actions_of_node (id : string) (s : Exec) : list Action :=
  calls_of id (x_hist s).

Definition event_stream (s : Exec) : list (string * Event) :=
  flat_map (fun e => match snd e with
                     | AddEvent ev => [(snd (fst e), ev)]
                     | _ => []
                     end) (x_hist s).

Definition outputs (s : Exec) : list string :=
  flat_map (fun e => match snd e with YieldOutput o => [o] | _ => [] end) (x_hist s).

Definition inputs_of_node (id : string) (s : Exec) : list Value :=
  map snd (filter (fun p => String.eqb (fst p) id) (x_invoked s)).

Definition events_in (l : list Action) : list Event :=
  flat_map (fun a => match a with AddEvent e => [e] | _ => [] end) l.

Definition sends_in (l : list Action) : list Value :=
  flat_map (fun a => match a with SendMessage v => [v] | _ => [] end) l.

Definition yields_in (l : list Action) : list string :=
  flat_map (fun a => match a with YieldOutput o => [o] | _ => [] end) l.

End Workflow.

(* ================================================================== *)
(** * The Gamma API executor (src/gamma/presentation_workflow.py) *)
(* ================================================================== *)

(** [not x] for what [os.getenv] returns: the variable is unset ([None])
    or set to the empty string. *)
Definition env_unset (x : option string) : bool :=
  match x with
  | None => true
  | Some value => String.eqb value EmptyString
  end.

Section Gamma.
Context {PF : PyFloat}.

(** What [json.loads] returns. *)
#[warnings="-register-all"]
Inductive Json : Type :=
| JNull
| JBool (b : bool)
| JInt (z : Z)
| JFloat (x : float)
| JStr (s : string)
| JList (l : list Json)
| JDict (d : list (string * Json)).

(** A raised exception: its class, [str(e)], and whether it is an instance
    of [Exception], which is what [except Exception] catches
    ([KeyboardInterrupt], [SystemExit] and [asyncio.CancelledError] are
    not). *)
Record PyExn : Type := {
  exn_class : string;
  exn_message : string;
  exn_is_Exception : bool
}.

Record HttpResponse : Type := {
  status_code : Z;
  text : string;
  json_body : PyExn + Json       (* what [.json()] returns or raises *)
}.

(** What the handler does to the outside, in program order. *)
Inductive GammaEffect : Type :=
| LogInfo (message : string)
| LogError (message : string)
| FileWrite (path content : string)
| HttpPost (url : string) (payload : Json)
| HttpGet (url : string)
| SleepSeconds (seconds : Z)
| GammaYield (output : string).

(** The outside as one call sees it: what opening a path for writing
    raises, if anything; the answer to the POST; the answers to the polling
    GETs that arrive before [max_wait] has elapsed, and the whole seconds
    elapsed, [int(time.time() - start_time)], when the turn of each answer
    logs its status; the answer to the download. *)
Record GammaWorld : Type := {
  open_error : string -> option PyExn;
  post_answer : PyExn + HttpResponse;
  poll_answers : list (PyExn + HttpResponse);
  poll_elapsed : nat -> Z;
  download_answer : PyExn + HttpResponse
}.

(** The module globals and library functions the handler uses. *)
Variable GAMMA_API_KEY : option string.
Variable GAMMA_API_BASE_URL : string.
Variable json_loads : string -> PyExn + Json. (* the value, or what it raises *)
Variable json_dumps : Json -> string.          (* [json.dumps(x, indent=2)] *)
Variable py_format : Json -> string.           (* [f"{x}"] *)
Variable float_plus_one : float -> float.      (* [x + 1] *)
Variable float_is_zero : float -> bool.        (* [x == 0] *)

Definition dquote : string := String (ascii_of_nat 34) EmptyString.

(** The head of the log lines that name the presentation. *)
Definition log_head (title : Json) : string :=
  "GAMMA - " ++ dquote ++ py_format title ++ dquote ++ " - ".

Definition G (A : Type) : Type := list GammaEffect -> (PyExn + A) * list GammaEffect.

Definition g_ret {A} (a : A) : G A := fun log => (inr a, log).

Definition g_bind {A B} (m : G A) (k : A -> G B) : G B :=
  fun log => match m log with
             | (inl e, log') => (inl e, log')
             | (inr a, log') => k a log'
             end.

(** Raising an exception of a class derived from [Exception]. *)
Definition g_raise {A} (cls msg : string) : G A :=
  fun log => (inl {| exn_class := cls; exn_message := msg;
                     exn_is_Exception := true |}, log).

Definition g_reraise {A} (e : PyExn) : G A := fun log => (inl e, log).

Definition g_do (eff : GammaEffect) : G unit := fun log => (inr tt, (log ++ [eff])%list).

(** [try: m except Exception as e: handler e]: an exception that is not
    an [Exception] passes through. *)
Definition g_try {A} (m : G A) (handler : PyExn -> G A) : G A :=
  fun log => match m log with
             | (inl e, log') =>
                 if exn_is_Exception e then handler e log' else (inl e, log')
             | (inr a, log') => (inr a, log')
             end.

Notation "x <- m ;; k" := (g_bind m (fun x => k))
  (at level 61, m at next level, right associativity).
Notation "m ;;; k" := (g_bind m (fun _ => k))
  (at level 61, right associativity).

(** [bool(x)] of a parsed value. *)
Definition truthy (x : Json) : bool :=
  match x with
  | JNull => false
  | JBool b => b
  | JInt z => negb (z =? 0)
  | JFloat x => negb (float_is_zero x)
  | JStr s => negb (String.eqb s EmptyString)
  | JList l => match l with [] => false | _ :: _ => true end
  | JDict d => match d with [] => false | _ :: _ => true end
  end.

Definition dict_lookup (d : list (string * Json)) (key : string) (default : Json) : Json :=
  match find (fun kv => String.eqb (fst kv) key) d with
  | Some kv => snd kv
  | None => default
  end.

(** [type(x).__name__]. *)
Definition type_name (x : Json) : string :=
  match x with
  | JNull => "NoneType"
  | JBool _ => "bool"
  | JInt _ => "int"
  | JFloat _ => "float"
  | JStr _ => "str"
  | JList _ => "list"
  | JDict _ => "dict"
  end.

(** The message of the [AttributeError] for a missing method. *)
Definition no_attribute (x : Json) (name : string) : string :=
  "'" ++ type_name x ++ "' object has no attribute '" ++ name ++ "'".

(** [x.get(key, default)]: only a [dict] has the method. *)
Definition py_get (x : Json) (key : string) (default : Json) : G Json :=
  match x with
  | JDict d => g_ret (dict_lookup d key default)
  | _ => g_raise "AttributeError" (no_attribute x "get")
  end.

Fixpoint replace_char (from to : ascii) (s : string) : string :=
  match s with
  | EmptyString => EmptyString
  | String c s' => String (if Ascii.eqb c from then to else c) (replace_char from to s')
  end.

(** [x.replace(' ', '_')]: only a [str] has the method. *)
Definition py_replace_spaces (x : Json) : G string :=
  match x with
  | JStr s => g_ret (replace_char " " "_" s)
  | _ => g_raise "AttributeError" (no_attribute x "replace")
  end.

(** [x + 1]. *)
Definition py_add_one (x : Json) : G Json :=
  match x with
  | JInt z => g_ret (JInt (z + 1))
  | JBool b => g_ret (JInt ((if b then 1 else 0) + 1))
  | JFloat x => g_ret (JFloat (float_plus_one x))
  | JStr _ | JList _ =>
      g_raise "TypeError"
        ("can only concatenate " ++ type_name x ++ " (not " ++ dquote ++ "int" ++ dquote
           ++ ") to " ++ type_name x)
  | JNull | JDict _ =>
      g_raise "TypeError"
        ("unsupported operand type(s) for +: '" ++ type_name x ++ "' and 'int'")
  end.

(** [with open(path, "w") as f: f.write(content)]: the file is written
    unless [open] raises. *)
Definition write_file (w : GammaWorld) (path content : string) : G unit :=
  match open_error w path with
  | None => g_do (FileWrite path content)
  | Some e => g_reraise e
  end.

Definition answer (a : PyExn + HttpResponse) : G HttpResponse :=
  match a with
  | inl e => g_reraise e
  | inr r => g_ret r
  end.

Definition response_json (r : HttpResponse) : G Json :=
  match json_body r with
  | inr x => g_ret x
  | inl e => g_reraise e
  end.

(** The [while] loop of [_poll_for_completion] from its turn [turn] on:
    one GET per turn until a 200 answer reports the status "completed"; the
    loop ends with a [TimeoutError] when [max_wait] has elapsed. *)
Fixpoint poll_loop (generation_id : Json) (elapsed : nat -> Z) (turn : nat)
    (answers : list (PyExn + HttpResponse)) : G Json :=
  match answers with
  | [] => g_raise "TimeoutError" "Presentation generation timed out after 300 seconds"
  | a :: answers' =>
      g_do (HttpGet (GAMMA_API_BASE_URL ++ "/generations/" ++ py_format generation_id)) ;;;
      response <- answer a ;;
      if status_code response =? 200
      then
        data <- response_json response ;;
        status <- py_get data "status" JNull ;;
        match status with
        | JStr "completed" =>
            g_do (LogInfo ("GAMMA - GET /generations/" ++ py_format generation_id
                             ++ " - Status: completed")) ;;;
            g_ret data
        | _ =>
            g_do (LogInfo ("GAMMA - GET /generations/" ++ py_format generation_id
                             ++ " - Status: " ++ py_format status
                             ++ " (" ++ str (elapsed turn) ++ "s)")) ;;;
            g_do (SleepSeconds 5) ;;;
            poll_loop generation_id elapsed (S turn) answers'
        end
      else
        g_do (SleepSeconds 5) ;;;
        poll_loop generation_id elapsed (S turn) answers'
  end.

Definition _poll_for_completion (generation_id : Json) (elapsed : nat -> Z)
    (answers : list (PyExn + HttpResponse)) : G Json :=
  g_do (LogInfo ("GAMMA - GET /generations/" ++ py_format generation_id
                   ++ " - Polling started (max wait: 300s)")) ;;;
  poll_loop generation_id elapsed 0 answers.

Definition _download_pdf (w : GammaWorld) (pdf_url : Json) (output_path : string)
    : G string :=
  g_do (LogInfo ("GAMMA - Downloading PDF to: " ++ output_path)) ;;;
  g_do (HttpGet (py_format pdf_url)) ;;;
  response <- answer (download_answer w) ;;
  if negb (status_code response =? 200)
  then g_raise "RuntimeError" ("Failed to download PDF (status "
                                 ++ str (status_code response) ++ ")")
  else
    write_file w output_path (text response) ;;;
    g_do (LogInfo ("GAMMA - PDF saved successfully to: " ++ output_path)) ;;;
    g_ret output_path.

(** [not GAMMA_API_KEY]. *)
Definition key_missing : bool := env_unset GAMMA_API_KEY.

Definition gamma_payload (slide_content : string) (num_cards audience : Json) : Json :=
  JDict [ ("inputText", JStr slide_content);
          ("textMode", JStr "condense");
          ("format", JStr "presentation");
          ("themeName", JStr "Gamma");
          ("numCards", num_cards);
          ("cardSplit", JStr "auto");
          ("exportAs", JStr "pdf");
          ("textOptions", JDict [ ("amount", JStr "brief");
                                  ("tone", JStr "professional, engaging, informative");
                                  ("language", JStr "en");
                                  ("audience", audience) ]);
          ("imageOptions", JDict [ ("source", JStr "aiGenerated");
                                   ("style", JStr "photorealistic") ]);
          ("cardOptions", JDict [ ("dimensions", JStr "16x9") ]) ].

Definition call_gamma_api (w : GammaWorld) (response_text : string) : G unit :=
  let slide_content := response_text in
  response_json_ <-
    match json_loads slide_content with
    | inr x => g_ret x
    | inl e => g_reraise e
    end ;;
  number_of_slides <- py_get response_json_ "number_of_slides" (JInt 5) ;;
  audience <- py_get response_json_ "audience" (JStr "general") ;;
  title <- py_get response_json_ "title" (JStr "Untitled Presentation") ;;
  g_do (LogInfo (log_head title ++ "Slides: " ++ py_format number_of_slides
                   ++ ", Audience: " ++ py_format audience)) ;;;
  title_path <- py_replace_spaces title ;;
  write_file w (title_path ++ "_response.json") (json_dumps response_json_) ;;;
  if key_missing
  then g_do (GammaYield "Error: GAMMA_API_KEY not found in environment")
  else
    num_cards <- py_add_one number_of_slides ;;
    let payload := gamma_payload slide_content num_cards audience in
    g_try
      (g_do (HttpPost (GAMMA_API_BASE_URL ++ "/generations") payload) ;;;
       api_response <- answer (post_answer w) ;;
       if negb ((status_code api_response =? 200) || (status_code api_response =? 201))
       then
         g_do (LogError (log_head title ++ "POST /generations "
                           ++ str (status_code api_response))) ;;;
         g_do (GammaYield ("Gamma API Error: " ++ str (status_code api_response)
                             ++ " - " ++ text api_response))
       else
         data <- response_json api_response ;;
         id1 <- py_get data "id" JNull ;;
         id2 <- py_get data "generationId" JNull ;;
         let generation_id := if truthy id1 then id1 else id2 in
         if negb (truthy generation_id)
         then
           g_do (LogError (log_head title ++ "No generation ID in response")) ;;;
           g_do (GammaYield ("No generation ID in response: " ++ json_dumps data))
         else
           g_do (LogInfo (log_head title ++ "POST /generations "
                            ++ str (status_code api_response)
                            ++ " - Generation ID: " ++ py_format generation_id)) ;;;
           completed_data <- _poll_for_completion generation_id (poll_elapsed w)
                               (poll_answers w) ;;
           pdf_url <- py_get completed_data "exportUrl" JNull ;;
           if truthy pdf_url
           then
             pdf_path <- _download_pdf w pdf_url (title_path ++ ".pdf") ;;
             g_do (LogInfo (log_head title ++ "Presentation completed - PDF saved to: "
                              ++ pdf_path)) ;;;
             g_do (GammaYield ("âœ“ Presentation created successfully!" ++ newline
                                 ++ "Generation ID: " ++ py_format generation_id ++ newline
                                 ++ "PDF URL: " ++ py_format pdf_url ++ newline
                                 ++ "PDF saved to: " ++ pdf_path))
           else
             g_do (LogError (log_head title ++ "No PDF URL in response")) ;;;
             g_do (GammaYield ("No PDF URL in response: " ++ json_dumps completed_data)))
      (fun e =>
         g_do (LogError (log_head title ++ "Exception: " ++ exn_message e)) ;;;
         g_do (GammaYield ("Exception calling Gamma API: " ++ exn_message e))).

(** One call of the handler: how it ends and what it did. *)
Definition run_gamma (w : GammaWorld) (response_text : string)
    : (PyExn + unit) * list GammaEffect :=
  call_gamma_api w response_text [].

Definition gamma_yields (effects : list GammaEffect) : list string :=
  flat_map (fun e => match e with GammaYield o => [o] | _ => [] end) effects.

Definition is_http (e : GammaEffect) : bool :=
  match e with
  | HttpPost _ _ | HttpGet _ => true
  | _ => false
  end.

End Gamma.

(* ================================================================== *)
(** * The configuration module (src/gamma/config/config.py) and the
      process that imports it *)
(* ================================================================== *)

(** How the import of a module ends: its globals are defined, or
    [sys.exit] ended the process after a printed line, or the module body
    raised. *)
Inductive ImportResult (A : Type) : Type :=
| Imported (globals : A)
| Exited (printed : string) (code : Z)
| ImportRaised (e : PyExn).

Arguments Imported {A} globals.
Arguments Exited {A} printed code.
Arguments ImportRaised {A} e.

(** The globals of [config.config]. *)
Record Config : Type := {
  API_KEY : option string;
  API_BASE_URL : string;
  TAVILY_API_KEY : option string;
  AZURE_OPENAI_ENDPOINT : option string;
  AZURE_OPENAI_API_KEY : option string;
  AZURE_OPENAI_DEPLOYMENT : option string
}.

(** The body of [config.config]; [getenv] is [os.getenv] once
    [load_dotenv()] has run. *)
Definition config_module (getenv : string -> option string) : ImportResult Config :=
  let api_key := getenv "GAMMA_API_KEY" in
  if env_unset api_key
  then Exited "Error: GAMMA_API_KEY not found in .env file" 1
  else
    let tavily := getenv "TAVILY_API_KEY" in
    let endpoint := getenv "AZURE_OPENAI_ENDPOINT" in
    let azure_key := getenv "AZURE_OPENAI_API_KEY" in
    let deployment := getenv "AZURE_OPENAI_DEPLOYMENT" in
    if env_unset endpoint || env_unset azure_key || env_unset deployment
    then ImportRaised
           {| exn_class := "ValueError";
              exn_message := "Azure OpenAI configuration is missing in environment variables.";
              exn_is_Exception := true |}
    else Imported {| API_KEY := api_key;
                     API_BASE_URL := "https://public-api.gamma.app/v0.2";
                     TAVILY_API_KEY := tavily;
                     AZURE_OPENAI_ENDPOINT := endpoint;
                     AZURE_OPENAI_API_KEY := azure_key;
                     AZURE_OPENAI_DEPLOYMENT := deployment |}.

(** The imports at the head of presentation_workflow.py that read the
    environment: [config.config] first, then [tools.search], whose body
    raises when the Tavily key is missing.  The creation of the two agents
    that follows is left out. *)
Definition presentation_workflow_imports (getenv : string -> option string)
    : ImportResult Config :=
  match config_module getenv with
  | Imported config =>
      if env_unset (TAVILY_API_KEY config)
      then ImportRaised
             {| exn_class := "ValueError";
                exn_message := "Tavily API key is missing in environment variables.";
                exn_is_Exception := true |}
      else Imported config
  | Exited printed code => Exited printed code
  | ImportRaised e => ImportRaised e
  end.

Section Process.
Context {PF : PyFloat}.
Variable json_loads : string -> PyExn + Json.
Variable json_dumps : Json -> string.
Variable py_format : Json -> string.
Variable float_plus_one : float -> float.
Variable float_is_zero : float -> bool.

(** One call of the handler in a process started in the environment
    [getenv]: the handler exists once the module has been imported, and
    then runs with the globals [GAMMA_API_KEY] and [GAMMA_API_BASE_URL] the
    import left. *)
Definition gamma_in_process (getenv : string -> option string) (w : GammaWorld)
    (response_text : string) : ImportResult ((PyExn + unit) * list GammaEffect) :=
  match presentation_workflow_imports getenv with
  | Imported config =>
      Imported (run_gamma (API_KEY config) (API_BASE_URL config) json_loads json_dumps
                  py_format float_plus_one float_is_zero w response_text)
  | Exited printed code => Exited printed code
  | ImportRaised e => ImportRaised e
  end.

(** The call returns normally, having yielded the missing-key message and
    nothing else, and having made no HTTP request. *)
Definition reports_missing_key (getenv : string -> option string) (w : GammaWorld)
    (response_text : string) : Prop :=
  exists effects,
    gamma_in_process getenv w response_text = Imported (inr tt, effects)
    /\ gamma_yields effects = ["Error: GAMMA_API_KEY not found in environment"]
    /\ filter is_http effects = [].

End Process.

(* ================================================================== *)
(** * The function middleware and the search tool
      (src/gamma/presentation_workflow.py, src/gamma/tools/search.py) *)
(* ================================================================== *)

Section Tools.
Context {PF : PyFloat}.

(** A [str] is kept as its UTF-8 text.  A byte [10xxxxxx] continues the
    character begun before it; every other byte begins a character. *)
Definition is_continuation (c : ascii) : bool :=
  match c with
  | Ascii _ _ _ _ _ _ b6 b7 => b7 && negb b6
  end.

(** [len(s)]: the number of characters. *)
Fixpoint py_len (s : string) : nat :=
  match s with
  | EmptyString => O
  | String c s' => if is_continuation c then py_len s' else S (py_len s')
  end.

(** [s[:n]]: the first [n] characters, each with its continuation bytes. *)
Fixpoint str_take (n : nat) (s : string) : string :=
  match s with
  | EmptyString => EmptyString
  | String c s' =>
      if is_continuation c then String c (str_take n s')
      else match n with
           | O => EmptyString
           | S n' => String c (str_take n' s')
           end
  end.

(** [str(context.result)[:100].replace('\n', ' ')]. *)
Definition result_preview (result_text : string) : string :=
  replace_char (ascii_of_nat 10) " " (str_take 100 result_text).

(** [logging_function_middleware]: [next] runs the function and leaves
    [str(context.result)]. *)
Definition logging_function_middleware (function_name : string) (next : G string)
    : G unit :=
  g_bind (g_do (LogInfo ("FUNCTION - " ++ dquote ++ function_name ++ dquote
                           ++ " - Invoked")))
    (fun _ =>
       g_bind next
         (fun result_text =>
            g_do (LogInfo ("FUNCTION - " ++ dquote ++ function_name ++ dquote
                             ++ " - Result: " ++ result_preview result_text)))).

(** [d[key] = value] on a [dict] kept in insertion order. *)
Fixpoint dict_set (d : list (string * Json)) (key : string) (value : Json)
    : list (string * Json) :=
  match d with
  | [] => [(key, value)]
  | (k, x) :: d' =>
      if String.eqb k key then (k, value) :: d' else (k, x) :: dict_set d' key value
  end.

(** The module global [tavily_client] ([None] or a client) and the answer
    of its [search] to the query at a position of the list: a response, or
    the exception it raised and [except Exception] caught.  The log lines
    of the tool are left out: the model keeps the value it returns. *)
Variable tavily_client : option (nat -> string -> PyExn + Json).
Variable json_dumps : Json -> string.          (* [json.dumps(x, indent=2)] *)

(** The dict [_search_single_query] returns. *)
Record SearchResult : Type := {
  sr_query : string;
  sr_results : Json;
  sr_error : option string
}.

Definition _search_single_query (position : nat) (query : string) : SearchResult :=
  match tavily_client with
  | None =>
      {| sr_query := query;
         sr_results := JList [];
         sr_error := Some "Tavily search is not available (API key not configured)" |}
  | Some search =>
      let failed (message : string) :=
        {| sr_query := query;
           sr_results := JList [];
           sr_error := Some ("Error searching for '" ++ query ++ "': " ++ message) |} in
      match search position query with
      | inl e => failed (exn_message e)
      | inr (JDict response) =>
          {| sr_query := query;
             sr_results := dict_lookup response "results" (JList []);
             sr_error := None |}
      | inr response =>
          failed ("'" ++ type_name response ++ "' object has no attribute 'get'")
      end
  end.

(** [asyncio.gather] returns the results in the order of the tasks. *)
Fixpoint gather_searches (position : nat) (queries : list string) : list SearchResult :=
  match queries with
  | [] => []
  | query :: queries' =>
      _search_single_query position query :: gather_searches (S position) queries'
  end.

(** [if result["error"]:] *)
Definition has_error (result : SearchResult) : bool :=
  match sr_error result with
  | Some message => negb (String.eqb message EmptyString)
  | None => false
  end.

Definition error_text (result : SearchResult) : string :=
  match sr_error result with
  | Some message => message
  | None => EmptyString
  end.

(** The loop that fills [aggregated] and [errors]. *)
Definition aggregate_searches (search_results : list SearchResult)
    : list (string * Json) * list (string * Json) :=
  fold_left
    (fun '(aggregated, errors) result =>
       let query := sr_query result in
       if has_error result
       then (dict_set aggregated query (JList []),
             dict_set errors query (JStr (error_text result)))
       else (dict_set aggregated query (sr_results result), errors))
    search_results ([], []).

(** The dict [search_web] serialises. *)
Definition search_web_output (queries : list string) : Json :=
  match queries with
  | [] => JDict [("error", JStr "No queries provided")]
  | _ :: _ =>
      let search_results := gather_searches 0 queries in
      let '(aggregated, errors) := aggregate_searches search_results in
      let output := [("results", JDict aggregated)] in
      let output := match errors with
                    | [] => output
                    | _ :: _ => dict_set output "errors" (JDict errors)
                    end in
      JDict output
  end.

Definition search_web (queries : list string) : string :=
  json_dumps (search_web_output queries).

End Tools.

(* ================================================================== *)
(** * Notions the statements use *)
(* ================================================================== *)

(** Reading back a run of decimal digits. *)
Definition digits_value (s : string) : option Z :=
  option_map Z.of_uint (NilEmpty.uint_of_string s).

Definition worker_names (n : Z) : list string := map worker_name (range n).

(** The identifiers of the executors the builder function creates, in the
    order it creates them. *)
Definition executor_ids (num_workers : Z) : list string :=
  ("checkpoint" :: "splitter" :: worker_names num_workers ++ ["aggregator"])%list.

(** [s.split("\n")]: the lines of a text. *)
Fixpoint lines_of (s : string) : list string :=
  match s with
  | EmptyString => [EmptyString]
  | String c s' =>
      if Ascii.eqb c (ascii_of_nat 10) then EmptyString :: lines_of s'
      else match lines_of s' with
           | l :: ls => String c l :: ls
           | [] => [String c EmptyString]
           end
  end.

(** ["\n" in s]. *)
Fixpoint has_newline (s : string) : bool :=
  match s with
  | EmptyString => false
  | String c s' => Ascii.eqb c (ascii_of_nat 10) || has_newline s'
  end.

(** The escape sequence [ESC [ code m] of a terminal. *)
Definition ansi (code : string) : string := String (ascii_of_nat 27) ("[" ++ code ++ "m").

Section Statements.
Context {PF : PyFloat}.

(** The result a worker invocation computes from its input and oracle, and
    the four context calls it makes. *)
Definition worker_factor (o : Oracle) : Z := randint_of (o_rand o 0) 1 5.
Definition worker_noise (o : Oracle) : Z := randint_of (o_rand o 1) 0 10.
Definition worker_elapsed (o : Oracle) : float := float_sub (o_clock o 1) (o_clock o 0).

Definition worker_result (self_id : string) (n : Z) (o : Oracle) : WorkerResult :=
  {| worker_id := self_id;
     input_value := n;
     output_value := n * worker_factor o + worker_noise o;
     processing_time := float_round3 (worker_elapsed o) |}.

Definition worker_calls (self_id : string) (n : Z) (o : Oracle) : list Action :=
  [ AddEvent (worker_started_event self_id n);
    Sleep (o_uniform o 0);
    AddEvent (worker_completed_event self_id n
                (n * worker_factor o + worker_noise o) (worker_elapsed o));
    SendMessage (VResult (worker_result self_id n o)) ].

Definition total_output_of (results : list WorkerResult) : Z :=
  fold_right (fun r acc => output_value r + acc) 0 results.

Definition workers_of (num_workers : Z) : list Node :=
  map (fun i => WorkerExecutor (worker_name i)) (range num_workers).

Definition demo_graph (num_workers : Z) : Graph :=
  {| g_nodes := (CheckpointExecutor "checkpoint" :: SplitterExecutor "splitter"
                   :: workers_of num_workers ++ [AggregatorExecutor "aggregator"])%list;
     g_groups := [ SingleEdge "checkpoint" "splitter" (Some at_most_ten);
                   FanOutEdges "splitter" (worker_names num_workers);
                   FanInEdges (worker_names num_workers) "aggregator" ];
     g_start := "checkpoint" |}.

(** The events of one node, as they appear in the event stream. *)
Definition events_of_node (id : string) (s : Exec) : list Event :=
  map snd (filter (fun e => String.eqb (fst e) id) (event_stream s)).

(** The invocations of workers in the invocation log. *)
Definition worker_invocations (num_workers : Z) (s : Exec) : list (string * Value) :=
  filter (fun p => mem (fst p) (worker_names num_workers)) (x_invoked s).

(** The statement of the fan-out width property for [N] workers. *)
Definition fan_out_width_holds (N v : Z) (env : nat -> Oracle) (schedule : list nat)
    : Prop :=
  exists g,
    create_conditional_fan_out_workflow N = inr g
    /\ let s := run g env (VInt v) schedule in
       List.length (worker_invocations N s) = Z.to_nat N
       /\ (forall w, In w (worker_names N) -> inputs_of_node w s = [VInt v])
       /\ exists results,
            inputs_of_node "aggregator" s = [VList (map VResult results)]
            /\ List.length results = Z.to_nat N.

End Statements.

(** ** A world to run the model in *)

(** Floats as a count of thousandths, printed with three decimals. *)
Definition fixed3 (x : Z) : string :=
  str (x / 1000) ++ "." ++ zero_pad 3 (str (x mod 1000)).

Definition MilliFloat : PyFloat :=
  {| float := Z;
     float_sub := Z.sub;
     float_round3 := fun x => x;
     float_repr := fixed3;
     float_fmt3f := fixed3;
     float_0_1 := 100;
     float_0_5 := 500 |}.

Definition sample_env : nat -> @Oracle MilliFloat :=
  fun k => @Build_Oracle MilliFloat
             (fun i => Z.of_nat (k + 3 * i))
             (fun _ => 250)
             (fun i => Z.of_nat (1000 * k + 300 * i)).

(** The five results of Scenario A (input 5, five workers) in the sample
    world. *)
Definition scenario_a_results : list (@WorkerResult MilliFloat) :=
  map (fun i => worker_result (worker_name (Z.of_nat i)) 5 (sample_env (2 + i)))
      (seq 0 5).

(** A node that yields twice, and the graph made of it alone. *)
Definition twice_node : @Node MilliFloat :=
  {| n_id := "twice";
     n_handler := fun _ _ => [YieldOutput "first"; YieldOutput "second"] |}.

Definition twice_graph : @Graph MilliFloat :=
  {| g_nodes := [twice_node]; g_groups := []; g_start := "twice" |}.

(** [json.loads] on the two texts the examples use. *)
Definition sample_json_loads (s : string) : PyExn + @Json MilliFloat :=
  if String.eqb s "[]" then inr (JList [])
  else if String.eqb s "{}" then inr (JDict [])
  else inl {| exn_class := "JSONDecodeError";
              exn_message := "Expecting value: line 1 column 1 (char 0)";
              exn_is_Exception := true |}.

Definition sample_format (x : @Json MilliFloat) : string :=
  match x with
  | JStr s => s
  | JInt z => str z
  | _ => "?"
  end.

Definition unreachable : PyExn :=
  {| exn_class := "ConnectionError"; exn_message := "unreachable";
     exn_is_Exception := true |}.

(** What Ctrl-C raises. *)
Definition interrupted : PyExn :=
  {| exn_class := "KeyboardInterrupt"; exn_message := EmptyString;
     exn_is_Exception := false |}.

(** A world where every path is writable and the network is down. *)
Definition sample_world : @GammaWorld MilliFloat :=
  {| open_error := fun _ => None;
     post_answer := inl unreachable;
     poll_answers := [];
     poll_elapsed := fun turn => 5 * Z.of_nat turn;
     download_answer := inl unreachable |}.

(** The handler of the Gamma executor in a chosen world. *)
Definition sample_run_in (w : @GammaWorld MilliFloat) (key : option string)
    (response_text : string) :=
  run_gamma key "https://public-api.gamma.app/v0.2" sample_json_loads
    (fun _ => "{}") sample_format (fun x => x + 1000) (fun x => x =? 0) w response_text.

(** An environment with every variable set, and the same without the
    Gamma key. *)
Definition sample_getenv (name : string) : option string := Some ("value of " ++ name).

Definition getenv_without_key (name : string) : option string :=
  if String.eqb name "GAMMA_API_KEY" then None else sample_getenv name.

Definition sample_in_process (getenv : string -> option string)
    (w : @GammaWorld MilliFloat) (response_text : string) :=
  gamma_in_process sample_json_loads (fun _ => "{}") sample_format (fun x => x + 1000)
    (fun x => x =? 0) getenv w response_text.

(** A world whose API refuses the request. *)
Definition refusing_world : @GammaWorld MilliFloat :=
  {| open_error := fun _ => None;
     post_answer := inr {| status_code := 500; text := "server error";
                           json_body := inl unreachable |};
     poll_answers := [];
     poll_elapsed := fun turn => 5 * Z.of_nat turn;
     download_answer := inl unreachable |}.

(** A world where the POST is interrupted from the keyboard. *)
Definition interrupted_world : @GammaWorld MilliFloat :=
  {| open_error := fun _ => None;
     post_answer := inl interrupted;
     poll_answers := [];
     poll_elapsed := fun turn => 5 * Z.of_nat turn;
     download_answer := inl unreachable |}.

(** Answers to the polling: not ready yet, not reachable, ready. *)
Definition still_pending : @HttpResponse MilliFloat :=
  {| status_code := 200; text := "pending";
     json_body := inr (JDict [("status", JStr "pending")]) |}.

Definition unavailable : @HttpResponse MilliFloat :=
  {| status_code := 503; text := "unavailable"; json_body := inl unreachable |}.

Definition generation_data : list (string * @Json MilliFloat) :=
  [("status", JStr "completed"); ("exportUrl", JStr "https://gamma.app/g1.pdf")].

Definition generation_done : @HttpResponse MilliFloat :=
  {| status_code := 200; text := "completed"; json_body := inr (JDict generation_data) |}.

Definition pdf_response : @HttpResponse MilliFloat :=
  {| status_code := 200; text := "%PDF-1.7"; json_body := inl unreachable |}.

Definition accepting_response : @HttpResponse MilliFloat :=
  {| status_code := 200; text := "accepted";
     json_body := inr (JDict [("id", JStr "g1")]) |}.

(** A world where the whole exchange succeeds at the second poll. *)
Definition obliging_world : @GammaWorld MilliFloat :=
  {| open_error := fun _ => None;
     post_answer := inr accepting_response;
     poll_answers := [inr still_pending; inr generation_done];
     poll_elapsed := fun turn => 5 * Z.of_nat turn;
     download_answer := inr pdf_response |}.

(** A search client that answers the first query and times out on the
    others. *)
Definition sample_search (position : nat) (query : string)
    : PyExn + @Json MilliFloat :=
  if Nat.eqb position 0
  then inr (JDict [("results", JList [JStr ("about " ++ query)])])
  else inl {| exn_class := "TimeoutError"; exn_message := "timed out";
              exn_is_Exception := true |}.

(* ================================================================== *)
(** * The handlers *)
(* ================================================================== *)

Section HandlerFacts.
Context {PF : PyFloat}.

Lemma randint_of_range (raw a b : Z) :
  a <= b -> a <= randint_of raw a b <= b.
Proof.
  intros Hab. unfold randint_of.
  pose proof (Z.mod_pos_bound raw (b - a + 1)). lia.
Qed.

(** C9: the checkpoint handler makes exactly two context calls on an [int]:
    one info event, then one message carrying the received number
    unchanged; it yields no output. *)
Theorem checkpoint_pass_through (id : string) (number : Z) (o : Oracle) :
  let calls := n_handler (CheckpointExecutor id) (VInt number) o in
  sends_in calls = [VInt number]
  /\ (exists message, events_in calls = [CustomInfoEvent message])
  /\ yields_in calls = []
  /\ List.length calls = 2%nat.
Proof.
  cbv zeta. cbn.
  repeat split; eauto.
Qed.

Lemma worker_handler_calls (self_id : string) (n : Z) (o : Oracle) :
  n_handler (WorkerExecutor self_id) (VInt n) o = worker_calls self_id n o.
Proof. reflexivity. Qed.

(** C8: on an input [n >= 0] a worker sends one [WorkerResult] carrying its
    own id, the input [n] and the output [n * f + r] with a factor [f] in
    1..5 and a noise [r] in 0..10, so that [n <= output <= 5 * n + 10]. *)
Theorem worker_result_bounds (self_id : string) (n : Z) (o : Oracle) :
  0 <= n ->
  exists (f r : Z) (result : WorkerResult),
    1 <= f <= 5 /\ 0 <= r <= 10
    /\ sends_in (n_handler (WorkerExecutor self_id) (VInt n) o) = [VResult result]
    /\ worker_id result = self_id
    /\ input_value result = n
    /\ output_value result = n * f + r
    /\ n <= output_value result <= 5 * n + 10.
Proof.
  intros Hn.
  pose proof (randint_of_range (o_rand o 0) 1 5 ltac:(lia)) as Hf.
  pose proof (randint_of_range (o_rand o 1) 0 10 ltac:(lia)) as Hr.
  exists (worker_factor o), (worker_noise o), (worker_result self_id n o).
  fold (worker_factor o) in Hf. fold (worker_noise o) in Hr.
  rewrite worker_handler_calls.
  cbn [worker_calls sends_in flat_map List.app worker_result
       worker_id input_value output_value].
  generalize dependent (worker_factor o).
  generalize dependent (worker_noise o).
  intros r Hr f Hf.
  assert (0 <= n * (f - 1)) by (apply Z.mul_nonneg_nonneg; lia).
  assert (0 <= n * (5 - f)) by (apply Z.mul_nonneg_nonneg; lia).
  repeat split; try reflexivity; lia.
Qed.

Lemma aggregate_loop_spec (results : list WorkerResult) :
  forall (output_lines : list string) (total : Z),
    aggregate_loop results (output_lines, total)
    = ((output_lines ++ map result_line results)%list, total + total_output_of results).
Proof.
  induction results as [|r results IH]; intros output_lines total.
  - cbn. rewrite app_nil_r. f_equal. lia.
  - unfold aggregate_loop in *. cbn [fold_left map total_output_of fold_right].
    rewrite IH. rewrite <- app_assoc. cbn [List.app]. f_equal. unfold total_output_of. lia.
Qed.

Lemma aggregate_final_output_spec (results : list WorkerResult) :
  aggregate_final_output results
  = join newline (summary_header ++ map result_line results
                    ++ summary_footer (total_output_of results))%list.
Proof.
  unfold aggregate_final_output. rewrite aggregate_loop_spec.
  rewrite Z.add_0_l, <- app_assoc. reflexivity.
Qed.

Lemma append_assoc (a b c : string) : (a ++ b) ++ c = a ++ (b ++ c).
Proof. induction a as [|x a IH]; [reflexivity|]. cbn. now rewrite IH. Qed.

Lemma append_empty (a : string) : a ++ EmptyString = a.
Proof. induction a as [|x a IH]; [reflexivity|]. cbn. now rewrite IH. Qed.

Lemma has_newline_append (a b : string) :
  has_newline (a ++ b) = has_newline a || has_newline b.
Proof.
  induction a as [|x a IH]; [reflexivity|]. cbn. rewrite IH. now rewrite orb_assoc.
Qed.

Lemma lines_of_append (a s : string) :
  has_newline a = false ->
  lines_of (a ++ s)
  = match lines_of s with
    | l :: ls => (a ++ l) :: ls
    | [] => [a]
    end.
Proof.
  induction a as [|x a IH]; intros Ha.
  - cbn. destruct (lines_of s) eqn:E; [|reflexivity].
    destruct s as [|c s]; cbn in E; [discriminate|].
    destruct (Ascii.eqb c _); [discriminate|]. destruct (lines_of s); discriminate.
  - cbn [has_newline] in Ha. apply orb_false_iff in Ha as [Hx Ha].
    cbn [append lines_of]. rewrite Hx, (IH Ha).
    destruct (lines_of s); reflexivity.
Qed.

Lemma lines_of_single (a : string) : has_newline a = false -> lines_of a = [a].
Proof.
  induction a as [|x a IH]; intros Ha; [reflexivity|].
  cbn [has_newline] in Ha. apply orb_false_iff in Ha as [Hx Ha].
  cbn [lines_of]. rewrite Hx, (IH Ha). reflexivity.
Qed.

(** Splitting what was joined gives the list back when no element holds a
    newline. *)
Lemma lines_of_concat (l : list string) :
  l <> [] ->
  Forall (fun a => has_newline a = false) l ->
  lines_of (String.concat (String (ascii_of_nat 10) EmptyString) l) = l.
Proof.
  induction l as [|a l IH]; intros Hne Hall; [congruence|].
  inversion Hall as [|? ? Ha Hl]; subst.
  destruct l as [|b l].
  - cbn [concat]. now apply lines_of_single.
  - specialize (IH ltac:(discriminate) Hl).
    remember (b :: l) as rest eqn:Hrest.
    assert (E : String.concat (String (ascii_of_nat 10) EmptyString) (a :: rest)
                = a ++ String (ascii_of_nat 10)
                         (String.concat (String (ascii_of_nat 10) EmptyString) rest)).
    { rewrite Hrest. reflexivity. }
    rewrite E, lines_of_append by exact Ha.
    cbn [lines_of]. rewrite Ascii.eqb_refl, IH, append_empty. reflexivity.
Qed.

Lemma has_newline_uint (u : uint) : has_newline (NilEmpty.string_of_uint u) = false.
Proof. induction u; cbn; auto. Qed.

Lemma has_newline_decimal (z : Z) :
  has_newline (NilZero.string_of_int (Z.to_int z)) = false.
Proof.
  unfold NilZero.string_of_int, NilZero.string_of_uint.
  destruct (Z.to_int z) as [u|u].
  - destruct u; try reflexivity; cbn [NilEmpty.string_of_uint has_newline];
      rewrite has_newline_uint; reflexivity.
  - cbn [has_newline]. destruct u; try reflexivity;
      cbn [NilEmpty.string_of_uint has_newline]; rewrite has_newline_uint; reflexivity.
Qed.

Lemma total_output_of_sum (results : list WorkerResult) :
  total_output_of results = fold_right Z.add 0 (map output_value results).
Proof.
  induction results as [|r l IH]; [reflexivity|].
  cbn. unfold total_output_of in IH. now rewrite <- IH.
Qed.

(** C4: for a non-empty list of results the aggregator yields one output,
    the following lines joined by newlines: the rule of 80 [=], the title
    and the rule again; then one line per element of the list, in list
    order, showing the worker id, the input value, the output value and
    the processing time of that element; then the rule of 80 [-], the total
    line reporting the sum of the [output_value] fields, and the closing
    rule.  When no worker id and no printed time holds a newline, these are
    exactly the lines of the output, [len(results) + 6] of them. *)
Theorem aggregate_output_lines (results : list WorkerResult) (o : Oracle) :
  results <> [] ->
  let dec z := NilZero.string_of_int (Z.to_int z) in
  let rule c := ansi "1" ++ c ++ ansi "0" in
  let line r :=
    "  " ++ ansi "93" ++ worker_id r ++ ansi "0"
      ++ ": input=" ++ ansi "94" ++ dec (input_value r) ++ ansi "0"
      ++ " → output=" ++ ansi "92" ++ dec (output_value r) ++ ansi "0"
      ++ " (" ++ ansi "95" ++ float_repr (processing_time r) ++ "s" ++ ansi "0" ++ ")" in
  let header :=
    [ rule "================================================================================";
      ansi "1" ++ ansi "92" ++ "📊 WORKFLOW RESULTS SUMMARY" ++ ansi "0";
      rule "================================================================================" ] in
  let footer :=
    [ rule "--------------------------------------------------------------------------------";
      "  Total combined output: " ++ ansi "1" ++ ansi "92"
        ++ dec (fold_right Z.add 0 (map output_value results)) ++ ansi "0";
      rule "================================================================================" ] in
  let expected := (header ++ map line results ++ footer)%list in
  exists out,
    yields_in (n_handler (AggregatorExecutor "aggregator")
                 (VList (map VResult results)) o) = [out]
    /\ out = String.concat (String (ascii_of_nat 10) EmptyString) expected
    /\ ((forall r, In r results ->
           has_newline (worker_id r) = false
           /\ has_newline (float_repr (processing_time r)) = false) ->
        lines_of out = expected
        /\ List.length (lines_of out) = (List.length results + 6)%nat).
Proof.
  intros _. cbv zeta.
  set (dec := fun z => NilZero.string_of_int (Z.to_int z)).
  set (line := fun r : WorkerResult => _).
  set (header := [_; _; _]).
  set (footer := [_; _; _]).
  assert (Hres : results_of (map VResult results) = Some results).
  { induction results as [|r results IH]; cbn; [reflexivity|].
    rewrite IH. reflexivity. }
  assert (Htext : aggregate_final_output results
                  = String.concat (String (ascii_of_nat 10) EmptyString)
                      (header ++ map line results ++ footer)%list).
  { rewrite aggregate_final_output_spec. unfold join, newline. f_equal.
    unfold summary_header, summary_footer, total_line, header, footer.
    rewrite total_output_of_sum.
    cbn [List.app]. f_equal. f_equal. f_equal. f_equal.
    apply map_ext. intros r. unfold line, dec, result_line, Colors_colored, str.
    repeat (rewrite !append_assoc; cbn [append]).
    reflexivity. }
  exists (aggregate_final_output results). split; [|split].
  - cbn [n_handler AggregatorExecutor]. rewrite Hres. reflexivity.
  - exact Htext.
  - intros Hclean. rewrite Htext.
    assert (Hlines : lines_of (String.concat (String (ascii_of_nat 10) EmptyString)
                                 (header ++ map line results ++ footer)%list)
                     = (header ++ map line results ++ footer)%list).
    { apply lines_of_concat; [discriminate|].
      apply Forall_app. split; [repeat constructor|].
      apply Forall_app. split.
      - apply Forall_forall. intros l Hl. apply in_map_iff in Hl as (r & <- & Hr).
        destruct (Hclean r Hr) as [Hid Htime]. unfold line, dec.
        rewrite !has_newline_append, Hid, Htime, !has_newline_decimal. reflexivity.
      - unfold footer, dec. repeat constructor.
        rewrite !has_newline_append, has_newline_decimal. reflexivity. }
    split; [exact Hlines|].
    rewrite Hlines, !length_app, length_map. unfold header, footer.
    cbn [List.length]. lia.
Qed.

End HandlerFacts.

(* ================================================================== *)
(** * Node identifiers *)
(* ================================================================== *)

Lemma digits_value_leading_zero (s : string) :
  digits_value (String "0" s) = digits_value s.
Proof.
  unfold digits_value. cbn.
  destruct (NilEmpty.uint_of_string s); reflexivity.
Qed.

Lemma digits_value_zero_pad (w : nat) (s : string) :
  digits_value (zero_pad w s) = digits_value s.
Proof.
  unfold zero_pad. induction (w - String.length s)%nat as [|k IH]; [reflexivity|].
  cbn [str_mul append]. now rewrite digits_value_leading_zero.
Qed.

Lemma format_02d_value (i : Z) :
  0 <= i -> digits_value (format_02d i) = Some i.
Proof.
  intros Hi. unfold format_02d. destruct i as [|p|p]; [reflexivity| |lia].
  cbn [Z.to_int]. rewrite digits_value_zero_pad.
  unfold digits_value, NilZero.string_of_uint.
  destruct (Pos.to_uint p) eqn:Hp;
    [exfalso; revert Hp; apply DecimalPos.Unsigned.to_uint_nonnil|..];
    rewrite <- Hp, NilEmpty.usu; cbn [option_map]; unfold Z.of_uint;
    now rewrite DecimalPos.Unsigned.of_to.
Qed.

Lemma str_mul_length (k : nat) : String.length (str_mul "0" k) = k.
Proof. induction k as [|k IH]; cbn; [reflexivity|now rewrite IH]. Qed.

Lemma append_length (s1 s2 : string) :
  String.length (s1 ++ s2) = (String.length s1 + String.length s2)%nat.
Proof. induction s1 as [|c s1 IH]; cbn; [reflexivity|now rewrite IH]. Qed.

Lemma format_02d_width (i : Z) : 0 <= i -> (2 <= String.length (format_02d i))%nat.
Proof.
  intros Hi. unfold format_02d.
  destruct (Z.to_int i) as [u|u] eqn:E; [|destruct i; try discriminate; lia].
  unfold zero_pad. rewrite append_length, str_mul_length. lia.
Qed.

Lemma worker_name_inj (i j : Z) :
  0 <= i -> 0 <= j -> worker_name i = worker_name j -> i = j.
Proof.
  intros Hi Hj H. unfold worker_name in H. cbn in H.
  injection H as H.
  apply (f_equal digits_value) in H.
  rewrite !format_02d_value in H by assumption. congruence.
Qed.

Lemma mem_In (x : string) (l : list string) : mem x l = true <-> In x l.
Proof.
  unfold mem. rewrite existsb_exists. split.
  - intros (y & Hy & E). apply String.eqb_eq in E. now subst.
  - intros H. exists x. split; [assumption|apply String.eqb_refl].
Qed.

Lemma mem_false (x : string) (l : list string) : mem x l = false <-> ~ In x l.
Proof.
  rewrite <- mem_In. destruct (mem x l); split; congruence.
Qed.

Lemma range_In (n i : Z) : In i (range n) <-> 0 <= i < n.
Proof.
  unfold range. rewrite in_map_iff. split.
  - intros (k & <- & Hk). apply in_seq in Hk. lia.
  - intros H. exists (Z.to_nat i). split; [lia|]. apply in_seq. lia.
Qed.

Lemma range_NoDup (n : Z) : NoDup (range n).
Proof.
  unfold range. apply Injective_map_NoDup; [|apply seq_NoDup].
  intros a b. lia.
Qed.

Lemma range_length (n : Z) : List.length (range n) = Z.to_nat n.
Proof. unfold range. now rewrite length_map, length_seq. Qed.

Lemma worker_names_NoDup (n : Z) : NoDup (worker_names n).
Proof.
  unfold worker_names.
  assert (H : forall l, NoDup l -> (forall i, In i l -> 0 <= i) -> NoDup (map worker_name l)).
  { induction 1 as [|i l Hi Hl IH]; intros Hpos; cbn; constructor.
    - rewrite in_map_iff. intros (j & E & Hj).
      apply worker_name_inj in E; [subst; contradiction|..]; apply Hpos; cbn; auto.
    - apply IH. intros j Hj. apply Hpos. now right. }
  apply H; [apply range_NoDup|]. intros i Hi. apply range_In in Hi. lia.
Qed.

Lemma worker_names_fixed (n : Z) (id : string) :
  In id (worker_names n) -> exists rest, id = String "w" rest.
Proof.
  unfold worker_names. rewrite in_map_iff. intros (i & <- & _).
  unfold worker_name. cbn. eauto.
Qed.

Lemma worker_names_not_checkpoint (n : Z) : ~ In "checkpoint" (worker_names n).
Proof. intros H. apply worker_names_fixed in H as (rest & H). discriminate. Qed.

Lemma worker_names_not_splitter (n : Z) : ~ In "splitter" (worker_names n).
Proof. intros H. apply worker_names_fixed in H as (rest & H). discriminate. Qed.

Lemma worker_names_not_aggregator (n : Z) : ~ In "aggregator" (worker_names n).
Proof. intros H. apply worker_names_fixed in H as (rest & H). discriminate. Qed.

Lemma executor_ids_NoDup (n : Z) : NoDup (executor_ids n).
Proof.
  unfold executor_ids.
  pose proof (worker_names_not_checkpoint n).
  pose proof (worker_names_not_splitter n).
  pose proof (worker_names_not_aggregator n).
  constructor.
  - cbn. rewrite in_app_iff. cbn. intros [E|[?|[E|[]]]]; try discriminate; auto.
  - constructor.
    + rewrite in_app_iff. cbn. intros [?|[E|[]]]; try discriminate; auto.
    + apply NoDup_app; [apply worker_names_NoDup|repeat constructor; cbn; tauto|].
      intros id Hid [<-|[]]. auto.
Qed.

(* ================================================================== *)
(** * The graph of the conditional fan-out workflow *)
(* ================================================================== *)

Section DemoGraph.
Context {PF : PyFloat}.

Lemma workers_of_ids (n : Z) : map n_id (workers_of n) = worker_names n.
Proof. unfold workers_of, worker_names. rewrite map_map. reflexivity. Qed.

Lemma register_fresh (n : Node) (nodes : list Node) :
  ~ In (n_id n) (map n_id nodes) -> register n nodes = (nodes ++ [n])%list.
Proof. intros H. unfold register. apply mem_false in H. now rewrite H. Qed.

Lemma register_present (n : Node) (nodes : list Node) :
  In (n_id n) (map n_id nodes) -> register n nodes = nodes.
Proof. intros H. unfold register. apply mem_In in H. now rewrite H. Qed.

Lemma register_all_fresh (ws : list Node) :
  forall base,
    NoDup (map n_id ws) ->
    (forall w, In w ws -> ~ In (n_id w) (map n_id base)) ->
    fold_left (fun ns n => register n ns) ws base = (base ++ ws)%list.
Proof.
  induction ws as [|w ws IH]; intros base Hnd Hfresh; cbn [fold_left].
  - now rewrite app_nil_r.
  - cbn in Hnd. inversion Hnd as [|? ? Hw Hws]; subst.
    rewrite register_fresh by (apply Hfresh; now left).
    rewrite IH; [now rewrite <- app_assoc|assumption|].
    intros w' Hw'. rewrite map_app, in_app_iff. cbn. intros [H|[H|[]]].
    + revert H. apply Hfresh. now right.
    + apply Hw. rewrite H. now apply in_map.
Qed.

Lemma register_all_present (ws : list Node) :
  forall base,
    (forall w, In w ws -> In (n_id w) (map n_id base)) ->
    fold_left (fun ns n => register n ns) ws base = base.
Proof.
  induction ws as [|w ws IH]; intros base Hin; cbn [fold_left]; [reflexivity|].
  rewrite register_present by (apply Hin; now left).
  apply IH. intros w' Hw'. apply Hin. now right.
Qed.

Lemma workers_of_fixed (n : Z) (w : Node) :
  In w (workers_of n) -> In (n_id w) (worker_names n).
Proof. intros H. rewrite <- workers_of_ids. now apply in_map. Qed.

Lemma forallb_mem_incl (l l' : list string) :
  incl l l' -> forallb (fun id => mem id l') l = true.
Proof.
  intros H. apply forallb_forall. intros x Hx. apply mem_In. now apply H.
Qed.

Lemma create_conditional_fan_out_workflow_graph (num_workers : Z) :
  create_conditional_fan_out_workflow num_workers = inr (demo_graph num_workers).
Proof.
  pose proof (worker_names_not_checkpoint num_workers) as Hc.
  pose proof (worker_names_not_splitter num_workers) as Hs.
  pose proof (worker_names_not_aggregator num_workers) as Ha.
  unfold create_conditional_fan_out_workflow.
  fold (workers_of num_workers).
  unfold add_fan_in_edges, add_fan_out_edges, add_edge, set_start_executor,
    WorkflowBuilder_new.
  cbn [wb_start wb_nodes wb_groups List.app].
  change (register (SplitterExecutor "splitter")
            (register (CheckpointExecutor "checkpoint")
               (register (CheckpointExecutor "checkpoint") [])))
    with [CheckpointExecutor "checkpoint"; SplitterExecutor "splitter"].
  change (register (SplitterExecutor "splitter")
            [CheckpointExecutor "checkpoint"; SplitterExecutor "splitter"])
    with [CheckpointExecutor "checkpoint"; SplitterExecutor "splitter"].
  rewrite (register_all_fresh (workers_of num_workers)
             [CheckpointExecutor "checkpoint"; SplitterExecutor "splitter"]).
  2:{ rewrite workers_of_ids. apply worker_names_NoDup. }
  2:{ intros w Hw. apply workers_of_fixed in Hw. cbn.
      intros [E|[E|[]]]; rewrite <- E in Hw; auto. }
  rewrite register_all_present.
  2:{ intros w Hw. rewrite map_app, in_app_iff. right. now apply in_map. }
  rewrite register_fresh.
  2:{ rewrite map_app, workers_of_ids, in_app_iff. cbn.
      intros [[E|[E|[]]]|H]; try discriminate. auto. }
  unfold build. cbn [wb_start wb_nodes wb_groups].
  rewrite workers_of_ids.
  rewrite forallb_mem_incl.
  2:{ rewrite !map_app, workers_of_ids. cbn.
      intros id Hid. cbn in Hid. rewrite !in_app_iff in *. cbn in *.
      rewrite ?in_app_iff in *. cbn in *. tauto. }
  cbn [List.app n_id CheckpointExecutor SplitterExecutor AggregatorExecutor].
  unfold ambiguous_fan_in.
  cbn [negb fan_in_targets flat_map List.app has_dup mem existsb orb
       reaches_from_outside].
  change (existsb (String.eqb "aggregator") (worker_names num_workers))
    with (mem "aggregator" (worker_names num_workers)).
  apply mem_false in Ha. rewrite Ha.
  cbn. unfold demo_graph. reflexivity.
Qed.

(** C6: for every [N >= 0] the builder function yields a graph whose nodes
    are "checkpoint", "splitter", the [N] workers "worker_00", "worker_01",
    ... (two digits at least) and "aggregator"; these [N + 3] identifiers
    are pairwise distinct. *)
Theorem node_ids_unique (num_workers : Z) :
  0 <= num_workers ->
  exists g,
    create_conditional_fan_out_workflow num_workers = inr g
    /\ map n_id (g_nodes g) = executor_ids num_workers
    /\ List.length (g_nodes g) = Z.to_nat (num_workers + 3)
    /\ NoDup (map n_id (g_nodes g))
    /\ (forall i j, 0 <= i < num_workers -> 0 <= j < num_workers ->
          worker_name i = worker_name j -> i = j)
    /\ (forall i, 0 <= i < num_workers ->
          worker_name i = "worker_" ++ format_02d i
          /\ (2 <= String.length (format_02d i))%nat
          /\ digits_value (format_02d i) = Some i).
Proof.
  intros HN. exists (demo_graph num_workers).
  assert (Hids : map n_id (g_nodes (demo_graph num_workers)) = executor_ids num_workers).
  { cbn. rewrite map_app, workers_of_ids. reflexivity. }
  split; [apply create_conditional_fan_out_workflow_graph|].
  split; [exact Hids|]. split; [|split; [|split]].
  - cbn. rewrite length_app. unfold workers_of.
    rewrite length_map, range_length. cbn. lia.
  - rewrite Hids. apply executor_ids_NoDup.
  - intros i j Hi Hj. apply worker_name_inj; lia.
  - intros i Hi. split; [reflexivity|].
    split; [apply format_02d_width|apply format_02d_value]; lia.
Qed.

End DemoGraph.

(* ================================================================== *)
(** * Scheduling steps *)
(* ================================================================== *)

Section EngineFacts.
Context {PF : PyFloat}.
Variable g : Graph.
Variable env : nat -> Oracle.

Lemma pick_task {A : Type} (l : list A) (choice : nat) :
  l <> [] ->
  exists l1 t l2, l = (l1 ++ t :: l2)%list
                  /\ Nat.modulo choice (List.length l) = List.length l1.
Proof.
  intros Hl.
  assert (Hlt : (Nat.modulo choice (List.length l) < List.length l)%nat).
  { apply Nat.mod_upper_bound. destruct l; [congruence|discriminate]. }
  destruct (nth_error l (Nat.modulo choice (List.length l))) as [t|] eqn:Ht.
  - apply nth_error_split in Ht as (l1 & l2 & -> & Hlen).
    exists l1, t, l2. split; [reflexivity|]. rewrite Hlen. reflexivity.
  - apply nth_error_None in Ht. lia.
Qed.

Lemma pool_after_middle (l1 l2 : list Task) (t : Task) (rest : list Action) :
  pool_after (l1 ++ t :: l2) (List.length l1) t rest
  = (l1 ++ match rest with
           | [] => []
           | _ :: _ => [{| t_inv := t_inv t; t_node := t_node t; t_todo := rest |}]
           end ++ l2)%list.
Proof.
  unfold pool_after.
  rewrite firstn_app, Nat.sub_diag, firstn_all, firstn_O, app_nil_r.
  replace (skipn (S (List.length l1)) (l1 ++ t :: l2)) with l2; [reflexivity|].
  induction l1 as [|x l1 IH]; [reflexivity|exact IH].
Qed.

(** The step that picks the task [t] between [l1] and [l2]. *)
Lemma step_at (choice : nat) (s : Exec) (l1 l2 : list Task) (t : Task)
    (a : Action) (rest : list Action) :
  x_status s = Running ->
  x_pool s = (l1 ++ t :: l2)%list ->
  Nat.modulo choice (List.length (l1 ++ t :: l2)) = List.length l1 ->
  t_todo t = a :: rest ->
  step g env choice s
  = perform g env t a
      {| x_pool := (l1 ++ match rest with
                          | [] => []
                          | _ :: _ => [{| t_inv := t_inv t; t_node := t_node t;
                                          t_todo := rest |}]
                          end ++ l2)%list;
         x_fanin := x_fanin s; x_hist := x_hist s;
         x_invoked := x_invoked s; x_status := Running |}.
Proof.
  intros Hst Hpool Hch Htodo. unfold step. rewrite Hst, Hpool, Hch.
  destruct (l1 ++ t :: l2)%list eqn:E; [destruct l1; discriminate|]. rewrite <- E.
  rewrite nth_error_app2, Nat.sub_diag by lia. cbn [nth_error].
  rewrite Htodo, pool_after_middle. reflexivity.
Qed.

Lemma step_terminal (choice : nat) (s : Exec) :
  x_status s <> Running -> step g env choice s = s.
Proof. unfold step. destruct (x_status s); congruence. Qed.

Lemma run_schedule_terminal (schedule : list nat) (s : Exec) :
  x_status s <> Running -> run_schedule g env schedule s = s.
Proof.
  induction schedule as [|c schedule IH]; intros H; cbn; [reflexivity|].
  rewrite step_terminal by assumption. now apply IH.
Qed.

Lemma run_schedule_app (s1 s2 : list nat) (s : Exec) :
  run_schedule g env (s1 ++ s2) s = run_schedule g env s2 (run_schedule g env s1 s).
Proof. revert s. induction s1 as [|c s1 IH]; intros s; cbn; auto. Qed.

Lemma step_idle (choice : nat) (s : Exec) :
  x_status s = Running -> x_pool s = [] ->
  step g env choice s = with_status Halted s.
Proof. intros Hst Hp. unfold step. now rewrite Hst, Hp. Qed.

(** Routing across one group that does not leave from [src]. *)
Lemma deliver_single_other (src src' tgt : string) c (v : Value) (s : Exec) :
  String.eqb src' src = false ->
  deliver g env src v s (SingleEdge src' tgt c) = s.
Proof. intros H. unfold deliver. rewrite H. now destruct (negb (is_running s)). Qed.

Lemma deliver_fan_out_other (src src' : string) tgts (v : Value) (s : Exec) :
  String.eqb src' src = false ->
  deliver g env src v s (FanOutEdges src' tgts) = s.
Proof. intros H. unfold deliver. rewrite H. now destruct (negb (is_running s)). Qed.

Lemma deliver_fan_in_other (src tgt : string) srcs (v : Value) (s : Exec) :
  mem src srcs = false ->
  deliver g env src v s (FanInEdges srcs tgt) = s.
Proof. intros H. unfold deliver. rewrite H. now destruct (negb (is_running s)). Qed.

End EngineFacts.

(* ================================================================== *)
(** * Executions of the conditional fan-out workflow *)
(* ================================================================== *)

Section DemoRun.
Context {PF : PyFloat}.
Variable num_workers : Z.
Variable env : nat -> Oracle.
Variable v : Z.

Let n : nat := Z.to_nat num_workers.
Let g : Graph := demo_graph num_workers.

(** Worker number [idx] (counted from 0): its name, the oracle of its
    invocation (the checkpoint is invocation 0, the splitter invocation 1),
    the calls it makes and the result it sends. *)
Definition wname (idx : nat) : string := worker_name (Z.of_nat idx).
Definition wcalls (idx : nat) : list Action := worker_calls (wname idx) v (env (2 + idx)).
Definition wres (idx : nat) : WorkerResult := worker_result (wname idx) v (env (2 + idx)).

Lemma worker_names_seq : worker_names num_workers = map wname (seq 0 n).
Proof. unfold worker_names, range. now rewrite map_map. Qed.

Lemma wname_inj (i j : nat) : wname i = wname j -> i = j.
Proof. intros H. apply worker_name_inj in H; lia. Qed.

Lemma wname_eqb (i j : nat) : String.eqb (wname i) (wname j) = Nat.eqb i j.
Proof.
  destruct (Nat.eqb_spec i j) as [->|Hne]; [apply String.eqb_refl|].
  apply String.eqb_neq. intros H. now apply wname_inj in H.
Qed.

Lemma wname_is_worker (idx : nat) : (idx < n)%nat -> In (wname idx) (worker_names num_workers).
Proof. intros H. rewrite worker_names_seq. apply in_map, in_seq. lia. Qed.

Lemma checkpoint_not_wname (idx : nat) : String.eqb "checkpoint" (wname idx) = false.
Proof. reflexivity. Qed.

Lemma splitter_not_wname (idx : nat) : String.eqb "splitter" (wname idx) = false.
Proof. reflexivity. Qed.

Lemma wname_not_aggregator (idx : nat) : String.eqb (wname idx) "aggregator" = false.
Proof. reflexivity. Qed.

Lemma find_worker (idx : nat) :
  forall a k, (a <= idx < a + k)%nat ->
    find (fun nd => String.eqb (n_id nd) (wname idx))
         (map (fun i => WorkerExecutor (wname i)) (seq a k))
    = Some (WorkerExecutor (wname idx)).
Proof.
  intros a k. revert a. induction k as [|k IH]; intros a H; [lia|].
  cbn [seq map find n_id WorkerExecutor]. rewrite wname_eqb.
  destruct (Nat.eqb_spec a idx) as [->|Hne]; [reflexivity|].
  apply IH. lia.
Qed.

Lemma find_app_first {A} (f : A -> bool) (l l' : list A) (x : A) :
  find f l = Some x -> find f (l ++ l') = Some x.
Proof.
  induction l as [|y l IH]; cbn; [discriminate|]. destruct (f y); auto.
Qed.

Lemma find_app_none {A} (f : A -> bool) (l l' : list A) :
  (forall y, In y l -> f y = false) -> find f (l ++ l') = find f l'.
Proof.
  induction l as [|y l IH]; cbn; intros H; [reflexivity|].
  rewrite (H y) by auto. apply IH. auto.
Qed.

Lemma workers_of_seq : workers_of num_workers = map (fun i => WorkerExecutor (wname i)) (seq 0 n).
Proof. unfold workers_of, range. now rewrite map_map. Qed.

Lemma find_node_worker (idx : nat) :
  (idx < n)%nat -> find_node g (wname idx) = Some (WorkerExecutor (wname idx)).
Proof.
  intros H. unfold find_node, g, demo_graph. cbn [g_nodes find n_id CheckpointExecutor
    SplitterExecutor].
  rewrite checkpoint_not_wname, splitter_not_wname.
  apply find_app_first. rewrite workers_of_seq. apply find_worker. lia.
Qed.

Lemma find_node_aggregator :
  find_node g "aggregator" = Some (AggregatorExecutor "aggregator").
Proof.
  unfold find_node, g, demo_graph. cbn [g_nodes find n_id CheckpointExecutor
    SplitterExecutor]. cbn [String.eqb Ascii.eqb Bool.eqb].
  rewrite find_app_none; [reflexivity|].
  intros nd. rewrite workers_of_seq, in_map_iff. intros (i & <- & _). reflexivity.
Qed.

Lemma mem_checkpoint_workers : mem "checkpoint" (worker_names num_workers) = false.
Proof. apply mem_false, worker_names_not_checkpoint. Qed.

Lemma mem_splitter_workers : mem "splitter" (worker_names num_workers) = false.
Proof. apply mem_false, worker_names_not_splitter. Qed.

Lemma mem_aggregator_workers : mem "aggregator" (worker_names num_workers) = false.
Proof. apply mem_false, worker_names_not_aggregator. Qed.

(** ** From the start to the fan-out *)

Definition checkpoint_calls : list Action :=
  n_handler (CheckpointExecutor "checkpoint") (VInt v) (env 0).

Definition splitter_calls : list Action :=
  n_handler (SplitterExecutor "splitter") (VInt v) (env 1).

Definition hist_checkpoint : list (nat * string * Action) :=
  map (fun a => (0%nat, "checkpoint", a)) checkpoint_calls.

Definition hist_splitter : list (nat * string * Action) :=
  map (fun a => (1%nat, "splitter", a)) splitter_calls.

Definition invoked_workers : list (string * Value) :=
  map (fun idx => (wname idx, VInt v)) (seq 0 n).

(** The state while the workers run: [running] lists the workers in flight
    with the number of calls each has made, [delivered] the workers that
    have sent their result, in arrival order. *)
Definition task3 (x : nat * nat) : Task :=
  {| t_inv := 2 + fst x; t_node := wname (fst x);
     t_todo := skipn (snd x) (wcalls (fst x)) |}.

Definition entry (j : nat) : string * Value := (wname j, VResult (wres j)).

Definition st3 (running : list (nat * nat)) (delivered : list nat)
    (h : list (nat * string * Action)) : Exec :=
  {| x_pool := map task3 running;
     x_fanin := [("aggregator", map entry delivered)];
     x_hist := h;
     x_invoked := ("checkpoint", VInt v) :: ("splitter", VInt v) :: invoked_workers;
     x_status := Running |}.

Lemma start_state :
  start g env (VInt v)
  = {| x_pool := [{| t_inv := 0; t_node := "checkpoint"; t_todo := checkpoint_calls |}];
       x_fanin := [("aggregator", [])];
       x_hist := [];
       x_invoked := [("checkpoint", VInt v)];
       x_status := Running |}.
Proof. reflexivity. Qed.

Lemma spawn_workers (k : nat) :
  forall a s,
    (a + k <= n)%nat ->
    List.length (x_invoked s) = (2 + a)%nat ->
    fold_left (fun s' tgt => spawn g env tgt (VInt v) s') (map wname (seq a k)) s
    = {| x_pool := (x_pool s ++ map task3 (map (fun i => (i, 0%nat)) (seq a k)))%list;
         x_fanin := x_fanin s;
         x_hist := x_hist s;
         x_invoked := (x_invoked s ++ map (fun idx => (wname idx, VInt v)) (seq a k))%list;
         x_status := x_status s |}.
Proof.
  induction k as [|k IH]; intros a s Hle Hlen.
  - cbn. rewrite !app_nil_r. now destruct s.
  - cbn [seq map fold_left]. rewrite IH.
    + unfold spawn at 1 2 3 4 5. rewrite find_node_worker by lia.
      rewrite worker_handler_calls, Hlen.
      cbn [worker_calls x_pool x_fanin x_hist x_invoked x_status].
      rewrite <- !app_assoc. reflexivity.
    + lia.
    + unfold spawn. rewrite find_node_worker by lia. cbn [x_invoked].
      rewrite length_app, Hlen. cbn. lia.
Qed.

Lemma step_single (choice : nat) (s : Exec) (t : Task) (a : Action)
    (rest : list Action) :
  x_status s = Running ->
  x_pool s = [t] ->
  t_todo t = a :: rest ->
  step g env choice s
  = perform g env t a
      {| x_pool := match rest with
                   | [] => []
                   | _ :: _ => [{| t_inv := t_inv t; t_node := t_node t; t_todo := rest |}]
                   end;
         x_fanin := x_fanin s; x_hist := x_hist s;
         x_invoked := x_invoked s; x_status := Running |}.
Proof.
  intros Hst Hpool Htodo.
  rewrite (step_at g env choice s [] [] t a rest Hst Hpool); [|apply Nat.mod_1_r|exact Htodo].
  cbn [List.app]. now rewrite app_nil_r.
Qed.

Lemma route_checkpoint (x : Value) (s : Exec) :
  x_status s = Running ->
  route g env "checkpoint" x s
  = if at_most_ten x then spawn g env "splitter" x s else s.
Proof.
  intros Hst. unfold route, g, demo_graph. cbn [g_groups fold_left].
  rewrite deliver_fan_in_other by apply mem_checkpoint_workers.
  rewrite deliver_fan_out_other by reflexivity.
  unfold deliver, is_running. rewrite Hst. reflexivity.
Qed.

Lemma route_splitter (x : Value) (s : Exec) :
  x_status s = Running ->
  route g env "splitter" x s
  = fold_left (fun s' tgt => spawn g env tgt x s') (worker_names num_workers) s.
Proof.
  intros Hst. unfold route, g, demo_graph. cbn [g_groups fold_left].
  rewrite deliver_fan_in_other by apply mem_splitter_workers.
  rewrite deliver_single_other by reflexivity.
  unfold deliver, is_running. rewrite Hst. reflexivity.
Qed.

Lemma route_worker (idx : nat) (x : Value) (s : Exec) :
  (idx < n)%nat ->
  x_status s = Running ->
  route g env (wname idx) x s
  = fan_in_deliver g env (worker_names num_workers) "aggregator" (wname idx) x s.
Proof.
  intros Hidx Hst. unfold route, g, demo_graph. cbn [g_groups fold_left].
  rewrite deliver_single_other by reflexivity.
  rewrite deliver_fan_out_other by reflexivity.
  unfold deliver, is_running. rewrite Hst. cbn [negb].
  assert (H : mem (wname idx) (worker_names num_workers) = true)
    by now apply mem_In, wname_is_worker.
  now rewrite H.
Qed.

Lemma route_aggregator (x : Value) (s : Exec) :
  route g env "aggregator" x s = s.
Proof.
  unfold route, g, demo_graph. cbn [g_groups fold_left].
  rewrite deliver_single_other by reflexivity.
  rewrite deliver_fan_out_other by reflexivity.
  apply deliver_fan_in_other, mem_aggregator_workers.
Qed.

Lemma run_to_fan_out (c1 c2 c3 c4 : nat) (schedule : list nat) :
  v <= 10 ->
  run g env (VInt v) (c1 :: c2 :: c3 :: c4 :: schedule)
  = run_schedule g env schedule
      (st3 (map (fun i => (i, 0%nat)) (seq 0 n)) [] (hist_checkpoint ++ hist_splitter)).
Proof.
  intros Hv. unfold run. rewrite start_state. cbn [run_schedule].
  erewrite (step_single c1); [|reflexivity|reflexivity|reflexivity].
  cbn [perform t_inv t_node x_pool x_fanin x_hist x_invoked x_status List.app].
  erewrite (step_single c2); [|reflexivity|reflexivity|reflexivity].
  cbn [perform t_inv t_node x_pool x_fanin x_hist x_invoked x_status List.app].
  rewrite route_checkpoint by reflexivity.
  cbn [at_most_ten]. apply Z.leb_le in Hv. rewrite Hv.
  change (spawn g env "splitter" (VInt v) ?s) with
    {| x_pool := [{| t_inv := 1; t_node := "splitter"; t_todo := splitter_calls |}];
       x_fanin := [("aggregator", [])];
       x_hist := hist_checkpoint;
       x_invoked := [("checkpoint", VInt v); ("splitter", VInt v)];
       x_status := Running |}.
  erewrite (step_single c3); [|reflexivity|reflexivity|reflexivity].
  cbn [perform t_inv t_node x_pool x_fanin x_hist x_invoked x_status List.app].
  erewrite (step_single c4); [|reflexivity|reflexivity|reflexivity].
  cbn [perform t_inv t_node x_pool x_fanin x_hist x_invoked x_status List.app].
  rewrite route_splitter by reflexivity.
  rewrite worker_names_seq, spawn_workers; [|cbn; lia|reflexivity].
  reflexivity.
Qed.

Lemma run_rejected (c1 c2 c3 : nat) (schedule : list nat) :
  10 < v ->
  run g env (VInt v) (c1 :: c2 :: c3 :: schedule)
  = {| x_pool := [];
       x_fanin := [("aggregator", [])];
       x_hist := hist_checkpoint;
       x_invoked := [("checkpoint", VInt v)];
       x_status := Halted |}.
Proof.
  intros Hv. unfold run. rewrite start_state. cbn [run_schedule].
  erewrite (step_single c1); [|reflexivity|reflexivity|reflexivity].
  cbn [perform t_inv t_node x_pool x_fanin x_hist x_invoked x_status List.app].
  erewrite (step_single c2); [|reflexivity|reflexivity|reflexivity].
  cbn [perform t_inv t_node x_pool x_fanin x_hist x_invoked x_status List.app].
  rewrite route_checkpoint by reflexivity.
  cbn [at_most_ten]. apply Z.leb_gt in Hv. rewrite Hv.
  rewrite step_idle by reflexivity.
  rewrite run_schedule_terminal by discriminate. reflexivity.
Qed.

(** ** While the workers run *)

Definition inv3 (running : list (nat * nat)) (delivered : list nat) : Prop :=
  Permutation (map fst running ++ delivered) (seq 0 n)
  /\ Forall (fun x => (snd x < 4)%nat) running.

Lemma inv3_pick (r1 r2 : list (nat * nat)) (idx p : nat) (delivered : list nat) :
  inv3 (r1 ++ (idx, p) :: r2) delivered ->
  (idx < n)%nat /\ (p < 4)%nat
  /\ ~ In idx (map fst (r1 ++ r2)) /\ ~ In idx delivered
  /\ inv3 (r1 ++ r2) (delivered ++ [idx]).
Proof.
  intros [Hperm Hall].
  assert (Hnd : NoDup (map fst (r1 ++ (idx, p) :: r2) ++ delivered)).
  { eapply Permutation_NoDup; [symmetry; exact Hperm|apply seq_NoDup]. }
  rewrite map_app in Hperm, Hnd. cbn [map fst] in Hperm, Hnd.
  rewrite <- app_assoc in Hperm, Hnd. cbn [List.app] in Hperm, Hnd.
  apply NoDup_remove_2 in Hnd. rewrite !in_app_iff in Hnd.
  assert (Hin : In idx (seq 0 n)).
  { eapply Permutation_in; [exact Hperm|]. apply in_elt. }
  apply in_seq in Hin.
  apply Forall_app in Hall as [H1 H2].
  inversion H2 as [|? ? Hp H2']; subst. cbn in Hp.
  repeat split; try lia.
  - rewrite map_app, in_app_iff. tauto.
  - tauto.
  - transitivity (map fst r1 ++ idx :: map fst r2 ++ delivered)%list; [|exact Hperm].
    rewrite map_app, <- app_assoc. apply Permutation_app_head.
    rewrite app_assoc. apply Permutation_sym, Permutation_cons_append.
  - apply Forall_app. split; assumption.
Qed.

Lemma inv3_advance (r1 r2 : list (nat * nat)) (idx p : nat) (delivered : list nat) :
  inv3 (r1 ++ (idx, p) :: r2) delivered -> (p < 3)%nat ->
  inv3 (r1 ++ (idx, S p) :: r2) delivered.
Proof.
  intros [Hperm Hall] Hp. split.
  - rewrite map_app in *. exact Hperm.
  - apply Forall_app in Hall as [H1 H2]. apply Forall_app. split; [assumption|].
    inversion H2; subst. constructor; [cbn; lia|assumption].
Qed.

Lemma pick_length (r1 r2 : list (nat * nat)) (x : nat * nat) :
  List.length (map task3 r1 ++ task3 x :: map task3 r2) = List.length (r1 ++ x :: r2).
Proof. rewrite !length_app. cbn. now rewrite !length_map. Qed.

(** A worker in flight makes one of its first three calls. *)
Lemma st3_step_call (r1 r2 : list (nat * nat)) (idx p : nat) (delivered : list nat)
    (h : list (nat * string * Action)) (c : nat) :
  (p < 3)%nat ->
  Nat.modulo c (List.length (r1 ++ (idx, p) :: r2)) = List.length r1 ->
  step g env c (st3 (r1 ++ (idx, p) :: r2) delivered h)
  = st3 (r1 ++ (idx, S p) :: r2) delivered
      (h ++ [((2 + idx)%nat, wname idx, nth p (wcalls idx) (Sleep float_0_1))])%list.
Proof.
  intros Hp Hc.
  rewrite (step_at g env c _ (map task3 r1) (map task3 r2) (task3 (idx, p))
             (nth p (wcalls idx) (Sleep float_0_1)) (skipn (S p) (wcalls idx))).
  - unfold st3. rewrite !map_app. cbn [map].
    destruct p as [|[|[|p]]]; [reflexivity|reflexivity|reflexivity|lia].
  - reflexivity.
  - unfold st3. cbn [x_pool]. now rewrite map_app.
  - rewrite pick_length, Hc. now rewrite length_map.
  - destruct p as [|[|[|p]]]; [reflexivity|reflexivity|reflexivity|lia].
Qed.

Definition all_delivered (delivered : list nat) : bool :=
  forallb (fun m => mem m (map fst (map entry delivered))) (worker_names num_workers).

Lemma map_fst_entry (l : list nat) : map fst (map entry l) = map wname l.
Proof. rewrite map_map. reflexivity. Qed.

Lemma mem_wname (j : nat) (l : list nat) : mem (wname j) (map wname l) = true <-> In j l.
Proof.
  rewrite mem_In, in_map_iff. split.
  - intros (i & E & Hi). apply wname_inj in E. now subst.
  - intros H. eauto.
Qed.

Lemma all_delivered_true (delivered : list nat) :
  (forall j, (j < n)%nat -> In j delivered) -> all_delivered delivered = true.
Proof.
  intros H. unfold all_delivered. rewrite map_fst_entry, worker_names_seq.
  apply forallb_forall. intros m Hm. apply in_map_iff in Hm as (j & <- & Hj).
  apply mem_wname, H. apply in_seq in Hj. lia.
Qed.

Lemma all_delivered_false (delivered : list nat) (j : nat) :
  (j < n)%nat -> ~ In j delivered -> all_delivered delivered = false.
Proof.
  intros Hj Hn. destruct (all_delivered delivered) eqn:E; [|reflexivity].
  exfalso. apply Hn. unfold all_delivered in E.
  rewrite map_fst_entry, worker_names_seq in E.
  rewrite forallb_forall in E. apply mem_wname, E, in_map, in_seq. lia.
Qed.

Lemma results_of_results (l : list WorkerResult) : results_of (map VResult l) = Some l.
Proof. induction l as [|r l IH]; cbn; [reflexivity|]. now rewrite IH. Qed.

Definition aggregator_input (delivered : list nat) : Value :=
  VList (map VResult (map wres delivered)).

Definition aggregator_calls (delivered : list nat) : list Action :=
  trace_of (AggregatorExecutor_aggregate (map wres delivered)) (env (2 + n)).

(** The state while the aggregator runs with [todo] still to do. *)
Definition st4 (delivered : list nat) (todo : list Action)
    (h : list (nat * string * Action)) : Exec :=
  {| x_pool := [{| t_inv := 2 + n; t_node := "aggregator"; t_todo := todo |}];
     x_fanin := [("aggregator", [])];
     x_hist := h;
     x_invoked := (("checkpoint", VInt v) :: ("splitter", VInt v) :: invoked_workers)
                    ++ [("aggregator", aggregator_input delivered)];
     x_status := Running |}.

Lemma fan_in_deliver_worker (idx : nat) (pool : list Task) (delivered : list nat)
    (h : list (nat * string * Action)) :
  ~ In idx delivered ->
  let s := {| x_pool := pool;
              x_fanin := [("aggregator", map entry delivered)];
              x_hist := h;
              x_invoked := ("checkpoint", VInt v) :: ("splitter", VInt v) :: invoked_workers;
              x_status := Running |} in
  fan_in_deliver g env (worker_names num_workers) "aggregator" (wname idx)
    (VResult (wres idx)) s
  = if all_delivered (delivered ++ [idx])
    then {| x_pool := (pool ++ [{| t_inv := 2 + n; t_node := "aggregator";
                                   t_todo := aggregator_calls (delivered ++ [idx]) |}])%list;
            x_fanin := [("aggregator", [])];
            x_hist := h;
            x_invoked := (("checkpoint", VInt v) :: ("splitter", VInt v) :: invoked_workers)
                           ++ [("aggregator", aggregator_input (delivered ++ [idx]))];
            x_status := Running |}
    else {| x_pool := pool;
            x_fanin := [("aggregator", map entry (delivered ++ [idx]))];
            x_hist := h;
            x_invoked := ("checkpoint", VInt v) :: ("splitter", VInt v) :: invoked_workers;
            x_status := Running |}.
Proof.
  intros Hnew s. unfold fan_in_deliver, s.
  cbn [x_fanin x_pool x_hist x_invoked x_status].
  change (fanin_get "aggregator" [("aggregator", map entry delivered)])
    with (map entry delivered).
  rewrite map_fst_entry.
  assert (Hm : mem (wname idx) (map wname delivered) = false).
  { destruct (mem (wname idx) (map wname delivered)) eqn:E; [|reflexivity].
    apply mem_wname in E. contradiction. }
  rewrite Hm.
  change (map entry delivered ++ [(wname idx, VResult (wres idx))])%list
    with (map entry delivered ++ map entry [idx])%list.
  rewrite <- map_app.
  fold (all_delivered (delivered ++ [idx])).
  destruct (all_delivered (delivered ++ [idx])); [|reflexivity].
  unfold spawn. rewrite find_node_aggregator.
  cbn [x_fanin x_pool x_hist x_invoked x_status n_handler AggregatorExecutor].
  replace (map snd (map entry (delivered ++ [idx])))
    with (map VResult (map wres (delivered ++ [idx])))
    by (rewrite !map_map; reflexivity).
  rewrite results_of_results.
  replace (List.length (("checkpoint", VInt v) :: ("splitter", VInt v) :: invoked_workers))
    with (2 + n)%nat
    by (cbn; unfold invoked_workers; now rewrite length_map, length_seq).
  reflexivity.
Qed.

(** A worker in flight makes its last call: it sends its result, which
    the fan-in records; the last delivery starts the aggregator. *)
Lemma st3_step_send (r1 r2 : list (nat * nat)) (idx : nat) (delivered : list nat)
    (h : list (nat * string * Action)) (c : nat) :
  (idx < n)%nat -> ~ In idx delivered ->
  Nat.modulo c (List.length (r1 ++ (idx, 3%nat) :: r2)) = List.length r1 ->
  step g env c (st3 (r1 ++ (idx, 3%nat) :: r2) delivered h)
  = let h' := (h ++ [((2 + idx)%nat, wname idx, SendMessage (VResult (wres idx)))])%list in
    if all_delivered (delivered ++ [idx])
    then {| x_pool := (map task3 (r1 ++ r2)
                         ++ [{| t_inv := 2 + n; t_node := "aggregator";
                                t_todo := aggregator_calls (delivered ++ [idx]) |}])%list;
            x_fanin := [("aggregator", [])];
            x_hist := h';
            x_invoked := (("checkpoint", VInt v) :: ("splitter", VInt v) :: invoked_workers)
                           ++ [("aggregator", aggregator_input (delivered ++ [idx]))];
            x_status := Running |}
    else st3 (r1 ++ r2) (delivered ++ [idx]) h'.
Proof.
  intros Hidx Hnew Hc.
  rewrite (step_at g env c _ (map task3 r1) (map task3 r2) (task3 (idx, 3%nat))
             (SendMessage (VResult (wres idx))) []).
  - unfold perform. cbn [t_node task3 fst x_pool x_fanin x_hist x_invoked x_status t_inv].
    rewrite route_worker by (assumption || reflexivity).
    unfold st3. cbn [x_pool x_fanin x_hist x_invoked x_status List.app].
    rewrite (fan_in_deliver_worker idx _ delivered _ Hnew).
    rewrite <- map_app. reflexivity.
  - reflexivity.
  - unfold st3. cbn [x_pool]. now rewrite map_app.
  - rewrite pick_length, Hc. now rewrite length_map.
  - reflexivity.
Qed.

(** The state once the aggregator has yielded. *)
Definition st_done (delivered : list nat) (h : list (nat * string * Action)) : Exec :=
  {| x_pool := [];
     x_fanin := [("aggregator", [])];
     x_hist := h;
     x_invoked := (("checkpoint", VInt v) :: ("splitter", VInt v) :: invoked_workers)
                    ++ [("aggregator", aggregator_input delivered)];
     x_status := Completed (aggregate_final_output (map wres delivered)) |}.

Definition hist_aggregator (delivered : list nat) : list (nat * string * Action) :=
  map (fun a => ((2 + n)%nat, "aggregator", a)) (aggregator_calls delivered).

Lemma run_aggregator (delivered : list nat) (h : list (nat * string * Action))
    (c1 c2 c3 : nat) (schedule : list nat) :
  run_schedule g env (c1 :: c2 :: c3 :: schedule)
    (st4 delivered (aggregator_calls delivered) h)
  = st_done delivered (h ++ hist_aggregator delivered).
Proof.
  cbn [run_schedule]. unfold st4.
  erewrite (step_single c1); [|reflexivity|reflexivity|reflexivity].
  cbn [perform t_inv t_node x_pool x_fanin x_hist x_invoked x_status].
  erewrite (step_single c2); [|reflexivity|reflexivity|reflexivity].
  cbn [perform t_inv t_node x_pool x_fanin x_hist x_invoked x_status].
  erewrite (step_single c3); [|reflexivity|reflexivity|reflexivity].
  cbn [perform with_status t_inv t_node x_pool x_fanin x_hist x_invoked x_status].
  rewrite run_schedule_terminal by discriminate.
  unfold st_done, hist_aggregator. rewrite <- !app_assoc. reflexivity.
Qed.

(** ** The history, node by node *)

Lemma calls_of_app (id : string) (h1 h2 : list (nat * string * Action)) :
  calls_of id (h1 ++ h2) = (calls_of id h1 ++ calls_of id h2)%list.
Proof. unfold calls_of. now rewrite filter_app, map_app. Qed.

Lemma calls_of_same (id : string) (k : nat) (l : list Action) :
  calls_of id (map (fun a => (k, id, a)) l) = l.
Proof.
  unfold calls_of. induction l as [|a l IH]; cbn; [reflexivity|].
  rewrite String.eqb_refl. cbn. now rewrite IH.
Qed.

Lemma calls_of_other (id id' : string) (k : nat) (l : list Action) :
  String.eqb id' id = false ->
  calls_of id (map (fun a => (k, id', a)) l) = [].
Proof.
  intros H. unfold calls_of. induction l as [|a l IH]; cbn; [reflexivity|].
  now rewrite H.
Qed.

Lemma calls_of_snoc_worker (id : string) (h : list (nat * string * Action))
    (k idx : nat) (a : Action) :
  calls_of id (h ++ [(k, wname idx, a)])
  = (calls_of id h ++ if String.eqb (wname idx) id then [a] else [])%list.
Proof.
  rewrite calls_of_app. f_equal. unfold calls_of. cbn [filter map fst snd].
  now destruct (String.eqb (wname idx) id).
Qed.

(** What the history holds of each node while the workers run. *)
Definition hist3 (running : list (nat * nat)) (delivered : list nat)
    (h : list (nat * string * Action)) : Prop :=
  (forall x, In x running -> calls_of (wname (fst x)) h = firstn (snd x) (wcalls (fst x)))
  /\ (forall j, In j delivered -> calls_of (wname j) h = wcalls j)
  /\ calls_of "checkpoint" h = checkpoint_calls
  /\ calls_of "splitter" h = splitter_calls
  /\ calls_of "aggregator" h = [].

Lemma hist3_start :
  hist3 (map (fun i => (i, 0%nat)) (seq 0 n)) [] (hist_checkpoint ++ hist_splitter).
Proof.
  unfold hist3, hist_checkpoint, hist_splitter.
  split; [|split; [|split; [|split]]].
  - intros x Hx. rewrite calls_of_app, !calls_of_other by reflexivity.
    apply in_map_iff in Hx as (i & <- & _). reflexivity.
  - intros j [].
  - rewrite calls_of_app, calls_of_same, calls_of_other by reflexivity.
    apply app_nil_r.
  - rewrite calls_of_app, calls_of_same, calls_of_other by reflexivity.
    reflexivity.
  - rewrite calls_of_app, !calls_of_other by reflexivity. reflexivity.
Qed.

Lemma hist3_call (r1 r2 : list (nat * nat)) (idx p : nat) (delivered : list nat)
    (h : list (nat * string * Action)) :
  inv3 (r1 ++ (idx, p) :: r2) delivered ->
  hist3 (r1 ++ (idx, p) :: r2) delivered h ->
  (p < 3)%nat ->
  hist3 (r1 ++ (idx, S p) :: r2) delivered
    (h ++ [((2 + idx)%nat, wname idx, nth p (wcalls idx) (Sleep float_0_1))]).
Proof.
  intros Hinv (Hrun & Hdel & Hc & Hs & Ha) Hp.
  apply inv3_pick in Hinv as (Hidx & _ & Hfresh & Hnew & _).
  unfold hist3. rewrite !calls_of_snoc_worker.
  change (String.eqb (wname idx) "checkpoint") with false.
  change (String.eqb (wname idx) "splitter") with false.
  change (String.eqb (wname idx) "aggregator") with false.
  rewrite !app_nil_r. split; [|split; [|auto]].
  - intros x Hx. rewrite calls_of_snoc_worker, wname_eqb.
    apply in_app_iff in Hx as [Hx|[<-|Hx]].
    + destruct (Nat.eqb_spec idx (fst x)) as [E|_].
      * exfalso. apply Hfresh. rewrite map_app, in_app_iff. left.
        rewrite E. now apply in_map.
      * rewrite app_nil_r. apply Hrun. apply in_app_iff. now left.
    + cbn [fst snd]. rewrite Nat.eqb_refl.
      pose proof (Hrun (idx, p) (in_elt _ _ _)) as E. cbn [fst snd] in E. rewrite E.
      destruct p as [|[|[|p]]]; [reflexivity|reflexivity|reflexivity|lia].
    + destruct (Nat.eqb_spec idx (fst x)) as [E|_].
      * exfalso. apply Hfresh. rewrite map_app, in_app_iff. right.
        rewrite E. now apply in_map.
      * rewrite app_nil_r. apply Hrun. apply in_app_iff. right. now right.
  - intros j Hj. rewrite calls_of_snoc_worker, wname_eqb.
    destruct (Nat.eqb_spec idx j) as [E|_]; [subst; contradiction|].
    rewrite app_nil_r. now apply Hdel.
Qed.

Lemma hist3_send (r1 r2 : list (nat * nat)) (idx : nat) (delivered : list nat)
    (h : list (nat * string * Action)) :
  inv3 (r1 ++ (idx, 3%nat) :: r2) delivered ->
  hist3 (r1 ++ (idx, 3%nat) :: r2) delivered h ->
  hist3 (r1 ++ r2) (delivered ++ [idx])
    (h ++ [((2 + idx)%nat, wname idx, SendMessage (VResult (wres idx)))]).
Proof.
  intros Hinv (Hrun & Hdel & Hc & Hs & Ha).
  apply inv3_pick in Hinv as (Hidx & _ & Hfresh & Hnew & _).
  unfold hist3. rewrite !calls_of_snoc_worker.
  change (String.eqb (wname idx) "checkpoint") with false.
  change (String.eqb (wname idx) "splitter") with false.
  change (String.eqb (wname idx) "aggregator") with false.
  rewrite !app_nil_r. split; [|split; [|auto]].
  - intros x Hx. rewrite calls_of_snoc_worker, wname_eqb.
    destruct (Nat.eqb_spec idx (fst x)) as [E|_].
    + exfalso. apply Hfresh. rewrite E. now apply in_map.
    + rewrite app_nil_r. apply Hrun.
      apply in_app_iff in Hx as [Hx|Hx]; apply in_app_iff; [now left|right; now right].
  - intros j Hj. rewrite calls_of_snoc_worker, wname_eqb.
    apply in_app_iff in Hj as [Hj|[<-|[]]].
    + destruct (Nat.eqb_spec idx j) as [E|_]; [subst; contradiction|].
      rewrite app_nil_r. now apply Hdel.
    + rewrite Nat.eqb_refl.
      pose proof (Hrun (idx, 3%nat) (in_elt _ _ _)) as E. cbn [fst snd] in E.
      rewrite E. reflexivity.
Qed.

(** ** Every schedule completes the run *)

(** Calls the workers in flight have still to make. *)
Definition work (running : list (nat * nat)) : nat :=
  list_sum (map (fun x => 4 - snd x)%nat running).

Lemma work_app (r1 r2 : list (nat * nat)) : work (r1 ++ r2) = (work r1 + work r2)%nat.
Proof. unfold work. now rewrite map_app, list_sum_app. Qed.

Lemma work_cons (x : nat * nat) (r : list (nat * nat)) :
  work (x :: r) = (4 - snd x + work r)%nat.
Proof. reflexivity. Qed.

(** The final state of a completed run: the aggregator received the
    results in the arrival order [js], a permutation of the workers, and
    every node made all the calls of its handler. *)
Definition completed_run (s : Exec) : Prop :=
  exists (js : list nat) (h : list (nat * string * Action)),
    Permutation js (seq 0 n)
    /\ s = st_done js h
    /\ (forall j, (j < n)%nat -> calls_of (wname j) h = wcalls j)
    /\ calls_of "checkpoint" h = checkpoint_calls
    /\ calls_of "splitter" h = splitter_calls
    /\ calls_of "aggregator" h = aggregator_calls js.

Lemma run_workers (m : nat) :
  forall running delivered h schedule,
    inv3 running delivered ->
    hist3 running delivered h ->
    running <> [] ->
    work running = m ->
    (m + 3 <= List.length schedule)%nat ->
    completed_run (run_schedule g env schedule (st3 running delivered h)).
Proof.
  induction m as [|m IH]; intros running delivered h schedule Hinv Hhist Hne Hwork Hlen.
  - destruct running as [|x r]; [congruence|].
    destruct Hinv as [_ Hall]. inversion Hall; subst.
    rewrite work_cons in Hwork. lia.
  - destruct schedule as [|c schedule]; [cbn in Hlen; lia|]. cbn [run_schedule].
    destruct (pick_task running c Hne) as (r1 & [idx p] & r2 & -> & Hc).
    pose proof (inv3_pick _ _ _ _ _ Hinv) as (Hidx & Hp & Hfresh & Hnew & Hinv').
    rewrite work_app, work_cons in Hwork. cbn [snd] in Hwork. cbn in Hlen.
    assert (Hcase : (p < 3)%nat \/ p = 3%nat) by lia.
    destruct Hcase as [Hp3| ->].
    + rewrite st3_step_call by assumption.
      apply IH.
      * now apply inv3_advance.
      * now apply hist3_call.
      * destruct r1; discriminate.
      * rewrite work_app, work_cons. cbn [snd]. lia.
      * lia.
    + rewrite st3_step_send by assumption. cbv zeta.
      pose proof (hist3_send _ _ _ _ _ Hinv Hhist) as Hhist'.
      destruct (r1 ++ r2)%list as [|[idx' p'] r'] eqn:E.
      * rewrite all_delivered_true.
        2:{ intros j Hj. destruct Hinv' as [Hperm _]. cbn [map List.app] in Hperm.
            eapply Permutation_in; [symmetry; exact Hperm|]. apply in_seq. lia. }
        destruct schedule as [|c1 [|c2 [|c3 schedule]]]; try (cbn in Hlen; lia).
        remember (h ++ [((2 + idx)%nat, wname idx, SendMessage (VResult (wres idx)))])%list
          as h' eqn:Eh'.
        change (completed_run
                  (run_schedule g env (c1 :: c2 :: c3 :: schedule)
                     (st4 (delivered ++ [idx]) (aggregator_calls (delivered ++ [idx])) h'))).
        rewrite run_aggregator.
        destruct Hinv' as [Hperm _]. cbn [map List.app] in Hperm.
        destruct Hhist' as (_ & Hdel & Hcp & Hsp & Hag).
        exists (delivered ++ [idx])%list. eexists. split; [exact Hperm|].
        split; [reflexivity|].
        unfold hist_aggregator. rewrite !calls_of_app.
        rewrite calls_of_same, !calls_of_other by reflexivity.
        rewrite Hcp, Hsp, Hag, !app_nil_r.
        split; [|auto].
        intros j Hj. rewrite calls_of_app, calls_of_other, app_nil_r by reflexivity.
        apply Hdel.
        eapply Permutation_in; [symmetry; exact Hperm|]. apply in_seq. lia.
      * pose proof (inv3_pick [] r' idx' p' _ Hinv') as (Hidx' & _ & _ & Hnew' & _).
        rewrite (all_delivered_false _ idx') by assumption.
        apply IH.
        -- exact Hinv'.
        -- exact Hhist'.
        -- discriminate.
        -- rewrite <- E, work_app. lia.
        -- lia.
Qed.

Lemma run_completes (schedule : list nat) :
  v <= 10 -> (1 <= n)%nat -> (4 * n + 7 <= List.length schedule)%nat ->
  completed_run (run g env (VInt v) schedule).
Proof.
  intros Hv Hn Hlen.
  destruct schedule as [|c1 [|c2 [|c3 [|c4 schedule]]]]; try (cbn in Hlen; lia).
  rewrite run_to_fan_out by assumption.
  apply (run_workers (4 * n)).
  - split.
    + rewrite app_nil_r, map_map. cbn [fst]. now rewrite map_id.
    + apply Forall_forall. intros x Hx. apply in_map_iff in Hx as (i & <- & _). cbn. lia.
  - apply hist3_start.
  - destruct n; [lia|discriminate].
  - unfold work. rewrite map_map. cbn [snd].
    assert (H : forall l : list nat,
               list_sum (map (fun _ => (4 - 0)%nat) l) = (4 * List.length l)%nat)
      by (induction l as [|i l IHl]; [reflexivity|];
          cbn [map list_sum fold_right List.length]; unfold list_sum in IHl;
          rewrite IHl; lia).
    now rewrite H, length_seq.
  - cbn in Hlen. lia.
Qed.

Lemma run_without_workers (schedule : list nat) :
  v <= 10 -> n = 0%nat -> (5 <= List.length schedule)%nat ->
  run g env (VInt v) schedule
  = {| x_pool := [];
       x_fanin := [("aggregator", [])];
       x_hist := (hist_checkpoint ++ hist_splitter)%list;
       x_invoked := [("checkpoint", VInt v); ("splitter", VInt v)];
       x_status := Halted |}.
Proof.
  intros Hv Hn Hlen.
  destruct schedule as [|c1 [|c2 [|c3 [|c4 [|c5 schedule]]]]]; try (cbn in Hlen; lia).
  rewrite run_to_fan_out by assumption. unfold st3, invoked_workers. rewrite Hn.
  cbn [seq map run_schedule].
  rewrite step_idle by reflexivity.
  now rewrite run_schedule_terminal by discriminate.
Qed.

(** ** The invocation log of a run *)

Lemma filter_all {A} (f : A -> bool) (l : list A) :
  (forall x, In x l -> f x = true) -> filter f l = l.
Proof.
  induction l as [|x l IH]; intros H; cbn; [reflexivity|].
  rewrite (H x) by now left. f_equal. apply IH. intros y Hy. apply H. now right.
Qed.

Lemma filter_none {A} (f : A -> bool) (l : list A) :
  (forall x, In x l -> f x = false) -> filter f l = [].
Proof.
  induction l as [|x l IH]; intros H; cbn; [reflexivity|].
  rewrite (H x) by now left. apply IH. intros y Hy. apply H. now right.
Qed.

Lemma invoked_workers_are_workers :
  filter (fun p => mem (fst p) (worker_names num_workers)) invoked_workers
  = invoked_workers.
Proof.
  apply filter_all. intros x Hx. unfold invoked_workers in Hx.
  apply in_map_iff in Hx as (i & <- & Hi). cbn [fst].
  apply mem_In, wname_is_worker. apply in_seq in Hi. lia.
Qed.

Lemma invoked_workers_of (i : nat) :
  (i < n)%nat ->
  map snd (filter (fun p => String.eqb (fst p) (wname i)) invoked_workers) = [VInt v].
Proof.
  intros Hi. unfold invoked_workers.
  assert (H : forall a k, (a <= i < a + k)%nat ->
            map snd (filter (fun p => String.eqb (fst p) (wname i))
                       (map (fun idx => (wname idx, VInt v)) (seq a k))) = [VInt v]).
  { intros a k. revert a. induction k as [|k IH]; intros a Ha; [lia|].
    cbn [seq map filter fst]. rewrite wname_eqb.
    destruct (Nat.eqb_spec a i) as [->|Hne].
    - cbn [map snd]. f_equal. rewrite filter_none; [reflexivity|].
      intros x Hx. apply in_map_iff in Hx as (j & <- & Hj). cbn [fst].
      rewrite wname_eqb. apply Nat.eqb_neq. apply in_seq in Hj. lia.
    - apply IH. lia. }
  apply H. lia.
Qed.

Lemma invoked_workers_not (id : string) :
  ~ In id (worker_names num_workers) ->
  filter (fun p => String.eqb (fst p) id) invoked_workers = [].
Proof.
  intros Hid. apply filter_none. intros x Hx. unfold invoked_workers in Hx.
  apply in_map_iff in Hx as (i & <- & Hi). cbn [fst].
  apply String.eqb_neq. intros E. apply Hid. rewrite <- E.
  apply wname_is_worker. apply in_seq in Hi. lia.
Qed.

Lemma done_worker_invocations (js : list nat) (h : list (nat * string * Action)) :
  worker_invocations num_workers (st_done js h) = invoked_workers.
Proof.
  unfold worker_invocations, st_done. cbn [x_invoked List.app filter fst].
  rewrite mem_checkpoint_workers, mem_splitter_workers.
  rewrite filter_app, invoked_workers_are_workers. cbn [filter fst].
  rewrite mem_aggregator_workers. apply app_nil_r.
Qed.

Lemma done_inputs_worker (js : list nat) (h : list (nat * string * Action)) (i : nat) :
  (i < n)%nat -> inputs_of_node (wname i) (st_done js h) = [VInt v].
Proof.
  intros Hi. unfold inputs_of_node, st_done. cbn [x_invoked List.app filter fst].
  change (String.eqb "checkpoint" (wname i)) with false.
  change (String.eqb "splitter" (wname i)) with false.
  cbn iota. rewrite filter_app, map_app, invoked_workers_of by assumption.
  cbn [filter fst]. change (String.eqb "aggregator" (wname i)) with false.
  reflexivity.
Qed.

Lemma done_inputs_aggregator (js : list nat) (h : list (nat * string * Action)) :
  inputs_of_node "aggregator" (st_done js h) = [aggregator_input js].
Proof.
  unfold inputs_of_node, st_done. cbn [x_invoked List.app filter fst].
  change (String.eqb "checkpoint" "aggregator") with false.
  change (String.eqb "splitter" "aggregator") with false.
  cbn iota. rewrite filter_app, invoked_workers_not by apply worker_names_not_aggregator.
  reflexivity.
Qed.

Lemma done_inputs_splitter (js : list nat) (h : list (nat * string * Action)) :
  inputs_of_node "splitter" (st_done js h) = [VInt v].
Proof.
  unfold inputs_of_node, st_done. cbn [x_invoked List.app filter fst].
  change (String.eqb "checkpoint" "splitter") with false.
  change (String.eqb "splitter" "splitter") with true.
  cbn iota. rewrite filter_app, invoked_workers_not by apply worker_names_not_splitter.
  reflexivity.
Qed.

(** What the workers sent, worker by worker in declaration order. *)
Lemma worker_sends_of (h : list (nat * string * Action)) :
  (forall j, (j < n)%nat -> calls_of (wname j) h = wcalls j) ->
  flat_map (fun w => sends_in (calls_of w h)) (worker_names num_workers)
  = map VResult (map wres (seq 0 n)).
Proof.
  intros H. rewrite worker_names_seq.
  assert (G : forall l, (forall j, In j l -> (j < n)%nat) ->
            flat_map (fun w => sends_in (calls_of w h)) (map wname l)
            = map VResult (map wres l)).
  { induction l as [|j l IH]; intros Hl; [reflexivity|].
    cbn [map flat_map]. rewrite H by (apply Hl; now left).
    rewrite IH by (intros k Hk; apply Hl; now right). reflexivity. }
  apply G. intros j Hj. apply in_seq in Hj. lia.
Qed.

End DemoRun.

(* ================================================================== *)
(** * The terminal output of an execution *)
(* ================================================================== *)

Section SingleOutput.
Context {PF : PyFloat}.
Variable g : Graph.
Variable env : nat -> Oracle.

(** Routing never touches the history, and it leaves the status alone
    unless it fails the execution. *)
Definition quiet (s s' : Exec) : Prop :=
  x_hist s' = x_hist s
  /\ (x_status s' = x_status s \/ exists node cause, x_status s' = Failed node cause).

Lemma quiet_refl (s : Exec) : quiet s s.
Proof. split; auto. Qed.

Lemma quiet_trans (s1 s2 s3 : Exec) : quiet s1 s2 -> quiet s2 s3 -> quiet s1 s3.
Proof.
  intros [H1 S1] [H2 S2]. split; [congruence|].
  destruct S2 as [E|F]; [rewrite E; exact S1|right; exact F].
Qed.

Lemma spawn_quiet (tgt : string) (x : Value) (s : Exec) : quiet s (spawn g env tgt x s).
Proof. unfold spawn. destruct (find_node g tgt); split; auto. Qed.

Lemma spawn_all_quiet (tgts : list string) (x : Value) :
  forall s, quiet s (fold_left (fun s' tgt => spawn g env tgt x s') tgts s).
Proof.
  induction tgts as [|t tgts IH]; intros s; cbn [fold_left]; [apply quiet_refl|].
  eapply quiet_trans; [apply spawn_quiet|apply IH].
Qed.

Lemma fan_in_deliver_quiet (srcs : list string) (tgt src : string) (x : Value) (s : Exec) :
  quiet s (fan_in_deliver g env srcs tgt src x s).
Proof.
  unfold fan_in_deliver.
  destruct (mem src (map fst (fanin_get tgt (x_fanin s)))).
  - split; [reflexivity|]. right. cbn. eauto.
  - destruct (forallb _ srcs).
    + eapply quiet_trans; [|apply spawn_quiet]. split; auto.
    + split; auto.
Qed.

Lemma deliver_quiet (src : string) (x : Value) (s : Exec) (grp : EdgeGroup) :
  quiet s (deliver g env src x s grp).
Proof.
  unfold deliver. destruct (negb (is_running s)); [apply quiet_refl|].
  destruct grp as [src' tgt [p|]|src' tgts|srcs tgt].
  - destruct (String.eqb src' src); [|apply quiet_refl].
    destruct (p x); [apply spawn_quiet|apply quiet_refl].
  - destruct (String.eqb src' src); [apply spawn_quiet|apply quiet_refl].
  - destruct (String.eqb src' src); [apply spawn_all_quiet|apply quiet_refl].
  - destruct (mem src srcs); [apply fan_in_deliver_quiet|apply quiet_refl].
Qed.

Lemma route_quiet (src : string) (x : Value) (s : Exec) : quiet s (route g env src x s).
Proof.
  unfold route. generalize (g_groups g). intros groups. revert s.
  induction groups as [|grp groups IH]; intros s; cbn [fold_left]; [apply quiet_refl|].
  eapply quiet_trans; [apply deliver_quiet|apply IH].
Qed.

(** The outputs in the history agree with the status: none before
    completion, the completing one after it. *)
Definition output_inv (s : Exec) : Prop :=
  match x_status s with
  | Completed o => outputs s = [o]
  | _ => outputs s = []
  end.

Lemma outputs_snoc (s : Exec) (e : nat * string * Action) (s' : Exec) :
  x_hist s' = (x_hist s ++ [e])%list ->
  outputs s' = (outputs s ++ match snd e with YieldOutput o => [o] | _ => [] end)%list.
Proof.
  intros H. unfold outputs. rewrite H, flat_map_app. cbn [flat_map].
  now rewrite app_nil_r.
Qed.

Lemma perform_output_inv (t : Task) (a : Action) (s : Exec) :
  x_status s = Running -> output_inv s -> output_inv (perform g env t a s).
Proof.
  intros Hst Hinv. unfold output_inv in Hinv. rewrite Hst in Hinv.
  unfold perform.
  set (s1 := {| x_pool := x_pool s; x_fanin := x_fanin s;
                x_hist := (x_hist s ++ [(t_inv t, t_node t, a)])%list;
                x_invoked := x_invoked s; x_status := x_status s |}).
  assert (Hout : outputs s1 = match a with YieldOutput o => [o] | _ => [] end).
  { rewrite (outputs_snoc s (t_inv t, t_node t, a)) by reflexivity.
    now rewrite Hinv. }
  destruct a as [e|x|o|d].
  - unfold output_inv. cbn [x_status s1]. rewrite Hst. exact Hout.
  - destruct (route_quiet (t_node t) x s1) as [Hh Hs].
    unfold output_inv, outputs. rewrite Hh. fold (outputs s1). rewrite Hout.
    destruct Hs as [E|(node & cause & E)]; rewrite E; [|reflexivity].
    cbn [x_status s1]. now rewrite Hst.
  - unfold output_inv. cbn [with_status x_status]. exact Hout.
  - unfold output_inv. cbn [x_status s1]. rewrite Hst. exact Hout.
Qed.

Lemma step_output_inv (choice : nat) (s : Exec) :
  output_inv s -> output_inv (step g env choice s).
Proof.
  intros Hinv. unfold step. destruct (x_status s) eqn:Hst; try exact Hinv.
  destruct (x_pool s) as [|t0 pool] eqn:Hp.
  - unfold output_inv in *. rewrite Hst in Hinv. exact Hinv.
  - destruct (nth_error (t0 :: pool) _) as [t|]; [|exact Hinv].
    destruct (t_todo t) as [|a rest].
    + unfold output_inv in *. cbn [x_status]. rewrite Hst in *. exact Hinv.
    + apply perform_output_inv; [reflexivity|].
      unfold output_inv in *. cbn [x_status]. rewrite Hst in Hinv. exact Hinv.
Qed.

Lemma run_schedule_output_inv (schedule : list nat) :
  forall s, output_inv s -> output_inv (run_schedule g env schedule s).
Proof.
  induction schedule as [|c schedule IH]; intros s H; cbn; [exact H|].
  apply IH, step_output_inv, H.
Qed.

Lemma start_output_inv (x : Value) : output_inv (start g env x).
Proof.
  unfold start.
  match goal with |- output_inv (spawn _ _ _ _ ?s0) =>
    destruct (spawn_quiet (g_start g) x s0) as [Hh Hs] end.
  unfold output_inv, outputs. rewrite Hh.
  destruct Hs as [E|(node & cause & E)]; rewrite E; reflexivity.
Qed.

Lemma run_output_inv (x : Value) (schedule : list nat) :
  output_inv (run g env x schedule).
Proof. apply run_schedule_output_inv, start_output_inv. Qed.

End SingleOutput.

(* ================================================================== *)
(** * Properties of the workflow *)
(* ================================================================== *)

Section Claims.
Context {PF : PyFloat}.

Lemma events_of_node_calls (id : string) (s : Exec) :
  events_of_node id s = events_in (actions_of_node id s).
Proof.
  unfold events_of_node, event_stream, actions_of_node, calls_of, events_in.
  induction (x_hist s) as [|[[k id'] a] h IH]; [reflexivity|].
  cbn [flat_map filter map fst snd].
  rewrite filter_app, map_app, IH.
  destruct a as [e|x|o|d]; cbn [filter fst snd];
    destruct (String.eqb id' id); reflexivity.
Qed.

(** X19: for every [N >= 1], on a validated input [v <= 10], every
    schedule that runs the graph of [N] workers to its end invokes each of
    the [N] workers exactly once (so [N] worker invocations) and the
    aggregator exactly once, with a list of [N] worker results. *)
Theorem fan_out_width (N v : Z) (env : nat -> Oracle) (schedule : list nat) :
  1 <= N -> v <= 10 ->
  (4 * Z.to_nat N + 7 <= List.length schedule)%nat ->
  fan_out_width_holds N v env schedule.
Proof.
  intros HN Hv Hlen. exists (demo_graph N).
  split; [apply create_conditional_fan_out_workflow_graph|]. cbv zeta.
  destruct (run_completes N env v schedule Hv ltac:(lia) Hlen)
    as (js & h & Hperm & -> & _).
  split; [|split].
  - rewrite done_worker_invocations. unfold invoked_workers.
    now rewrite length_map, length_seq.
  - intros w Hw. rewrite worker_names_seq in Hw.
    apply in_map_iff in Hw as (i & <- & Hi). apply in_seq in Hi.
    apply done_inputs_worker. lia.
  - exists (map (wres env v) js). split; [apply done_inputs_aggregator|].
    rewrite length_map, (Permutation_length Hperm). apply length_seq.
Qed.

(** C2: with the edge from the checkpoint to the splitter guarded by
    [value <= 10], every schedule that runs the graph to its end on the
    input 12 halts without output and without error after the checkpoint's
    own event: neither the splitter nor a worker nor the aggregator is
    invoked; on the input 8 the splitter is invoked exactly once. *)
Theorem conditional_drop (N : Z) (env : nat -> Oracle) (schedule : list nat) :
  (4 * Z.to_nat N + 8 <= List.length schedule)%nat ->
  exists g,
    create_conditional_fan_out_workflow N = inr g
    /\ (let s := run g env (VInt 12) schedule in
        x_status s = Halted
        /\ outputs s = []
        /\ x_invoked s = [("checkpoint", VInt 12)]
        /\ map fst (event_stream s) = ["checkpoint"]
        /\ inputs_of_node "splitter" s = []
        /\ (forall w, In w (worker_names N) -> inputs_of_node w s = [])
        /\ inputs_of_node "aggregator" s = [])
    /\ inputs_of_node "splitter" (run g env (VInt 8) schedule) = [VInt 8].
Proof.
  intros Hlen. exists (demo_graph N).
  split; [apply create_conditional_fan_out_workflow_graph|]. split.
  - cbv zeta.
    destruct schedule as [|c1 [|c2 [|c3 schedule]]]; try (cbn in Hlen; lia).
    rewrite run_rejected by lia.
    repeat split; try reflexivity.
    intros w Hw. rewrite worker_names_seq in Hw.
    apply in_map_iff in Hw as (i & <- & _). reflexivity.
  - destruct (Nat.eq_dec (Z.to_nat N) 0) as [Hn|Hn].
    + rewrite run_without_workers by (assumption || lia). reflexivity.
    + destruct (run_completes N env 8 schedule ltac:(lia) ltac:(lia) ltac:(lia))
        as (js & h & _ & -> & _).
      apply done_inputs_splitter.
Qed.

(** C3: on a validated input, whatever the schedule (and so whatever the
    order in which the results arrive), every list the aggregator receives
    is a permutation of what the workers sent, one result per worker; with
    at least one worker it receives exactly one such list.  The order of
    the list depends on the schedule: two schedules of the graph of two
    workers hand the aggregator the same two results in opposite orders. *)
Theorem fan_in_receives_each_result_once (N v : Z) (env : nat -> Oracle)
    (schedule : list nat) :
  v <= 10 ->
  (4 * Z.to_nat N + 8 <= List.length schedule)%nat ->
  exists g,
    create_conditional_fan_out_workflow N = inr g
    /\ (let s := run g env (VInt v) schedule in
        (forall x, In x (inputs_of_node "aggregator" s) ->
           exists L, x = VList L
             /\ Permutation L
                  (flat_map (fun w => sends_in (actions_of_node w s)) (worker_names N)))
        /\ (1 <= N ->
            exists L, inputs_of_node "aggregator" s = [VList L]
                      /\ List.length L = Z.to_nat N))
    /\ exists g2 schedule1 schedule2 r0 r1,
         create_conditional_fan_out_workflow 2 = inr g2
         /\ inputs_of_node "aggregator" (run g2 env (VInt 5) schedule1)
            = [VList [VResult r0; VResult r1]]
         /\ inputs_of_node "aggregator" (run g2 env (VInt 5) schedule2)
            = [VList [VResult r1; VResult r0]]
         /\ r0 <> r1.
Proof.
  intros Hv Hlen. exists (demo_graph N).
  split; [apply create_conditional_fan_out_workflow_graph|]. split.
  - cbv zeta. destruct (Nat.eq_dec (Z.to_nat N) 0) as [Hn|Hn].
    + rewrite run_without_workers by (assumption || lia).
      split; [intros x []|lia].
    + destruct (run_completes N env v schedule Hv ltac:(lia) ltac:(lia))
        as (js & h & Hperm & -> & Hw & _).
      rewrite done_inputs_aggregator. split.
      * intros x [<-|[]]. eexists. split; [reflexivity|].
        unfold actions_of_node, st_done. cbn [x_hist].
        rewrite (worker_sends_of N env v h Hw).
        apply Permutation_map, Permutation_map. exact Hperm.
      * intros _. eexists. split; [reflexivity|].
        rewrite !length_map, (Permutation_length Hperm), length_seq. lia.
  - exists (demo_graph 2), (repeat 0%nat 16),
      [0; 0; 0; 0; 1; 1; 1; 1; 0; 0; 0; 0; 0; 0; 0; 0]%nat,
      (worker_result "worker_00" 5 (env 2%nat)),
      (worker_result "worker_01" 5 (env 3%nat)).
    split; [apply create_conditional_fan_out_workflow_graph|].
    split; [reflexivity|]. split; [reflexivity|].
    intros E. apply (f_equal worker_id) in E. discriminate E.
Qed.

(** C5: in every execution, of any graph and under any schedule, at most
    one yielded output is honoured: the history holds at most one
    [YieldOutput]; the execution is completed with output [o] exactly when
    that yield carried [o], and once completed no further schedule changes
    the execution, so that whatever is still in flight never yields.  In the
    fan-out workflow the checkpoint, the splitter and the workers never
    yield, and the aggregator yields exactly once per invocation. *)
Theorem single_terminal_output (g : Graph) (env : nat -> Oracle) (x : Value)
    (schedule : list nat) :
  let s := run g env x schedule in
  (List.length (outputs s) <= 1)%nat
  /\ (forall o, x_status s = Completed o ->
        outputs s = [o] /\ forall more, run g env x (schedule ++ more) = s)
  /\ (forall o, In o (outputs s) -> x_status s = Completed o)
  /\ (forall id y o, yields_in (n_handler (CheckpointExecutor id) y o) = [])
  /\ (forall id y o, yields_in (n_handler (SplitterExecutor id) y o) = [])
  /\ (forall id y o, yields_in (n_handler (WorkerExecutor id) y o) = [])
  /\ (forall id results o,
        yields_in (n_handler (AggregatorExecutor id) (VList (map VResult results)) o)
        = [aggregate_final_output results])
  /\ (forall id y o,
        (List.length (yields_in (n_handler (AggregatorExecutor id) y o)) <= 1)%nat).
Proof.
  cbv zeta. pose proof (run_output_inv g env x schedule) as Hinv.
  unfold output_inv in Hinv.
  split; [|split; [|split]].
  - destruct (x_status (run g env x schedule)); rewrite Hinv; cbn; lia.
  - intros o Ho. rewrite Ho in Hinv. split; [exact Hinv|].
    intros more. unfold run. rewrite run_schedule_app.
    apply run_schedule_terminal. fold (run g env x schedule). rewrite Ho. discriminate.
  - intros o Ho.
    destruct (x_status (run g env x schedule)); rewrite Hinv in Ho;
      try contradiction.
    destruct Ho as [->|[]]. reflexivity.
  - repeat split.
    + intros id [z|r|l] o; reflexivity.
    + intros id [z|r|l] o; reflexivity.
    + intros id [z|r|l] o; reflexivity.
    + intros id results o. cbn [n_handler AggregatorExecutor].
      rewrite results_of_results. reflexivity.
    + intros id [z|r|l] o; cbn [n_handler AggregatorExecutor]; try (cbn; lia).
      destruct (results_of l); cbn; lia.
Qed.

(** C7: a worker invocation makes its calls in program order: the started
    info event, the pause, the completed success event, then the message
    with its result.  On a validated input every schedule that runs the
    graph to its end keeps that order: the history holds the calls of each
    worker in exactly that sequence, and the event stream holds the started
    event of a worker before its completed event.  Between workers the order
    depends on the schedule: two schedules of the graph of two workers give
    event streams in which the events of the two workers come in different
    orders. *)
Theorem worker_events_in_order (N v : Z) (env : nat -> Oracle) (schedule : list nat) :
  v <= 10 ->
  (4 * Z.to_nat N + 8 <= List.length schedule)%nat ->
  (forall id number o,
     exists d elapsed output result,
       n_handler (WorkerExecutor id) (VInt number) o
       = [ AddEvent (worker_started_event id number);
           Sleep d;
           AddEvent (worker_completed_event id number output elapsed);
           SendMessage (VResult result) ])
  /\ (exists g,
        create_conditional_fan_out_workflow N = inr g
        /\ let s := run g env (VInt v) schedule in
           forall i, 0 <= i < N ->
             let id := worker_name i in
             let o := env (2 + Z.to_nat i)%nat in
             actions_of_node id s = n_handler (WorkerExecutor id) (VInt v) o
             /\ exists output elapsed,
                  events_of_node id s
                  = [ worker_started_event id v;
                      worker_completed_event id v output elapsed ])
  /\ exists g2 schedule1 schedule2,
       create_conditional_fan_out_workflow 2 = inr g2
       /\ map fst (event_stream (run g2 env (VInt 5) schedule1))
          = ["checkpoint"; "splitter"; "worker_00"; "worker_00";
             "worker_01"; "worker_01"; "aggregator"; "aggregator"]
       /\ map fst (event_stream (run g2 env (VInt 5) schedule2))
          = ["checkpoint"; "splitter"; "worker_01"; "worker_00";
             "worker_00"; "worker_01"; "aggregator"; "aggregator"].
Proof.
  intros Hv Hlen. split; [|split].
  - intros id number o. rewrite worker_handler_calls. unfold worker_calls. eauto.
  - exists (demo_graph N).
    split; [apply create_conditional_fan_out_workflow_graph|]. cbv zeta.
    intros i Hi.
    destruct (run_completes N env v schedule Hv ltac:(lia) ltac:(lia))
      as (js & h & _ & Hs & Hw & _).
    assert (Hcalls : actions_of_node (worker_name i)
                       (run (demo_graph N) env (VInt v) schedule)
                     = worker_calls (worker_name i) v (env (2 + Z.to_nat i)%nat)).
    { rewrite Hs. unfold actions_of_node, st_done. cbn [x_hist].
      specialize (Hw (Z.to_nat i) ltac:(lia)).
      unfold wcalls, wname in Hw. rewrite !Z2Nat.id in Hw by lia. exact Hw. }
    split; [rewrite Hcalls; now rewrite worker_handler_calls|].
    rewrite events_of_node_calls, Hcalls. unfold worker_calls. cbn [events_in flat_map List.app].
    eauto.
  - exists (demo_graph 2), (repeat 0%nat 16),
      [0; 0; 0; 0; 1; 0; 0; 0; 0; 0; 0; 0; 0; 0; 0; 0]%nat.
    split; [apply create_conditional_fan_out_workflow_graph|].
    split; reflexivity.
Qed.

Lemma g_bind_ret {A B : Type} (a : A) (k : A -> G B) (log : list GammaEffect) :
  g_bind (g_ret a) k log = k a log.
Proof. reflexivity. Qed.

Lemma g_bind_do {B : Type} (eff : GammaEffect) (k : unit -> G B)
    (log : list GammaEffect) :
  g_bind (g_do eff) k log = k tt (log ++ [eff])%list.
Proof. reflexivity. Qed.

End Claims.

(* ================================================================== *)
(** * The properties at concrete inputs *)
(* ================================================================== *)

Lemma fan_out_width_witness :
  fan_out_width_holds (PF := MilliFloat) 2 5 sample_env (repeat 0%nat 15).
Proof.
  apply fan_out_width; [lia|lia|cbn; lia].
Defined.

Lemma conditional_drop_witness :
  exists g,
    create_conditional_fan_out_workflow (PF := MilliFloat) 2 = inr g
    /\ x_status (run g sample_env (VInt 12) (repeat 0%nat 16)) = Halted
    /\ inputs_of_node "splitter" (run g sample_env (VInt 12) (repeat 0%nat 16)) = []
    /\ inputs_of_node "splitter" (run g sample_env (VInt 8) (repeat 0%nat 16)) = [VInt 8].
Proof.
  destruct (conditional_drop (PF := MilliFloat) 2 sample_env (repeat 0%nat 16)
              ltac:(cbn; lia))
    as (g & Hg & (Hst & _ & _ & _ & Hsp & _) & H8).
  exists g. repeat split; assumption.
Defined.

Lemma fan_in_receives_each_result_once_witness :
  exists g L,
    create_conditional_fan_out_workflow (PF := MilliFloat) 2 = inr g
    /\ inputs_of_node "aggregator" (run g sample_env (VInt 5) (repeat 0%nat 16))
       = [VList L]
    /\ List.length L = 2%nat.
Proof.
  destruct (fan_in_receives_each_result_once (PF := MilliFloat) 2 5 sample_env
              (repeat 0%nat 16) ltac:(lia) ltac:(cbn; lia))
    as (g & Hg & (_ & H) & _).
  destruct (H ltac:(lia)) as (L & HL & Hlen).
  exists g, L. repeat split; assumption.
Defined.

(** Scenario A: five results, eleven lines, the total 110. *)
Lemma aggregate_output_lines_witness :
  exists out,
    yields_in (n_handler (AggregatorExecutor "aggregator")
                 (VList (map VResult scenario_a_results)) (sample_env 7)) = [out]
    /\ List.length (lines_of out) = 11%nat
    /\ nth_error (lines_of out) 3
       = Some ("  " ++ ansi "93" ++ "worker_00" ++ ansi "0"
                 ++ ": input=" ++ ansi "94" ++ "5" ++ ansi "0"
                 ++ " → output=" ++ ansi "92" ++ "20" ++ ansi "0"
                 ++ " (" ++ ansi "95" ++ "0.300s" ++ ansi "0" ++ ")")
    /\ nth_error (lines_of out) 9
       = Some ("  Total combined output: " ++ ansi "1" ++ ansi "92" ++ "110" ++ ansi "0").
Proof.
  destruct (aggregate_output_lines scenario_a_results (sample_env 7) ltac:(discriminate))
    as (out & Hy & _ & Hlines).
  destruct Hlines as [Hl Hlen].
  { intros r Hr. cbn in Hr.
    repeat (destruct Hr as [<-|Hr]; [split; reflexivity|]). destruct Hr. }
  exists out. split; [exact Hy|]. split; [exact Hlen|].
  rewrite Hl. split; reflexivity.
Defined.

Lemma single_terminal_output_witness :
  x_status (run twice_graph sample_env (VInt 0) [0%nat]) = Completed "first"
  /\ outputs (run twice_graph sample_env (VInt 0) [0%nat]) = ["first"]
  /\ run twice_graph sample_env (VInt 0) ([0%nat] ++ [0; 0; 0]%nat)
     = run twice_graph sample_env (VInt 0) [0%nat].
Proof.
  assert (Hst : x_status (run twice_graph sample_env (VInt 0) [0%nat])
                = Completed "first") by reflexivity.
  destruct (single_terminal_output twice_graph sample_env (VInt 0) [0%nat])
    as (_ & H & _).
  destruct (H "first" Hst) as (Hout & Hsticky).
  split; [exact Hst|]. split; [exact Hout|apply Hsticky].
Defined.

Lemma node_ids_unique_witness :
  exists g,
    create_conditional_fan_out_workflow (PF := MilliFloat) 12 = inr g
    /\ NoDup (map n_id (g_nodes g))
    /\ List.length (g_nodes g) = 15%nat.
Proof.
  destruct (node_ids_unique (PF := MilliFloat) 12 ltac:(lia))
    as (g & Hg & _ & Hlen & Hnd & _).
  exists g. split; [exact Hg|]. split; [exact Hnd|exact Hlen].
Defined.

Lemma worker_events_in_order_witness :
  exists g output elapsed,
    create_conditional_fan_out_workflow (PF := MilliFloat) 2 = inr g
    /\ events_of_node "worker_01" (run g sample_env (VInt 5) (repeat 0%nat 16))
       = [ worker_started_event "worker_01" 5;
           worker_completed_event (PF := MilliFloat) "worker_01" 5 output elapsed ].
Proof.
  destruct (worker_events_in_order (PF := MilliFloat) 2 5 sample_env (repeat 0%nat 16)
              ltac:(lia) ltac:(cbn; lia))
    as (_ & (g & Hg & H) & _).
  destruct (H 1 ltac:(lia)) as (_ & output & elapsed & Hev).
  exists g, output, elapsed. split; [exact Hg|exact Hev].
Defined.

Lemma worker_result_bounds_witness :
  exists f r result,
    1 <= f <= 5 /\ 0 <= r <= 10
    /\ sends_in (n_handler (WorkerExecutor "worker_00") (VInt 8) (sample_env 2))
       = [VResult result]
    /\ worker_id result = "worker_00"
    /\ input_value result = 8
    /\ output_value result = 8 * f + r
    /\ 8 <= output_value result <= 5 * 8 + 10.
Proof.
  apply (worker_result_bounds (PF := MilliFloat) "worker_00" 8 (sample_env 2)). lia.
Defined.

(* ================================================================== *)
(** * Further properties of the Gamma API executor *)
(* ================================================================== *)

(** A relation between the log before and after a computation that holds
    after every step the computation is allowed to make. *)
Class LogRel {PF : PyFloat} : Type := {
  rel : list GammaEffect -> list GammaEffect -> Prop;
  allowed : GammaEffect -> bool;
  R_refl : forall log, rel log log;
  R_trans : forall l1 l2 l3, rel l1 l2 -> rel l2 l3 -> rel l1 l3;
  R_step : forall log e, allowed e = true -> rel log (log ++ [e])
}.

Section EffectRelations.
Context {PF : PyFloat} {LR : LogRel}.

Definition respects {A : Type} (m : G A) : Prop :=
  forall log, rel log (snd (m log)).

Lemma respects_ret {A : Type} (a : A) : respects (g_ret a).
Proof. intros log. apply R_refl. Qed.

Lemma respects_raise {A : Type} (cls msg : string) : respects (@g_raise _ A cls msg).
Proof. intros log. apply R_refl. Qed.

Lemma respects_reraise {A : Type} (e : PyExn) : respects (@g_reraise _ A e).
Proof. intros log. apply R_refl. Qed.

Lemma respects_do (eff : GammaEffect) : allowed eff = true -> respects (g_do eff).
Proof. intros H log. now apply R_step. Qed.

Lemma respects_bind {A B : Type} (m : G A) (k : A -> G B) :
  respects m -> (forall a, respects (k a)) -> respects (g_bind m k).
Proof.
  intros Hm Hk log. unfold g_bind. specialize (Hm log).
  destruct (m log) as [[e|a] log']; cbn [snd] in *; [exact Hm|].
  eapply R_trans; [exact Hm|apply Hk].
Qed.

Lemma respects_try {A : Type} (m : G A) (handler : PyExn -> G A) :
  respects m -> (forall e, respects (handler e)) -> respects (g_try m handler).
Proof.
  intros Hm Hh log. unfold g_try. specialize (Hm log).
  destruct (m log) as [[e|a] log']; cbn [snd] in *; [|exact Hm].
  destruct (exn_is_Exception e); [|exact Hm].
  eapply R_trans; [exact Hm|apply Hh].
Qed.

Lemma respects_py_get (x : Json) (key : string) (default : Json) :
  respects (py_get x key default).
Proof. destruct x; first [apply respects_ret|apply respects_raise]. Qed.

Lemma respects_py_replace_spaces (x : Json) : respects (py_replace_spaces x).
Proof. destruct x; first [apply respects_ret|apply respects_raise]. Qed.

Lemma respects_py_add_one (plus_one : float -> float) (x : Json) :
  respects (py_add_one plus_one x).
Proof. destruct x; first [apply respects_ret|apply respects_raise]. Qed.

Lemma respects_answer (a : PyExn + HttpResponse) : respects (answer a).
Proof. destruct a; [apply respects_reraise|apply respects_ret]. Qed.

Lemma respects_response_json (r : HttpResponse) : respects (response_json r).
Proof.
  unfold response_json. destruct (json_body r); [apply respects_reraise|apply respects_ret].
Qed.

Lemma respects_write_file (w : GammaWorld) (path content : string) :
  allowed (FileWrite path content) = true -> respects (write_file w path content).
Proof.
  intros H. unfold write_file.
  destruct (open_error w path); [apply respects_reraise|now apply respects_do].
Qed.

(** Whether a polled status is the string "completed". *)
Definition is_completed (status : Json) : bool :=
  match status with
  | JStr s => String.eqb s "completed"
  | _ => false
  end.

Lemma completed_match {A : Type} (status : Json) (a b : A) :
  match status with JStr "completed" => a | _ => b end
  = if is_completed status then a else b.
Proof.
  destruct status as [| | | |s| |]; try reflexivity. cbn [is_completed].
  destruct (String.eqb_spec s "completed") as [->|Hne]; [reflexivity|].
  repeat (destruct s as [|[[] [] [] [] [] [] [] []] s]; try reflexivity).
  congruence.
Qed.

(** One turn of the polling loop, with the test of the status as a
    boolean, the elapsed seconds it logs and the rest of the loop as
    [again]. *)
Definition poll_turn (base : string) (fmt : Json -> string) (generation_id : Json)
    (seconds : Z) (a : PyExn + HttpResponse) (again : G Json) : G Json :=
  g_bind (g_do (HttpGet (base ++ "/generations/" ++ fmt generation_id)))
    (fun _ =>
       g_bind (answer a)
         (fun response =>
            if status_code response =? 200
            then
              g_bind (response_json response)
                (fun data =>
                   g_bind (py_get data "status" JNull)
                     (fun status =>
                        if is_completed status
                        then
                          g_bind (g_do (LogInfo ("GAMMA - GET /generations/"
                                                   ++ fmt generation_id
                                                   ++ " - Status: completed")))
                            (fun _ => g_ret data)
                        else
                          g_bind (g_do (LogInfo ("GAMMA - GET /generations/"
                                                   ++ fmt generation_id
                                                   ++ " - Status: " ++ fmt status
                                                   ++ " (" ++ str seconds ++ "s)")))
                            (fun _ => g_bind (g_do (SleepSeconds 5)) (fun _ => again))))
            else g_bind (g_do (SleepSeconds 5)) (fun _ => again))).

Lemma poll_loop_cons (base : string) (fmt : Json -> string) (generation_id : Json)
    (elapsed : nat -> Z) (turn : nat)
    (a : PyExn + HttpResponse) (answers : list (PyExn + HttpResponse))
    (log : list GammaEffect) :
  poll_loop base fmt generation_id elapsed turn (a :: answers) log
  = poll_turn base fmt generation_id (elapsed turn) a
      (poll_loop base fmt generation_id elapsed (S turn) answers) log.
Proof.
  cbn [poll_loop]. unfold poll_turn, g_bind, g_do, answer, g_reraise, g_ret.
  destruct a as [e|response]; [reflexivity|].
  destruct (status_code response =? 200); [|reflexivity].
  unfold response_json, g_ret, g_reraise.
  destruct (json_body response) as [e|data]; [reflexivity|].
  destruct data; try reflexivity.
  cbn [py_get]. unfold g_ret. rewrite completed_match.
  destruct (is_completed _); reflexivity.
Qed.

Lemma respects_poll_turn (base : string) (fmt : Json -> string) (generation_id : Json)
    (seconds : Z) (a : PyExn + HttpResponse) (again : G Json) :
  (forall url, allowed (HttpGet url) = true) ->
  (forall message, allowed (LogInfo message) = true) ->
  (forall seconds, allowed (SleepSeconds seconds) = true) ->
  respects again ->
  respects (poll_turn base fmt generation_id seconds a again).
Proof.
  intros Hget Hlog Hsleep Hagain. unfold poll_turn.
  apply respects_bind; [apply respects_do, Hget|intros _].
  apply respects_bind; [apply respects_answer|intros response].
  destruct (status_code response =? 200).
  - apply respects_bind; [apply respects_response_json|intros data].
    apply respects_bind; [apply respects_py_get|intros status].
    destruct (is_completed status).
    + apply respects_bind; [apply respects_do, Hlog|intros _]. apply respects_ret.
    + apply respects_bind; [apply respects_do, Hlog|intros _].
      apply respects_bind; [apply respects_do, Hsleep|intros _]. exact Hagain.
  - apply respects_bind; [apply respects_do, Hsleep|intros _]. exact Hagain.
Qed.

Lemma respects_poll_loop (base : string) (fmt : Json -> string) (generation_id : Json)
    (elapsed : nat -> Z) (answers : list (PyExn + HttpResponse)) :
  (forall url, allowed (HttpGet url) = true) ->
  (forall message, allowed (LogInfo message) = true) ->
  (forall seconds, allowed (SleepSeconds seconds) = true) ->
  forall turn, respects (poll_loop base fmt generation_id elapsed turn answers).
Proof.
  intros Hget Hlog Hsleep.
  induction answers as [|a answers IH]; intros turn; [apply respects_raise|].
  intros log. rewrite poll_loop_cons. revert log.
  apply respects_poll_turn; auto.
Qed.

Lemma respects_poll_for_completion (base : string) (fmt : Json -> string)
    (generation_id : Json) (elapsed : nat -> Z) (answers : list (PyExn + HttpResponse)) :
  (forall url, allowed (HttpGet url) = true) ->
  (forall message, allowed (LogInfo message) = true) ->
  (forall seconds, allowed (SleepSeconds seconds) = true) ->
  respects (_poll_for_completion base fmt generation_id elapsed answers).
Proof.
  intros Hget Hlog Hsleep. unfold _poll_for_completion.
  apply respects_bind; [apply respects_do, Hlog|intros _].
  now apply respects_poll_loop.
Qed.

Lemma respects_download_pdf (fmt : Json -> string) (w : GammaWorld) (pdf_url : Json)
    (output_path : string) :
  (forall url, allowed (HttpGet url) = true) ->
  (forall message, allowed (LogInfo message) = true) ->
  (forall path content, allowed (FileWrite path content) = true) ->
  respects (_download_pdf fmt w pdf_url output_path).
Proof.
  intros Hget Hlog Hwrite. unfold _download_pdf.
  apply respects_bind; [apply respects_do, Hlog|intros _].
  apply respects_bind; [apply respects_do, Hget|intros _].
  apply respects_bind; [apply respects_answer|intros response].
  destruct (negb (status_code response =? 200)); [apply respects_raise|].
  apply respects_bind; [apply respects_write_file, Hwrite|intros _].
  apply respects_bind; [apply respects_do, Hlog|intros _]. apply respects_ret.
Qed.

End EffectRelations.

Ltac respects_step :=
  first
    [ apply respects_ret | apply respects_raise | apply respects_reraise
    | apply respects_py_get | apply respects_py_replace_spaces
    | apply respects_py_add_one | apply respects_answer
    | apply respects_response_json
    | apply respects_write_file; reflexivity
    | apply respects_do; reflexivity
    | apply respects_poll_for_completion; intros; reflexivity
    | apply respects_download_pdf; intros; reflexivity
    | apply respects_bind; [|intros ?]
    | apply respects_try; [|intros ?]
    | match goal with
      | |- respects (if ?c then _ else _) => destruct c
      | |- respects (match ?x with Some _ => _ | None => _ end) => destruct x
      | |- respects (match ?x with inl _ => _ | inr _ => _ end) => destruct x
      end ].

Ltac respects_tac := repeat respects_step.

Section GammaMore.
Context {PF : PyFloat}.

Definition is_yield (e : GammaEffect) : bool :=
  match e with GammaYield _ => true | _ => false end.

Definition is_write (e : GammaEffect) : bool :=
  match e with FileWrite _ _ => true | _ => false end.

(** Seconds slept in a log. *)
Definition slept (log : list GammaEffect) : Z :=
  fold_right (fun e acc => match e with SleepSeconds n => n + acc | _ => acc end) 0 log.

Lemma gamma_yields_app (l1 l2 : list GammaEffect) :
  gamma_yields (l1 ++ l2) = (gamma_yields l1 ++ gamma_yields l2)%list.
Proof. unfold gamma_yields. apply flat_map_app. Qed.

Lemma filter_step (f : GammaEffect -> bool) (log : list GammaEffect) (e : GammaEffect) :
  negb (f e) = true -> filter f (log ++ [e]) = filter f log.
Proof.
  intros H. rewrite filter_app. cbn [filter].
  destruct (f e); [discriminate|apply app_nil_r].
Qed.

(** Computations that leave the filtered part of the log alone. *)
Definition quiet_on (f : GammaEffect -> bool) : LogRel :=
  {| rel := fun log log' => filter f log' = filter f log;
     allowed := fun e => negb (f e);
     R_refl := fun log => eq_refl;
     R_trans := fun l1 l2 l3 H12 H23 => eq_trans H23 H12;
     R_step := filter_step f |}.

Lemma extends_trans (l1 l2 l3 : list GammaEffect) :
  (exists added, l2 = (l1 ++ added)%list) ->
  (exists added, l3 = (l2 ++ added)%list) ->
  exists added, l3 = (l1 ++ added)%list.
Proof. intros (a1 & ->) (a2 & ->). eexists. now rewrite <- app_assoc. Qed.

(** Computations that only add to the log. *)
Definition extends : LogRel :=
  {| rel := fun log log' => exists added, log' = (log ++ added)%list;
     allowed := fun _ => true;
     R_refl := fun log => ex_intro _ [] (eq_sym (app_nil_r log));
     R_trans := extends_trans;
     R_step := fun log e _ => ex_intro _ [e] eq_refl |}.

Lemma quiet_yields {A : Type} (m : G A) (log : list GammaEffect) :
  respects (LR := quiet_on is_yield) m ->
  gamma_yields (snd (m log)) = gamma_yields log.
Proof.
  intros H. specialize (H log). cbn [rel quiet_on] in H.
  assert (G : forall l, gamma_yields l = gamma_yields (filter is_yield l)).
  { induction l as [|e l IH]; [reflexivity|].
    destruct e; cbn [filter is_yield]; try exact IH.
    unfold gamma_yields in *. cbn [flat_map]. now rewrite IH. }
  rewrite G, H, <- G. reflexivity.
Qed.

Variable GAMMA_API_KEY : option string.
Variable GAMMA_API_BASE_URL : string.
Variable json_loads : string -> PyExn + Json.
Variable json_dumps : Json -> string.
Variable py_format : Json -> string.
Variable float_plus_one : float -> float.
Variable float_is_zero : float -> bool.

Let call (w : GammaWorld) (response_text : string) : G unit :=
  call_gamma_api GAMMA_API_KEY GAMMA_API_BASE_URL json_loads json_dumps py_format
    float_plus_one float_is_zero w response_text.

Let run_call (w : GammaWorld) (response_text : string) :=
  run_gamma GAMMA_API_KEY GAMMA_API_BASE_URL json_loads json_dumps py_format
    float_plus_one float_is_zero w response_text.

(** The output of the missing-key branch. *)
Definition is_key_report (e : GammaEffect) : bool :=
  match e with
  | GammaYield output =>
      String.eqb output "Error: GAMMA_API_KEY not found in environment"
  | _ => false
  end.

(** With the key set, no output of the handler is the missing-key
    message. *)
Lemma call_never_reports_missing_key (w : GammaWorld) (response_text : string) :
  key_missing GAMMA_API_KEY = false ->
  filter is_key_report (snd (run_call w response_text)) = [].
Proof.
  intros Hkey.
  assert (H : respects (LR := quiet_on is_key_report) (call w response_text)).
  { unfold call, call_gamma_api.
    repeat (apply respects_bind; [solve [respects_tac]|intros ?]).
    rewrite Hkey. respects_tac. }
  exact (H []).
Qed.

(** A computation that yields exactly once when it returns and not at
    all when it raises. *)
Definition yields_once {A : Type} (m : G A) : Prop :=
  forall log,
    match m log with
    | (inr _, log') => exists o, gamma_yields log' = (gamma_yields log ++ [o])%list
    | (inl _, log') => gamma_yields log' = gamma_yields log
    end.

(** A computation that returns, having yielded exactly once. *)
Definition always_once (m : G unit) : Prop :=
  forall log, exists o log',
    m log = (inr tt, log') /\ gamma_yields log' = (gamma_yields log ++ [o])%list.

Lemma yields_once_yield (o : string) : yields_once (g_do (GammaYield o)).
Proof.
  intros log. cbn. exists o. rewrite gamma_yields_app. reflexivity.
Qed.

Lemma always_once_yield (o : string) : always_once (g_do (GammaYield o)).
Proof.
  intros log. exists o. eexists. split; [reflexivity|].
  rewrite gamma_yields_app. reflexivity.
Qed.

Lemma yields_once_bind {A B : Type} (m : G A) (k : A -> G B) :
  respects (LR := quiet_on is_yield) m -> (forall a, yields_once (k a)) ->
  yields_once (g_bind m k).
Proof.
  intros Hm Hk log. pose proof (quiet_yields m log Hm) as Hq.
  unfold g_bind. destruct (m log) as [[e|a] log']; cbn [snd] in Hq.
  - exact Hq.
  - specialize (Hk a log'). destruct (k a log') as [[e|b] log'']; now rewrite <- Hq.
Qed.

Lemma always_once_bind {A : Type} (m : G A) (k : A -> G unit) :
  respects (LR := quiet_on is_yield) m ->
  (forall log, exists a log', m log = (inr a, log')) ->
  (forall a, always_once (k a)) ->
  always_once (g_bind m k).
Proof.
  intros Hm Hret Hk log. pose proof (quiet_yields m log Hm) as Hq.
  destruct (Hret log) as (a & log' & E). unfold g_bind. rewrite E in *.
  cbn [snd] in Hq. destruct (Hk a log') as (o & log'' & E' & Hy).
  exists o, log''. split; [exact E'|]. now rewrite <- Hq.
Qed.

Lemma yields_once_try (m : G unit) (handler : PyExn -> G unit) :
  yields_once m -> (forall e, always_once (handler e)) ->
  yields_once (g_try m handler).
Proof.
  intros Hm Hh log. specialize (Hm log). unfold g_try.
  destruct (m log) as [[e|[]] log']; [|exact Hm].
  destruct (exn_is_Exception e); [|exact Hm].
  destruct (Hh e log') as (o & log'' & -> & Hy).
  exists o. now rewrite <- Hm.
Qed.

Lemma always_once_yields_once (m : G unit) : always_once m -> yields_once m.
Proof.
  intros H log. destruct (H log) as (o & log' & -> & Hy). eauto.
Qed.

Ltac once_step :=
  first
    [ apply yields_once_yield
    | apply yields_once_bind; [solve [respects_tac]|intros ?]
    | match goal with
      | |- yields_once (if ?c then _ else _) => destruct c
      end ].

(** The error handler of the [try] block: one log line and one output. *)
Lemma handler_always_once (title : Json) (e : PyExn) :
  always_once
    (g_bind (g_do (LogError (log_head py_format title ++ "Exception: " ++ exn_message e)))
       (fun _ => g_do (GammaYield ("Exception calling Gamma API: " ++ exn_message e)))).
Proof.
  intros log. eexists. eexists. split; [reflexivity|].
  rewrite !gamma_yields_app. cbn. now rewrite app_nil_r.
Qed.

Lemma call_yields_once (w : GammaWorld) (response_text : string) :
  yields_once (call w response_text).
Proof.
  unfold call, call_gamma_api.
  repeat (apply yields_once_bind; [solve [respects_tac]|intros ?]).
  destruct (key_missing GAMMA_API_KEY); [apply yields_once_yield|].
  apply yields_once_bind; [solve [respects_tac]|intros num_cards].
  apply yields_once_try; [|intros e; apply handler_always_once].
  repeat once_step.
Qed.

(** X2: however the call ends, it never yields twice: a call that returns has
    yielded exactly one output, a call that raises has yielded none. *)
Theorem gamma_one_output_or_raise (w : GammaWorld) (response_text : string) :
  match fst (run_call w response_text) with
  | inr _ => exists o, gamma_yields (snd (run_call w response_text)) = [o]
  | inl _ => gamma_yields (snd (run_call w response_text)) = []
  end.
Proof.
  pose proof (call_yields_once w response_text []) as H.
  unfold run_call, run_gamma. fold (call w response_text).
  destruct (call w response_text []) as [[e|u] log']; exact H.
Qed.

(** A computation that has made no HTTP request when it raises an
    [Exception]. *)
Definition preflight {A : Type} (m : G A) : Prop :=
  forall log e log',
    m log = (inl e, log') ->
    exn_is_Exception e = true ->
    filter is_http log' = filter is_http log.

Lemma preflight_quiet {A : Type} (m : G A) :
  respects (LR := quiet_on is_http) m -> preflight m.
Proof.
  intros Hq log e log' E _. specialize (Hq log). rewrite E in Hq. exact Hq.
Qed.

Lemma preflight_bind {A B : Type} (m : G A) (k : A -> G B) :
  respects (LR := quiet_on is_http) m -> (forall a, preflight (k a)) ->
  preflight (g_bind m k).
Proof.
  intros Hq Hk log e log' E He. unfold g_bind in E.
  specialize (Hq log). cbn [rel quiet_on] in Hq.
  destruct (m log) as [[e1|a] log1] eqn:E1; cbn [snd] in Hq.
  - injection E as <- <-. exact Hq.
  - rewrite (Hk a log1 e log' E He). exact Hq.
Qed.

(** What leaves a [try] block whose handler returns is not an
    [Exception]. *)
Lemma try_lets_through (m : G unit) (handler : PyExn -> G unit) :
  (forall e, always_once (handler e)) ->
  forall log e log',
    g_try m handler log = (inl e, log') -> exn_is_Exception e = false.
Proof.
  intros Hh log e log' E. unfold g_try in E.
  destruct (m log) as [[e1|a] log1]; [|discriminate].
  destruct (exn_is_Exception e1) eqn:He1.
  - destruct (Hh e1 log1) as (o & log'' & E' & _). congruence.
  - injection E as <- <-. exact He1.
Qed.

Lemma call_preflight (w : GammaWorld) (response_text : string) :
  preflight (call w response_text).
Proof.
  unfold call, call_gamma_api.
  repeat (apply preflight_bind; [solve [respects_tac]|intros ?]).
  destruct (key_missing GAMMA_API_KEY); [apply preflight_quiet; respects_tac|].
  apply preflight_bind; [solve [respects_tac]|intros num_cards].
  intros log e log' E He.
  apply try_lets_through in E; [congruence|].
  intros e'. apply handler_always_once.
Qed.

(** X3: a call that raises has yielded no output, and when what it raises
    is an [Exception] it has made no HTTP request: the exception comes from
    the statements before the [try] block, since every [Exception] raised
    once the requests have begun is caught and reported as the output.  Only
    an exception that is not an [Exception] (an interrupt, a cancellation)
    can leave the call after a request. *)
Theorem gamma_raises_only_before_http (w : GammaWorld) (response_text : string)
    (e : PyExn) (effects : list GammaEffect) :
  run_call w response_text = (inl e, effects) ->
  gamma_yields effects = []
  /\ (exn_is_Exception e = true -> filter is_http effects = [])
  /\ (filter is_http effects <> [] -> exn_is_Exception e = false).
Proof.
  intros E.
  assert (Hpre : exn_is_Exception e = true -> filter is_http effects = [])
    by exact (call_preflight w response_text [] e effects E).
  split; [|split; [exact Hpre|]].
  - pose proof (call_yields_once w response_text []) as H.
    unfold run_call, run_gamma in E. fold (call w response_text) in E.
    rewrite E in H. exact H.
  - intros Hhttp. destruct (exn_is_Exception e); [|reflexivity].
    now specialize (Hpre eq_refl).
Qed.

(** A request the handler takes as far as the [try] block: the key is
    set, the text is a JSON object with a string title and an integer
    number of slides (given or defaulted), and the debug file can be
    written. *)
Definition accepted (w : GammaWorld) (response_text : string)
    (d : list (string * Json)) (title : string) (n : Z) : Prop :=
  key_missing GAMMA_API_KEY = false
  /\ json_loads response_text = inr (JDict d)
  /\ dict_lookup d "title" (JStr "Untitled Presentation") = JStr title
  /\ dict_lookup d "number_of_slides" (JInt 5) = JInt n
  /\ open_error w (replace_char " " "_" title ++ "_response.json") = None.

(** The POST the handler sends for an accepted request. *)
Definition generation_post (response_text : string) (d : list (string * Json)) (n : Z)
    : GammaEffect :=
  HttpPost (GAMMA_API_BASE_URL ++ "/generations")
    (gamma_payload response_text (JInt (n + 1))
       (dict_lookup d "audience" (JStr "general"))).

Lemma g_bind_reraise {A B : Type} (e : PyExn) (k : A -> G B) (log : list GammaEffect) :
  g_bind (g_reraise e) k log = (inl e, log).
Proof. reflexivity. Qed.

Ltac gamma_prefix Hacc :=
  let Hkey := fresh "Hkey" in
  let Hjson := fresh "Hjson" in
  let Htitle := fresh "Htitle" in
  let Hn := fresh "Hn" in
  let Hwrite := fresh "Hwrite" in
  destruct Hacc as (Hkey & Hjson & Htitle & Hn & Hwrite);
  unfold run_call, run_gamma, call_gamma_api;
  rewrite Hjson; cbv iota; rewrite g_bind_ret; unfold py_get;
  rewrite !g_bind_ret, Htitle, Hn;
  rewrite g_bind_do; unfold py_replace_spaces; rewrite g_bind_ret;
  unfold write_file; rewrite Hwrite; cbv iota; rewrite g_bind_do, Hkey;
  unfold py_add_one; rewrite g_bind_ret.


(** X5: A POST answered with a status other than 200 and 201 ends the call at
    once: the handler yields the API error with the status and the body and
    makes no further request. *)
Theorem gamma_post_rejected (w : GammaWorld) (response_text : string)
    (d : list (string * Json)) (title : string) (n : Z) (r : HttpResponse) :
  accepted w response_text d title n ->
  post_answer w = inr r ->
  status_code r <> 200 -> status_code r <> 201 ->
  exists effects,
    run_call w response_text = (inr tt, effects)
    /\ gamma_yields effects
       = ["Gamma API Error: " ++ str (status_code r) ++ " - " ++ text r]
    /\ filter is_http effects = [generation_post response_text d n].
Proof.
  intros Hacc Hpost H200 H201. gamma_prefix Hacc.
  unfold g_try. rewrite g_bind_do, Hpost. cbn [answer]. rewrite g_bind_ret.
  apply Z.eqb_neq in H200, H201. rewrite H200, H201. cbn [orb negb].
  rewrite g_bind_do. unfold g_do.
  eexists. split; [reflexivity|]. split; reflexivity.
Qed.

(** X6: a POST that raises an [Exception] (no connection, a timeout) does
    not make the call raise: the handler yields the message of the
    exception.  A POST that raises anything else (an interrupt, a
    cancellation) is not caught: the call raises it and yields nothing.  In
    both cases the POST is the only request. *)
Theorem gamma_post_exception (w : GammaWorld) (response_text : string)
    (d : list (string * Json)) (title : string) (n : Z) (e : PyExn) :
  accepted w response_text d title n ->
  post_answer w = inl e ->
  exists effects,
    (if exn_is_Exception e
     then run_call w response_text = (inr tt, effects)
          /\ gamma_yields effects = ["Exception calling Gamma API: " ++ exn_message e]
     else run_call w response_text = (inl e, effects)
          /\ gamma_yields effects = [])
    /\ filter is_http effects = [generation_post response_text d n].
Proof.
  intros Hacc Hpost. gamma_prefix Hacc.
  unfold g_try. rewrite g_bind_do, Hpost. cbn [answer]. rewrite g_bind_reraise.
  destruct (exn_is_Exception e).
  - rewrite g_bind_do. unfold g_do.
    eexists. split; [split|]; reflexivity.
  - eexists. split; [split|]; reflexivity.
Qed.

(** ** Polling *)

Definition poll_url (generation_id : Json) : string :=
  GAMMA_API_BASE_URL ++ "/generations/" ++ py_format generation_id.

(** An answer that keeps the loop going: a status other than 200, or a
    200 whose body is an object with a status other than "completed". *)
Definition pending (a : PyExn + HttpResponse) : bool :=
  match a with
  | inl _ => false
  | inr r =>
      if status_code r =? 200
      then match json_body r with
           | inr (JDict d) => negb (is_completed (dict_lookup d "status" JNull))
           | _ => false
           end
      else true
  end.

(** A 200 answer whose body [d] reports the status "completed". *)
Definition completed (r : HttpResponse) (d : list (string * Json)) : Prop :=
  status_code r = 200
  /\ json_body r = inr (JDict d)
  /\ dict_lookup d "status" JNull = JStr "completed".

(** What one turn on a pending answer adds to the log. *)
Definition pending_trace (generation_id : Json) (seconds : Z) (a : PyExn + HttpResponse)
    : list GammaEffect :=
  match a with
  | inr r =>
      if status_code r =? 200
      then match json_body r with
           | inr (JDict d) =>
               [ HttpGet (poll_url generation_id);
                 LogInfo ("GAMMA - GET /generations/" ++ py_format generation_id
                            ++ " - Status: "
                            ++ py_format (dict_lookup d "status" JNull)
                            ++ " (" ++ str seconds ++ "s)");
                 SleepSeconds 5 ]
           | _ => [HttpGet (poll_url generation_id); SleepSeconds 5]
           end
      else [HttpGet (poll_url generation_id); SleepSeconds 5]
  | inl _ => [HttpGet (poll_url generation_id); SleepSeconds 5]
  end.

(** What the turns from [turn] on add on pending answers. *)
Fixpoint pending_traces (generation_id : Json) (elapsed : nat -> Z) (turn : nat)
    (answers : list (PyExn + HttpResponse)) : list GammaEffect :=
  match answers with
  | [] => []
  | a :: answers' =>
      (pending_trace generation_id (elapsed turn) a
         ++ pending_traces generation_id elapsed (S turn) answers')%list
  end.

(** The requests and the sleeps of a log, in order. *)
Definition is_request_or_sleep (e : GammaEffect) : bool :=
  match e with
  | HttpPost _ _ | HttpGet _ | SleepSeconds _ => true
  | _ => false
  end.

(** [n] turns of the loop that each make the GET and then sleep. *)
Fixpoint poll_rounds (generation_id : Json) (n : nat) : list GammaEffect :=
  match n with
  | O => []
  | S n' => HttpGet (poll_url generation_id) :: SleepSeconds 5
              :: poll_rounds generation_id n'
  end.

Lemma poll_turn_pending (generation_id : Json) (seconds : Z) (a : PyExn + HttpResponse)
    (again : G Json) (log : list GammaEffect) :
  pending a = true ->
  poll_turn GAMMA_API_BASE_URL py_format generation_id seconds a again log
  = again (log ++ pending_trace generation_id seconds a)%list.
Proof.
  intros Hp. unfold poll_turn, pending_trace, poll_url.
  destruct a as [e|r]; [discriminate|]. cbn [pending] in Hp.
  rewrite g_bind_do. cbn [answer]. rewrite g_bind_ret.
  destruct (status_code r =? 200).
  - unfold response_json. destruct (json_body r) as [e|[| | | | | |d]]; try discriminate.
    rewrite g_bind_ret. cbn [py_get]. rewrite g_bind_ret.
    destruct (is_completed (dict_lookup d "status" JNull)); [discriminate|].
    rewrite !g_bind_do, <- !app_assoc. reflexivity.
  - rewrite g_bind_do, <- app_assoc. reflexivity.
Qed.

Lemma poll_turn_completed (generation_id : Json) (seconds : Z) (r : HttpResponse)
    (d : list (string * Json)) (again : G Json) (log : list GammaEffect) :
  completed r d ->
  poll_turn GAMMA_API_BASE_URL py_format generation_id seconds (inr r) again log
  = (inr (JDict d),
     (log ++ [ HttpGet (poll_url generation_id);
               LogInfo ("GAMMA - GET /generations/" ++ py_format generation_id
                          ++ " - Status: completed") ])%list).
Proof.
  intros (Hst & Hbody & Hdone). unfold poll_turn, poll_url.
  rewrite g_bind_do. cbn [answer]. rewrite g_bind_ret, Hst. cbn [Z.eqb Pos.eqb].
  unfold response_json. rewrite Hbody, g_bind_ret. cbn [py_get].
  rewrite g_bind_ret, Hdone. cbn [is_completed String.eqb Ascii.eqb Bool.eqb].
  rewrite g_bind_do, <- app_assoc. reflexivity.
Qed.

Definition timeout_error : PyExn :=
  {| exn_class := "TimeoutError";
     exn_message := "Presentation generation timed out after 300 seconds";
     exn_is_Exception := true |}.

Lemma poll_loop_pending (generation_id : Json) (elapsed : nat -> Z)
    (before : list (PyExn + HttpResponse)) (rest : list (PyExn + HttpResponse)) :
  forallb pending before = true ->
  forall turn log,
    poll_loop GAMMA_API_BASE_URL py_format generation_id elapsed turn (before ++ rest) log
    = poll_loop GAMMA_API_BASE_URL py_format generation_id elapsed
        (turn + List.length before) rest
        (log ++ pending_traces generation_id elapsed turn before)%list.
Proof.
  induction before as [|a before IH]; intros Hall turn log.
  - cbn. now rewrite app_nil_r, Nat.add_0_r.
  - cbn [forallb] in Hall. apply andb_prop in Hall as [Ha Hall].
    cbn [List.app pending_traces List.length].
    rewrite poll_loop_cons, poll_turn_pending by assumption.
    rewrite IH by assumption. now rewrite <- app_assoc, Nat.add_succ_r.
Qed.

Lemma pending_trace_steps (generation_id : Json) (seconds : Z)
    (a : PyExn + HttpResponse) :
  filter is_request_or_sleep (pending_trace generation_id seconds a)
  = [HttpGet (poll_url generation_id); SleepSeconds 5].
Proof.
  unfold pending_trace.
  destruct a as [e|r]; [reflexivity|].
  destruct (status_code r =? 200); [|reflexivity].
  destruct (json_body r) as [e|[| | | | | |d]]; reflexivity.
Qed.

Lemma pending_traces_steps (generation_id : Json) (elapsed : nat -> Z)
    (l : list (PyExn + HttpResponse)) :
  forall turn,
    filter is_request_or_sleep (pending_traces generation_id elapsed turn l)
    = poll_rounds generation_id (List.length l).
Proof.
  induction l as [|a l IH]; intros turn; [reflexivity|].
  cbn [pending_traces List.length poll_rounds].
  now rewrite filter_app, IH, pending_trace_steps.
Qed.

Lemma pending_traces_http (generation_id : Json) (elapsed : nat -> Z)
    (l : list (PyExn + HttpResponse)) :
  forall turn,
    filter is_http (pending_traces generation_id elapsed turn l)
    = repeat (HttpGet (poll_url generation_id)) (List.length l).
Proof.
  induction l as [|a l IH]; intros turn; [reflexivity|].
  cbn [pending_traces List.length repeat]. rewrite filter_app, IH.
  unfold pending_trace.
  destruct a as [e|r]; [reflexivity|].
  destruct (status_code r =? 200); [|reflexivity].
  destruct (json_body r) as [e|[| | | | | |d]]; reflexivity.
Qed.

Lemma slept_app (l1 l2 : list GammaEffect) : slept (l1 ++ l2) = slept l1 + slept l2.
Proof.
  induction l1 as [|e l1 IH]; [reflexivity|].
  cbn [List.app slept fold_right]. fold (slept (l1 ++ l2)). fold (slept l1).
  destruct e; lia.
Qed.

Lemma pending_traces_slept (generation_id : Json) (elapsed : nat -> Z)
    (l : list (PyExn + HttpResponse)) :
  forall turn,
    slept (pending_traces generation_id elapsed turn l) = 5 * Z.of_nat (List.length l).
Proof.
  induction l as [|a l IH]; intros turn; [reflexivity|].
  cbn [pending_traces List.length]. rewrite slept_app, IH.
  replace (slept (pending_trace generation_id (elapsed turn) a)) with 5; [lia|].
  unfold pending_trace.
  destruct a as [e|r]; [reflexivity|].
  destruct (status_code r =? 200); [|reflexivity].
  destruct (json_body r) as [e|[| | | | | |d]]; reflexivity.
Qed.

(** X7: when no answer reports completion before [max_wait] has elapsed the
    polling raises [TimeoutError], having made one GET per answer and slept
    five seconds after each: its requests and sleeps are one GET followed
    by one sleep of five seconds, per answer. *)
Theorem poll_times_out (generation_id : Json) (elapsed : nat -> Z)
    (answers : list (PyExn + HttpResponse)) (log : list GammaEffect) :
  forallb pending answers = true ->
  exists log',
    _poll_for_completion GAMMA_API_BASE_URL py_format generation_id elapsed answers log
    = (inl timeout_error, log')
    /\ filter is_http log'
       = (filter is_http log
            ++ repeat (HttpGet (poll_url generation_id)) (List.length answers))%list
    /\ slept log' = slept log + 5 * Z.of_nat (List.length answers)
    /\ filter is_request_or_sleep log'
       = (filter is_request_or_sleep log
            ++ poll_rounds generation_id (List.length answers))%list.
Proof.
  intros Hall. unfold _poll_for_completion. rewrite g_bind_do.
  rewrite <- (app_nil_r answers), poll_loop_pending by assumption.
  cbn [poll_loop]. unfold g_raise. fold timeout_error.
  eexists. split; [reflexivity|]. rewrite app_nil_r. split; [|split].
  - rewrite !filter_app, pending_traces_http. cbn [filter is_http].
    now rewrite app_nil_r.
  - rewrite !slept_app, pending_traces_slept. cbn. lia.
  - rewrite !filter_app, pending_traces_steps. cbn [filter is_request_or_sleep].
    now rewrite app_nil_r.
Qed.

(* The polling returns the first completed answer. *)
Lemma poll_loop_completion (generation_id : Json) (elapsed : nat -> Z)
    (before rest : list (PyExn + HttpResponse)) (r : HttpResponse)
    (d : list (string * Json)) (log : list GammaEffect) :
  forallb pending before = true ->
  completed r d ->
  _poll_for_completion GAMMA_API_BASE_URL py_format generation_id elapsed
    (before ++ inr r :: rest) log
  = (inr (JDict d),
     ((log ++ [LogInfo ("GAMMA - GET /generations/" ++ py_format generation_id
                          ++ " - Polling started (max wait: 300s)")])
        ++ pending_traces generation_id elapsed 0 before
        ++ [ HttpGet (poll_url generation_id);
             LogInfo ("GAMMA - GET /generations/" ++ py_format generation_id
                        ++ " - Status: completed") ])%list).
Proof.
  intros Hall Hdone. unfold _poll_for_completion. rewrite g_bind_do.
  rewrite poll_loop_pending by assumption.
  rewrite poll_loop_cons, (poll_turn_completed _ _ _ d) by assumption.
  now rewrite <- !app_assoc.
Qed.

(** X8: the polling stops at the first answer that reports completion: it
    returns that answer's body after one GET per answer up to it, and never
    looks at the answers after it. *)
Theorem poll_stops_at_completion (generation_id : Json) (elapsed : nat -> Z)
    (before rest : list (PyExn + HttpResponse)) (r : HttpResponse)
    (d : list (string * Json)) (log : list GammaEffect) :
  forallb pending before = true ->
  completed r d ->
  exists log',
    _poll_for_completion GAMMA_API_BASE_URL py_format generation_id elapsed
      (before ++ inr r :: rest) log
    = (inr (JDict d), log')
    /\ filter is_http log'
       = (filter is_http log
            ++ repeat (HttpGet (poll_url generation_id)) (S (List.length before)))%list
    /\ slept log' = slept log + 5 * Z.of_nat (List.length before).
Proof.
  intros Hall Hdone. unfold _poll_for_completion. rewrite g_bind_do.
  rewrite poll_loop_pending by assumption.
  rewrite poll_loop_cons, (poll_turn_completed _ _ _ d) by assumption.
  eexists. split; [reflexivity|]. split.
  - rewrite !filter_app, pending_traces_http. cbn [filter is_http].
    rewrite app_nil_r, <- app_assoc. f_equal.
    rewrite <- repeat_cons. reflexivity.
  - rewrite !slept_app, pending_traces_slept. cbn. lia.
Qed.

(** X9: whatever the answers, a polling that returns gives back a JSON object
    whose status is "completed". *)
Theorem poll_returns_completed (generation_id : Json) (elapsed : nat -> Z)
    (answers : list (PyExn + HttpResponse)) (log log' : list GammaEffect) (data : Json) :
  _poll_for_completion GAMMA_API_BASE_URL py_format generation_id elapsed answers log
  = (inr data, log') ->
  exists d, data = JDict d /\ dict_lookup d "status" JNull = JStr "completed".
Proof.
  unfold _poll_for_completion. rewrite g_bind_do.
  generalize (log ++ [LogInfo ("GAMMA - GET /generations/" ++ py_format generation_id
                                 ++ " - Polling started (max wait: 300s)")])%list.
  generalize 0%nat.
  induction answers as [|a answers IH]; intros turn l H; [discriminate H|].
  rewrite poll_loop_cons in H. unfold poll_turn in H. rewrite g_bind_do in H.
  destruct a as [e|r]; [discriminate H|]. cbn [answer] in H. rewrite g_bind_ret in H.
  destruct (status_code r =? 200).
  - unfold response_json in H.
    destruct (json_body r) as [e|[| | | | | |d]]; try discriminate H.
    rewrite g_bind_ret in H. cbn [py_get] in H. rewrite g_bind_ret in H.
    destruct (is_completed (dict_lookup d "status" JNull)) eqn:Hc.
    + rewrite g_bind_do in H. injection H as <- _. exists d. split; [reflexivity|].
      destruct (dict_lookup d "status" JNull); try discriminate Hc.
      cbn [is_completed] in Hc. apply String.eqb_eq in Hc. now subst.
    + rewrite !g_bind_do in H. exact (IH _ _ H).
  - rewrite g_bind_do in H. exact (IH _ _ H).
Qed.

(** ** Download and the complete exchange *)


(** The message the handler yields when the presentation was made, with
    the characters its literal holds in the source file. *)
Definition success_message (generation_id pdf_url : Json) (pdf_path : string) : string :=
  "âœ“ Presentation created successfully!" ++ newline
    ++ "Generation ID: " ++ py_format generation_id ++ newline
    ++ "PDF URL: " ++ py_format pdf_url ++ newline
    ++ "PDF saved to: " ++ pdf_path.

Lemma pending_traces_quiet (f : GammaEffect -> bool) (generation_id : Json)
    (elapsed : nat -> Z) (l : list (PyExn + HttpResponse)) :
  (forall url, f (HttpGet url) = false) ->
  (forall message, f (LogInfo message) = false) ->
  (forall seconds, f (SleepSeconds seconds) = false) ->
  forall turn, filter f (pending_traces generation_id elapsed turn l) = [].
Proof.
  intros Hget Hlog Hsleep.
  induction l as [|a l IH]; intros turn; [reflexivity|].
  cbn [pending_traces]. rewrite filter_app, IH, app_nil_r.
  unfold pending_trace. destruct a as [e|r]; cbn [filter]; rewrite ?Hget, ?Hsleep; auto.
  destruct (status_code r =? 200); cbn [filter]; rewrite ?Hget, ?Hsleep; auto.
  destruct (json_body r) as [e|[| | | | | |x]]; cbn [filter];
    rewrite ?Hget, ?Hsleep, ?Hlog; auto.
Qed.


End GammaMore.

(* ================================================================== *)
(** * The function middleware *)
(* ================================================================== *)

Section MiddlewareFacts.
Context {PF : PyFloat}.

Lemma py_len_take (s : string) :
  forall n, py_len (str_take n s) = Nat.min n (py_len s).
Proof.
  induction s as [|c s IH]; intros n; cbn [str_take py_len].
  - now rewrite Nat.min_0_r.
  - destruct (is_continuation c) eqn:Hc.
    + cbn [py_len]. rewrite Hc. apply IH.
    + destruct n as [|n]; [reflexivity|].
      cbn [py_len]. rewrite Hc, IH. reflexivity.
Qed.

Lemma str_take_all (s : string) :
  forall n, (py_len s <= n)%nat -> str_take n s = s.
Proof.
  induction s as [|c s IH]; intros n H; cbn [str_take py_len] in *; [reflexivity|].
  destruct (is_continuation c).
  - now rewrite IH.
  - destruct n as [|n]; [lia|]. rewrite IH by lia. reflexivity.
Qed.

Lemma str_take_prefix (s : string) :
  forall n, exists rest, s = str_take n s ++ rest.
Proof.
  induction s as [|c s IH]; intros n; cbn [str_take]; [now exists EmptyString|].
  destruct (is_continuation c).
  - destruct (IH n) as (rest & E). exists rest. cbn [append]. now rewrite <- E.
  - destruct n as [|n]; [now exists (String c s)|].
    destruct (IH n) as (rest & E). exists rest. cbn [append]. now rewrite <- E.
Qed.

Lemma replace_char_append (from to : ascii) (a b : string) :
  replace_char from to (a ++ b) = replace_char from to a ++ replace_char from to b.
Proof. induction a as [|c a IH]; cbn; [reflexivity|now rewrite IH]. Qed.

Lemma py_len_replace (from to : ascii) (s : string) :
  is_continuation from = false -> is_continuation to = false ->
  py_len (replace_char from to s) = py_len s.
Proof.
  intros Hfrom Hto. induction s as [|c s IH]; cbn [replace_char py_len]; [reflexivity|].
  destruct (Ascii.eqb_spec c from) as [->|Hne]; rewrite IH; [|reflexivity].
  now rewrite Hfrom, Hto.
Qed.

Lemma replace_char_absent (from to : ascii) (s : string) :
  from <> to -> ~ In from (list_ascii_of_string (replace_char from to s)).
Proof.
  intros Hne. induction s as [|c s IH]; cbn; [tauto|].
  intros [E|H]; [|contradiction].
  destruct (Ascii.eqb_spec c from); congruence.
Qed.

Lemma replace_char_id (from to : ascii) (s : string) :
  ~ In from (list_ascii_of_string s) -> replace_char from to s = s.
Proof.
  induction s as [|c s IH]; cbn; intros H; [reflexivity|].
  destruct (Ascii.eqb_spec c from) as [->|Hne]; [tauto|].
  rewrite IH by tauto. reflexivity.
Qed.

(** X12: the function middleware logs the invocation before it runs the
    function.  When the function returns it logs one result line, in which
    the result is cut to its first 100 characters with every newline turned
    into a space: the logged preview has [min(100, len(result))]
    characters, holds no newline, and begins the result with its newlines
    turned into spaces; a result of at most 100 characters on one line is
    logged as it is.  When the function raises, the exception passes through
    and no result line is logged. *)
Theorem middleware_preview (function_name : string) (next : G string)
    (log : list GammaEffect) :
  let invoked := LogInfo ("FUNCTION - " ++ dquote ++ function_name ++ dquote
                            ++ " - Invoked") in
  match next (log ++ [invoked])%list with
  | (inr result_text, log') =>
      logging_function_middleware function_name next log
      = (inr tt,
         (log' ++ [LogInfo ("FUNCTION - " ++ dquote ++ function_name ++ dquote
                              ++ " - Result: " ++ result_preview result_text)])%list)
      /\ py_len (result_preview result_text) = Nat.min 100 (py_len result_text)
      /\ ~ In (ascii_of_nat 10) (list_ascii_of_string (result_preview result_text))
      /\ (exists rest,
            replace_char (ascii_of_nat 10) " " result_text
            = result_preview result_text ++ rest)
      /\ ((py_len result_text <= 100)%nat ->
          ~ In (ascii_of_nat 10) (list_ascii_of_string result_text) ->
          result_preview result_text = result_text)
  | (inl e, log') =>
      logging_function_middleware function_name next log = (inl e, log')
  end.
Proof.
  cbv zeta. unfold logging_function_middleware. rewrite g_bind_do.
  unfold g_bind. destruct (next _) as [[e|result_text] log']; [reflexivity|].
  split; [reflexivity|]. unfold result_preview. split; [|split; [|split]].
  - rewrite py_len_replace by reflexivity. apply py_len_take.
  - apply replace_char_absent. discriminate.
  - destruct (str_take_prefix result_text 100) as (rest & E).
    exists (replace_char (ascii_of_nat 10) " " rest).
    rewrite <- replace_char_append, <- E. reflexivity.
  - intros Hlen Hnl. rewrite str_take_all by assumption. now apply replace_char_id.
Qed.

End MiddlewareFacts.

(* ================================================================== *)
(** * Totals of the fan-out workflow *)
(* ================================================================== *)

Section TotalFacts.
Context {PF : PyFloat}.

Lemma total_output_of_perm (rs rs' : list WorkerResult) :
  Permutation rs rs' -> total_output_of rs = total_output_of rs'.
Proof.
  induction 1 as [|r l l' _ IH|r1 r2 l|l1 l2 l3 _ IH1 _ IH2];
    unfold total_output_of in *; cbn [fold_right] in *; lia.
Qed.

(** X13: the order in which the results arrive changes the order of the result
    lines and nothing else: the aggregator's loop ends with the same total,
    and so the same footer, for every permutation of the results, and the
    result lines are a permutation of each other. *)
Theorem aggregate_total_order_independent (rs rs' : list WorkerResult) :
  Permutation rs rs' ->
  snd (aggregate_loop rs (summary_header, 0)) = snd (aggregate_loop rs' (summary_header, 0))
  /\ summary_footer (snd (aggregate_loop rs (summary_header, 0)))
     = summary_footer (snd (aggregate_loop rs' (summary_header, 0)))
  /\ Permutation (fst (aggregate_loop rs (summary_header, 0)))
       (fst (aggregate_loop rs' (summary_header, 0))).
Proof.
  intros Hperm. rewrite !aggregate_loop_spec. cbn [fst snd].
  rewrite (total_output_of_perm rs rs' Hperm).
  split; [reflexivity|]. split; [reflexivity|].
  apply Permutation_app_head, Permutation_map, Hperm.
Qed.

Lemma total_output_of_bounds (lo hi : Z) (rs : list WorkerResult) :
  Forall (fun r => lo <= output_value r <= hi) rs ->
  Z.of_nat (List.length rs) * lo <= total_output_of rs
  <= Z.of_nat (List.length rs) * hi.
Proof.
  induction 1 as [|r rs Hr _ IH]; [cbn; lia|].
  unfold total_output_of in *. cbn [fold_right List.length].
  rewrite Nat2Z.inj_succ. lia.
Qed.

Lemma worker_result_range (id : string) (v : Z) (o : Oracle) :
  0 <= v ->
  v <= output_value (worker_result id v o) <= 5 * v + 10.
Proof.
  intros Hv. cbn [worker_result output_value].
  pose proof (randint_of_range (o_rand o 0) 1 5 ltac:(lia)) as Hf.
  pose proof (randint_of_range (o_rand o 1) 0 10 ltac:(lia)) as Hr.
  fold (worker_factor o) in Hf. fold (worker_noise o) in Hr.
  generalize dependent (worker_factor o). generalize dependent (worker_noise o).
  intros r Hr f Hf.
  assert (0 <= v * (f - 1)) by (apply Z.mul_nonneg_nonneg; lia).
  assert (0 <= v * (5 - f)) by (apply Z.mul_nonneg_nonneg; lia).
  lia.
Qed.

(* The summary of a completed run: the results in their arrival order. *)
Lemma run_summary (N v : Z) (env : nat -> Oracle) (schedule : list nat) :
  1 <= N -> 0 <= v <= 10 ->
  (4 * Z.to_nat N + 7 <= List.length schedule)%nat ->
  exists js,
    Permutation js (seq 0 (Z.to_nat N))
    /\ x_status (run (demo_graph N) env (VInt v) schedule)
       = Completed (aggregate_final_output (map (wres env v) js))
    /\ outputs (run (demo_graph N) env (VInt v) schedule)
       = [aggregate_final_output (map (wres env v) js)].
Proof.
  intros HN Hv Hlen.
  destruct (run_completes N env v schedule ltac:(lia) ltac:(lia) Hlen)
    as (js & h & Hperm & Hs & _).
  exists js. split; [exact Hperm|].
  assert (Hst : x_status (run (demo_graph N) env (VInt v) schedule)
                = Completed (aggregate_final_output (map (wres env v) js)))
    by (rewrite Hs; reflexivity).
  split; [exact Hst|].
  pose proof (run_output_inv (demo_graph N) env (VInt v) schedule) as Hinv.
  unfold output_inv in Hinv. now rewrite Hst in Hinv.
Qed.

(** X14: end to end: with [N >= 1] workers and an input [0 <= v <= 10], every
    schedule that runs the workflow to its end completes with the
    aggregator's summary of [N] results, one per worker, each computed from
    the input [v]; the reported total lies between [N * v] and
    [N * (5 * v + 10)]. *)
Theorem run_total_bounds (N v : Z) (env : nat -> Oracle) (schedule : list nat) :
  1 <= N -> 0 <= v <= 10 ->
  (4 * Z.to_nat N + 7 <= List.length schedule)%nat ->
  exists g rs,
    create_conditional_fan_out_workflow N = inr g
    /\ x_status (run g env (VInt v) schedule) = Completed (aggregate_final_output rs)
    /\ outputs (run g env (VInt v) schedule) = [aggregate_final_output rs]
    /\ Z.of_nat (List.length rs) = N
    /\ Permutation (map worker_id rs) (worker_names N)
    /\ Forall (fun r => input_value r = v /\ v <= output_value r <= 5 * v + 10) rs
    /\ N * v <= total_output_of rs <= N * (5 * v + 10).
Proof.
  intros HN Hv Hlen.
  destruct (run_summary N v env schedule HN Hv Hlen) as (js & Hperm & Hst & Hout).
  exists (demo_graph N), (map (wres env v) js).
  split; [apply create_conditional_fan_out_workflow_graph|].
  split; [exact Hst|]. split; [exact Hout|].
  assert (Hlenjs : Z.of_nat (List.length (map (wres env v) js)) = N).
  { rewrite length_map, (Permutation_length Hperm), length_seq. lia. }
  split; [exact Hlenjs|]. split.
  { rewrite map_map. cbn [wres worker_result worker_id].
    rewrite worker_names_seq. now apply Permutation_map. }
  assert (Hall : Forall (fun r => input_value r = v /\ v <= output_value r <= 5 * v + 10)
                   (map (wres env v) js)).
  { apply Forall_forall. intros r Hr. apply in_map_iff in Hr as (j & <- & _).
    split; [reflexivity|]. apply worker_result_range. lia. }
  split; [exact Hall|].
  rewrite <- Hlenjs. apply total_output_of_bounds.
  eapply Forall_impl; [|exact Hall]. cbv beta. tauto.
Qed.

(** X15: the loop of [main] builds the workflow with as many workers as the
    input and submits the input.  For an input from 1 to 10 the run
    completes with a single output, the summary of that many results; for
    an input above 10 the guarded edge drops it and the run halts without
    output after the checkpoint, no other node being invoked. *)
Theorem run_with_input_as_width (k : Z) (env : nat -> Oracle) (schedule : list nat) :
  1 <= k ->
  (4 * Z.to_nat k + 8 <= List.length schedule)%nat ->
  exists g,
    create_conditional_fan_out_workflow k = inr g
    /\ let s := run g env (VInt k) schedule in
       (k <= 10 ->
        exists rs, x_status s = Completed (aggregate_final_output rs)
                   /\ outputs s = [aggregate_final_output rs]
                   /\ Z.of_nat (List.length rs) = k)
       /\ (10 < k ->
           x_status s = Halted /\ outputs s = []
           /\ x_invoked s = [("checkpoint", VInt k)]).
Proof.
  intros Hpos Hlen. exists (demo_graph k).
  split; [apply create_conditional_fan_out_workflow_graph|]. cbv zeta.
  split.
  - intros Hk.
    destruct (run_summary k k env schedule ltac:(lia) ltac:(lia) ltac:(lia))
      as (js & Hperm & Hst & Hout).
    exists (map (wres env k) js). split; [exact Hst|]. split; [exact Hout|].
    rewrite length_map, (Permutation_length Hperm), length_seq. lia.
  - intros Hk.
    destruct schedule as [|c1 [|c2 [|c3 schedule]]]; try (cbn in Hlen; lia).
    rewrite run_rejected by lia. repeat split; reflexivity.
Qed.

End TotalFacts.

(* ================================================================== *)
(** * The search tool *)
(* ================================================================== *)

Section SearchFacts.
Context {PF : PyFloat}.
Variable tavily_client : option (nat -> string -> PyExn + Json).

(** The dicts under the keys "results" and "errors" of an output. *)
Definition output_results (out : Json) : list (string * Json) :=
  match out with
  | JDict o => match dict_lookup o "results" JNull with JDict a => a | _ => [] end
  | _ => []
  end.

Definition output_errors (out : Json) : list (string * Json) :=
  match out with
  | JDict o => match dict_lookup o "errors" JNull with JDict e => e | _ => [] end
  | _ => []
  end.

Lemma dict_set_keys (d : list (string * Json)) (q k : string) (x : Json) :
  In k (map fst (dict_set d q x)) <-> k = q \/ In k (map fst d).
Proof.
  induction d as [|[k' y] d IH]; cbn [dict_set map fst In].
  - intuition congruence.
  - destruct (String.eqb_spec k' q) as [->|Hne]; cbn [map fst In].
    + intuition congruence.
    + rewrite IH. intuition congruence.
Qed.

Lemma dict_set_NoDup (d : list (string * Json)) (q : string) (x : Json) :
  NoDup (map fst d) -> NoDup (map fst (dict_set d q x)).
Proof.
  induction d as [|[k' y] d IH]; cbn [dict_set map fst]; intros H.
  - repeat constructor. intros [].
  - inversion H as [|? ? Hk Hd]; subst.
    destruct (String.eqb_spec k' q) as [->|Hne]; cbn [map fst].
    + now constructor.
    + constructor; [|now apply IH].
      rewrite dict_set_keys. intros [E|E]; [congruence|contradiction].
Qed.

Lemma dict_set_length (d : list (string * Json)) (q : string) (x : Json) :
  (List.length (dict_set d q x) <= S (List.length d))%nat.
Proof.
  induction d as [|[k' y] d IH]; cbn [dict_set List.length]; [lia|].
  destruct (String.eqb k' q); cbn [List.length]; lia.
Qed.

Lemma dict_lookup_set_same (d : list (string * Json)) (q : string) (x def : Json) :
  dict_lookup (dict_set d q x) q def = x.
Proof.
  unfold dict_lookup. induction d as [|[k' y] d IH]; cbn [dict_set find fst].
  - now rewrite String.eqb_refl.
  - destruct (String.eqb_spec k' q) as [->|Hne]; cbn [find fst].
    + now rewrite String.eqb_refl.
    + apply String.eqb_neq in Hne. rewrite Hne. exact IH.
Qed.

Lemma dict_lookup_set_other (d : list (string * Json)) (q k : string) (x def : Json) :
  q <> k -> dict_lookup (dict_set d q x) k def = dict_lookup d k def.
Proof.
  intros Hqk. unfold dict_lookup.
  induction d as [|[k' y] d IH]; cbn [dict_set find fst].
  - apply String.eqb_neq in Hqk. now rewrite Hqk.
  - destruct (String.eqb_spec k' q) as [->|Hne]; cbn [find fst].
    + apply String.eqb_neq in Hqk. now rewrite Hqk.
    + destruct (String.eqb k' k); [reflexivity|exact IH].
Qed.

Lemma dict_lookup_absent (d : list (string * Json)) (k : string) (def : Json) :
  ~ In k (map fst d) -> dict_lookup d k def = def.
Proof.
  unfold dict_lookup. induction d as [|[k' y] d IH]; cbn [find fst map In]; intros H.
  - reflexivity.
  - destruct (String.eqb_spec k' k) as [->|Hne]; [tauto|]. apply IH. tauto.
Qed.

(** One turn of the loop over the search results. *)
Definition aggregate_step (acc : list (string * Json) * list (string * Json))
    (result : SearchResult) : list (string * Json) * list (string * Json) :=
  if has_error result
  then (dict_set (fst acc) (sr_query result) (JList []),
        dict_set (snd acc) (sr_query result) (JStr (error_text result)))
  else (dict_set (fst acc) (sr_query result) (sr_results result), snd acc).

Lemma aggregate_searches_fold (rs : list SearchResult) :
  aggregate_searches rs = fold_left aggregate_step rs ([], []).
Proof.
  unfold aggregate_searches. generalize (@nil (string * Json), @nil (string * Json)).
  induction rs as [|r rs IH]; intros [a e]; cbn [fold_left]; [reflexivity|].
  rewrite IH. unfold aggregate_step. cbn [fst snd]. reflexivity.
Qed.

Lemma aggregate_fold_keys (rs : list SearchResult) :
  forall acc,
    let acc' := fold_left aggregate_step rs acc in
    (forall k, In k (map fst (fst acc'))
               <-> In k (map fst (fst acc)) \/ In k (map sr_query rs))
    /\ (forall k, In k (map fst (snd acc'))
                  <-> In k (map fst (snd acc))
                      \/ exists r, In r rs /\ sr_query r = k /\ has_error r = true)
    /\ (NoDup (map fst (fst acc)) -> NoDup (map fst (fst acc')))
    /\ (NoDup (map fst (snd acc)) -> NoDup (map fst (snd acc')))
    /\ (List.length (fst acc') <= List.length (fst acc) + List.length rs)%nat.
Proof.
  induction rs as [|r rs IH]; intros acc; cbn [fold_left].
  - cbv zeta. cbn [map In List.length]. repeat split; try tauto; try lia.
    intros [H|(r & [] & _)]. exact H.
  - specialize (IH (aggregate_step acc r)). cbv zeta in *.
    destruct IH as (Hk & He & Hn & Hne & Hl).
    set (acc' := fold_left aggregate_step rs (aggregate_step acc r)) in *.
    assert (Hfst : forall k, In k (map fst (fst (aggregate_step acc r)))
                             <-> k = sr_query r \/ In k (map fst (fst acc))).
    { intros k. unfold aggregate_step.
      destruct (has_error r); cbn [fst]; apply dict_set_keys. }
    assert (Hsnd : forall k, In k (map fst (snd (aggregate_step acc r)))
                             <-> (has_error r = true /\ k = sr_query r)
                                 \/ In k (map fst (snd acc))).
    { intros k. unfold aggregate_step.
      destruct (has_error r); cbn [snd]; [rewrite dict_set_keys|];
        intuition congruence. }
    split; [|split; [|split; [|split]]].
    + intros k. rewrite Hk, Hfst. cbn [map In]. intuition congruence.
    + intros k. rewrite He, Hsnd. split.
      * intros [[[Hr ->]|H]|(r' & Hr' & Hq & Hh)].
        -- right. exists r. cbn [In]. auto.
        -- now left.
        -- right. exists r'. cbn [In]. auto.
      * intros [H|(r' & [<-|Hr'] & Hq & Hh)].
        -- left. now right.
        -- left. left. auto.
        -- right. exists r'. auto.
    + intros H. apply Hn. unfold aggregate_step.
      destruct (has_error r); cbn [fst]; now apply dict_set_NoDup.
    + intros H. apply Hne. unfold aggregate_step.
      destruct (has_error r); cbn [snd]; [now apply dict_set_NoDup|exact H].
    + etransitivity; [exact Hl|]. cbn [List.length].
      assert (List.length (fst (aggregate_step acc r)) <= S (List.length (fst acc)))%nat.
      { unfold aggregate_step. destruct (has_error r); cbn [fst]; apply dict_set_length. }
      lia.
Qed.

Lemma gather_queries (queries : list string) :
  forall position, map sr_query (gather_searches tavily_client position queries) = queries.
Proof.
  induction queries as [|q queries IH]; intros position; cbn [gather_searches map];
    [reflexivity|].
  rewrite IH. f_equal. unfold _search_single_query.
  destruct tavily_client as [search|]; [|reflexivity].
  destruct (search position q) as [e|[| | | | | |d]]; reflexivity.
Qed.

Lemma gather_In (queries : list string) (r : SearchResult) :
  forall position,
    In r (gather_searches tavily_client position queries)
    <-> exists j q, nth_error queries j = Some q
                    /\ r = _search_single_query tavily_client (position + j) q.
Proof.
  induction queries as [|q queries IH]; intros position; cbn [gather_searches In].
  - split; [tauto|]. intros (j & q & H & _). destruct j; discriminate.
  - rewrite IH. split.
    + intros [<-|(j & q' & Hj & ->)].
      * exists 0%nat, q. rewrite Nat.add_0_r. auto.
      * exists (S j), q'. rewrite Nat.add_succ_r. auto.
    + intros ([|j] & q' & Hj & ->).
      * left. cbn in Hj. injection Hj as <-. now rewrite Nat.add_0_r.
      * right. exists j, q'. rewrite Nat.add_succ_r. auto.
Qed.

(** X16: with no query the tool answers the error object and searches nothing.
    Otherwise the "results" object has exactly one key per distinct query:
    every query is a key, every key is a query, no key is repeated, and so
    there are at most as many keys as queries. *)
Theorem search_results_cover_queries (queries : list string) :
  match queries with
  | [] => search_web_output tavily_client queries
          = JDict [("error", JStr "No queries provided")]
  | _ :: _ =>
      let aggregated := output_results (search_web_output tavily_client queries) in
      (exists tail, search_web_output tavily_client queries
                    = JDict (("results", JDict aggregated) :: tail))
      /\ NoDup (map fst aggregated)
      /\ (forall q, In q (map fst aggregated) <-> In q queries)
      /\ (List.length aggregated <= List.length queries)%nat
  end.
Proof.
  destruct queries as [|q0 queries]; [reflexivity|].
  set (qs := q0 :: queries). cbv zeta.
  unfold search_web_output. fold qs. change (match qs with [] => _ | _ :: _ => ?x end) with x.
  rewrite aggregate_searches_fold.
  pose proof (aggregate_fold_keys (gather_searches tavily_client 0 qs) ([], []))
    as (Hk & _ & Hn & _ & Hl).
  cbv zeta in *.
  destruct (fold_left aggregate_step (gather_searches tavily_client 0 qs) ([], []))
    as [aggregated errors].
  cbn [fst snd map List.length] in *. rewrite gather_queries in Hk.
  assert (Hlen : List.length (gather_searches tavily_client 0 qs) = List.length qs).
  { rewrite <- (gather_queries qs 0%nat) at 2. now rewrite length_map. }
  assert (Hout : output_results
                   (JDict match errors with
                          | [] => [("results", JDict aggregated)]
                          | _ :: _ => dict_set [("results", JDict aggregated)] "errors"
                                        (JDict errors)
                          end) = aggregated)
    by (destruct errors; reflexivity).
  rewrite Hout. split; [|split; [|split]].
  - destruct errors; eexists; reflexivity.
  - apply Hn. constructor.
  - intros q. rewrite Hk. cbn [In]. tauto.
  - lia.
Qed.

(** A search failed: there is no client, its [search] raised, or what it
    returned has no [get]. *)
Definition search_failed (position : nat) (query : string) : Prop :=
  match tavily_client with
  | None => True
  | Some search =>
      match search position query with
      | inr (JDict _) => False
      | _ => True
      end
  end.

Lemma has_error_failed (position : nat) (query : string) :
  has_error (_search_single_query tavily_client position query) = true
  <-> search_failed position query.
Proof.
  unfold search_failed, _search_single_query, has_error.
  destruct tavily_client as [search|]; [|cbn; tauto].
  destruct (search position query) as [e|[| | | | | |d]]; cbn; intuition congruence.
Qed.

Lemma output_of_aggregate (q0 : string) (queries : list string) :
  let out := search_web_output tavily_client (q0 :: queries) in
  let agg := aggregate_searches (gather_searches tavily_client 0 (q0 :: queries)) in
  output_results out = fst agg
  /\ output_errors out = snd agg
  /\ out = JDict (("results", JDict (fst agg))
                    :: match snd agg with
                       | [] => []
                       | _ :: _ => [("errors", JDict (snd agg))]
                       end).
Proof.
  cbv zeta. unfold search_web_output.
  destruct (aggregate_searches (gather_searches tavily_client 0 (q0 :: queries)))
    as [aggregated [|e errors]]; cbn; auto.
Qed.


Lemma gather_app (a b : list string) :
  forall position,
    gather_searches tavily_client position (a ++ b)
    = (gather_searches tavily_client position a
         ++ gather_searches tavily_client (position + List.length a) b)%list.
Proof.
  induction a as [|q a IH]; intros position; cbn [List.app gather_searches List.length].
  - now rewrite Nat.add_0_r.
  - rewrite IH. now rewrite Nat.add_succ_r.
Qed.

Lemma aggregate_fold_other (rs : list SearchResult) (k : string) (def : Json) :
  ~ In k (map sr_query rs) ->
  forall acc,
    dict_lookup (fst (fold_left aggregate_step rs acc)) k def = dict_lookup (fst acc) k def
    /\ dict_lookup (snd (fold_left aggregate_step rs acc)) k def
       = dict_lookup (snd acc) k def.
Proof.
  induction rs as [|r rs IH]; intros Hk acc; cbn [fold_left]; [auto|].
  cbn [map In] in Hk.
  destruct (IH (fun H => Hk (or_intror H)) (aggregate_step acc r)) as [-> ->].
  assert (Hne : sr_query r <> k) by tauto.
  unfold aggregate_step. destruct (has_error r); cbn [fst snd];
    rewrite ?dict_lookup_set_other by exact Hne; auto.
Qed.


End SearchFacts.

(* ================================================================== *)
(** * The key guard of the configuration module *)
(* ================================================================== *)

Section ProcessFacts.
Context {PF : PyFloat}.
Variable json_loads : string -> PyExn + Json.
Variable json_dumps : Json -> string.
Variable py_format : Json -> string.
Variable float_plus_one : float -> float.
Variable float_is_zero : float -> bool.

Lemma config_module_key (getenv : string -> option string) (config : Config) :
  config_module getenv = Imported config ->
  API_KEY config = getenv "GAMMA_API_KEY"
  /\ env_unset (getenv "GAMMA_API_KEY") = false.
Proof.
  unfold config_module.
  destruct (env_unset (getenv "GAMMA_API_KEY")); [discriminate|].
  destruct (_ || _); [discriminate|]. intros H. injection H as <-. now split.
Qed.

Lemma imports_key (getenv : string -> option string) (config : Config) :
  presentation_workflow_imports getenv = Imported config ->
  API_KEY config = getenv "GAMMA_API_KEY"
  /\ env_unset (getenv "GAMMA_API_KEY") = false.
Proof.
  unfold presentation_workflow_imports.
  destruct (config_module getenv) as [c|printed code|e] eqn:E; try discriminate.
  destruct (env_unset (TAVILY_API_KEY c)); [discriminate|].
  intros H. injection H as <-. now apply config_module_key.
Qed.

Lemma key_report_absent (effects : list GammaEffect) :
  filter is_key_report effects = [] ->
  ~ In "Error: GAMMA_API_KEY not found in environment" (gamma_yields effects).
Proof.
  induction effects as [|e effects IH]; cbn [filter gamma_yields flat_map]; [tauto|].
  destruct e as [m|m|p c|u p|u|n|o]; cbn [is_key_report List.app]; try exact IH.
  destruct (String.eqb_spec o "Error: GAMMA_API_KEY not found in environment")
    as [->|Hne]; [discriminate|].
  intros H [E|Hin]; [congruence|]. exact (IH H Hin).
Qed.


End ProcessFacts.

(* ================================================================== *)
(** * The further properties at concrete inputs *)
(* ================================================================== *)



Lemma gamma_raises_only_before_http_witness :
  fst (sample_run_in sample_world (Some "k") "[]")
  = inl {| exn_class := "AttributeError";
           exn_message := "'list' object has no attribute 'get'";
           exn_is_Exception := true |}
  /\ gamma_yields (snd (sample_run_in sample_world (Some "k") "[]")) = []
  /\ filter is_http (snd (sample_run_in sample_world (Some "k") "[]")) = [].
Proof.
  split; [reflexivity|].
  destruct (gamma_raises_only_before_http (PF := MilliFloat) (Some "k")
              "https://public-api.gamma.app/v0.2" sample_json_loads (fun _ => "{}")
              sample_format (fun x => x + 1000) (fun x => x =? 0) sample_world "[]"
              {| exn_class := "AttributeError";
                 exn_message := "'list' object has no attribute 'get'";
                 exn_is_Exception := true |} [] eq_refl)
    as (Hyields & Hhttp & _).
  split; [exact Hyields|]. apply Hhttp. reflexivity.
Defined.

Lemma sample_accepted (w : @GammaWorld MilliFloat) :
  open_error w "Untitled_Presentation_response.json" = None ->
  accepted (Some "k") sample_json_loads w "{}" [] "Untitled Presentation" 5.
Proof.
  intros Hw. unfold accepted. split; [reflexivity|]. split; [reflexivity|].
  split; [reflexivity|]. split; [reflexivity|]. exact Hw.
Defined.


Lemma gamma_post_rejected_witness :
  exists effects,
    sample_run_in refusing_world (Some "k") "{}" = (inr tt, effects)
    /\ gamma_yields effects = ["Gamma API Error: 500 - server error"]
    /\ filter is_http effects
       = [generation_post "https://public-api.gamma.app/v0.2" "{}" [] 5].
Proof.
  apply (gamma_post_rejected (PF := MilliFloat) (Some "k") _ _ _ _ _ _ refusing_world "{}"
           [] "Untitled Presentation" 5
           {| status_code := 500; text := "server error"; json_body := inl unreachable |}).
  - apply sample_accepted. reflexivity.
  - reflexivity.
  - cbn. lia.
  - cbn. lia.
Defined.

(** An unreachable network is reported; an interrupt from the keyboard
    leaves the call. *)
Lemma gamma_post_exception_witness :
  (exists effects,
     (sample_run_in sample_world (Some "k") "{}" = (inr tt, effects)
      /\ gamma_yields effects = ["Exception calling Gamma API: unreachable"])
     /\ filter is_http effects
        = [generation_post "https://public-api.gamma.app/v0.2" "{}" [] 5])
  /\ (exists effects,
        (sample_run_in interrupted_world (Some "k") "{}" = (inl interrupted, effects)
         /\ gamma_yields effects = [])
        /\ filter is_http effects
           = [generation_post "https://public-api.gamma.app/v0.2" "{}" [] 5]).
Proof.
  split.
  - apply (gamma_post_exception (PF := MilliFloat) (Some "k") _ _ _ _ _ _ sample_world
             "{}" [] "Untitled Presentation" 5 unreachable).
    + apply sample_accepted. reflexivity.
    + reflexivity.
  - apply (gamma_post_exception (PF := MilliFloat) (Some "k") _ _ _ _ _ _
             interrupted_world "{}" [] "Untitled Presentation" 5 interrupted).
    + apply sample_accepted. reflexivity.
    + reflexivity.
Defined.

Lemma poll_times_out_witness :
  exists log',
    _poll_for_completion "https://public-api.gamma.app/v0.2" sample_format (JStr "g1")
      (fun turn => 5 * Z.of_nat turn) [inr still_pending; inr unavailable] []
    = (inl timeout_error, log')
    /\ filter is_http log'
       = repeat (HttpGet "https://public-api.gamma.app/v0.2/generations/g1") 2
    /\ slept log' = 10
    /\ filter is_request_or_sleep log'
       = [ HttpGet "https://public-api.gamma.app/v0.2/generations/g1"; SleepSeconds 5;
           HttpGet "https://public-api.gamma.app/v0.2/generations/g1"; SleepSeconds 5 ].
Proof.
  apply (poll_times_out (PF := MilliFloat) "https://public-api.gamma.app/v0.2"
           sample_format (JStr "g1") (fun turn => 5 * Z.of_nat turn)
           [inr still_pending; inr unavailable] []).
  reflexivity.
Defined.

Lemma poll_stops_at_completion_witness :
  exists log',
    _poll_for_completion "https://public-api.gamma.app/v0.2" sample_format (JStr "g1")
      (fun turn => 5 * Z.of_nat turn)
      [inr still_pending; inr generation_done; inr unavailable] []
    = (inr (JDict generation_data), log')
    /\ filter is_http log'
       = repeat (HttpGet "https://public-api.gamma.app/v0.2/generations/g1") 2
    /\ slept log' = 5.
Proof.
  apply (poll_stops_at_completion (PF := MilliFloat) "https://public-api.gamma.app/v0.2"
           sample_format (JStr "g1") (fun turn => 5 * Z.of_nat turn)
           [inr still_pending] [inr unavailable] generation_done generation_data []).
  - reflexivity.
  - split; [reflexivity|]. split; reflexivity.
Defined.

Lemma poll_returns_completed_witness :
  exists d, JDict generation_data = JDict d
            /\ dict_lookup d "status" JNull = JStr "completed".
Proof.
  apply (poll_returns_completed (PF := MilliFloat) "https://public-api.gamma.app/v0.2"
           sample_format (JStr "g1") (fun turn => 5 * Z.of_nat turn)
           [inr still_pending; inr generation_done] []
           (snd (_poll_for_completion "https://public-api.gamma.app/v0.2" sample_format
                   (JStr "g1") (fun turn => 5 * Z.of_nat turn)
                   [inr still_pending; inr generation_done] []))
           (JDict generation_data)).
  reflexivity.
Defined.



(** A result of fifteen characters, the first of them outside ASCII, on
    two lines. *)
Lemma middleware_preview_witness :
  let result_text := "✓ line 1" ++ newline ++ "line 2" in
  logging_function_middleware (PF := MilliFloat) "search_web" (g_ret result_text) []
  = (inr tt,
     [ LogInfo ("FUNCTION - " ++ dquote ++ "search_web" ++ dquote ++ " - Invoked");
       LogInfo ("FUNCTION - " ++ dquote ++ "search_web" ++ dquote
                  ++ " - Result: ✓ line 1 line 2") ])
  /\ py_len (result_preview result_text) = 15%nat.
Proof.
  pose proof (middleware_preview (PF := MilliFloat) "search_web"
                (g_ret ("✓ line 1" ++ newline ++ "line 2")) []) as H.
  cbv zeta in H. destruct H as (Hrun & Hlen & _).
  split; [exact Hrun|exact Hlen].
Defined.

Lemma aggregate_total_order_independent_witness :
  snd (aggregate_loop scenario_a_results (summary_header, 0))
  = snd (aggregate_loop (List.rev scenario_a_results) (summary_header, 0))
  /\ summary_footer (snd (aggregate_loop scenario_a_results (summary_header, 0)))
     = summary_footer (snd (aggregate_loop (List.rev scenario_a_results) (summary_header, 0)))
  /\ Permutation (fst (aggregate_loop scenario_a_results (summary_header, 0)))
       (fst (aggregate_loop (List.rev scenario_a_results) (summary_header, 0))).
Proof.
  apply (aggregate_total_order_independent (PF := MilliFloat)).
  apply Permutation_rev.
Defined.

Lemma run_total_bounds_witness :
  exists (g : @Graph MilliFloat) (rs : list (@WorkerResult MilliFloat)),
    create_conditional_fan_out_workflow (PF := MilliFloat) 3 = inr g
    /\ x_status (run g sample_env (VInt 5) (repeat 0%nat 19))
       = Completed (aggregate_final_output rs)
    /\ outputs (run g sample_env (VInt 5) (repeat 0%nat 19)) = [aggregate_final_output rs]
    /\ Z.of_nat (List.length rs) = 3
    /\ Permutation (map worker_id rs) (worker_names 3)
    /\ Forall (fun r => input_value r = 5 /\ 5 <= output_value r <= 5 * 5 + 10) rs
    /\ 3 * 5 <= total_output_of rs <= 3 * (5 * 5 + 10).
Proof.
  apply (run_total_bounds (PF := MilliFloat) 3 5 sample_env (repeat 0%nat 19));
    [lia|lia|cbn; lia].
Defined.

(** The inputs 8 and 12 of [main]. *)
Lemma run_with_input_as_width_witness :
  (exists rs : list (@WorkerResult MilliFloat),
     x_status (run (demo_graph 8) sample_env (VInt 8) (repeat 0%nat 40))
     = Completed (aggregate_final_output rs)
     /\ outputs (run (demo_graph 8) sample_env (VInt 8) (repeat 0%nat 40))
        = [aggregate_final_output rs]
     /\ Z.of_nat (List.length rs) = 8)
  /\ x_status (run (demo_graph (PF := MilliFloat) 12) sample_env (VInt 12)
                 (repeat 0%nat 56)) = Halted
  /\ x_invoked (run (demo_graph (PF := MilliFloat) 12) sample_env (VInt 12)
                  (repeat 0%nat 56)) = [("checkpoint", VInt 12)].
Proof.
  split.
  - destruct (run_with_input_as_width (PF := MilliFloat) 8 sample_env (repeat 0%nat 40)
                ltac:(lia) ltac:(cbn; lia)) as (g & Hg & Hrun & _).
    rewrite create_conditional_fan_out_workflow_graph in Hg. injection Hg as <-.
    apply Hrun. lia.
  - destruct (run_with_input_as_width (PF := MilliFloat) 12 sample_env (repeat 0%nat 56)
                ltac:(lia) ltac:(cbn; lia)) as (g & Hg & _ & Hdrop).
    rewrite create_conditional_fan_out_workflow_graph in Hg. injection Hg as <-.
    destruct (Hdrop ltac:(lia)) as (Hst & _ & Hinv). split; assumption.
Defined.

Lemma search_results_cover_queries_witness :
  let queries := ["gamma"; "rocq"; "gamma"] in
  let aggregated := output_results (search_web_output (Some sample_search) queries) in
  (exists tail, search_web_output (Some sample_search) queries
                = JDict (("results", JDict aggregated) :: tail))
  /\ NoDup (map fst aggregated)
  /\ (forall q, In q (map fst aggregated) <-> In q queries)
  /\ (List.length aggregated <= 3)%nat.
Proof.
  exact (search_results_cover_queries (PF := MilliFloat) (Some sample_search)
           ["gamma"; "rocq"; "gamma"]).
Defined.


